(** * coretaskoptimizer: a shallow embedding of [src/main.cpp]

    The program is a one-shot tuning agent: it walks a procfs-like tree,
    classifies CPU cores, and applies scheduling system calls with a bounded
    retry.  Everything it does is an interaction with the host, so the
    embedding is a state monad over a [World] that carries the chronological
    trace of host interactions (with the host's answers), [errno], and the
    three function-local statics of [CPUTopology].  The host itself is a
    record of oracles that may answer differently as the trace grows.
    Exceptions are results: a computation that may throw returns a [Res]. *)

From Stdlib Require Import ZArith List String Ascii Bool Lia DecimalString Permutation.
Import ListNotations.
Open Scope Z_scope.

(** ** namespace config *)

Module config.
Definition HIGH_PRIO_TASKS : list string :=
  ["servicemanag"; "zygote"; "system_server"; "surfaceflinger";
   "kblockd"; "writeback"; "Input"; "composer"]%string.
Definition RT_TASKS : list string :=
  ["kgsl_worker_thread"; "crtc_commit"; "crtc_event";
   "pp_event"; "fts_wq"; "nvt_ts_work"]%string.
Definition LOW_PRIO_TASKS : list string :=
  ["f2fs_gc"; "wlan_logging_th"]%string.
Definition MAX_RETRIES : Z := 3.
Definition RETRY_DELAY_MS : Z := 50.
End config.

(** ** Machine integers *)

(** [int] is 32 bits wide; [wrap32] is the two's complement wrap-around
    that [std::atomic<int>] arithmetic performs. *)
Definition INT_MAX : Z := 2147483647.
Definition INT_MIN : Z := -2147483648.
Definition wrap32 (z : Z) : Z := (z + 2147483648) mod 4294967296 - 2147483648.

(** ** Exceptions *)

Inductive Exn :=
| invalid_argument      (* std::stoi: no conversion *)
| out_of_range          (* std::stoi: value does not fit an int *)
| regex_error           (* std::regex constructor *)
| filesystem_error      (* fs::exists: the status of the path cannot be read *)
| other_exception.      (* anything else, e.g. std::bad_alloc *)

Inductive Res (A : Type) :=
| Ok (a : A)
| Thrown (e : Exn).
Arguments Ok {A} a.
Arguments Thrown {A} e.

(** ** The host and the world *)

(** The four scheduling attributes of [SyscallOptimizer]. *)
Inductive Kind := Affinity | Nice | RT | IOPrio.

(** What one iteration of the probing loop of [detectCores] meets:
    the stream does not open; or it opens and [freqFile >> maxFreq] leaves
    [maxFreq] in the variable ([failbit] tells whether the extraction
    failed, a flag the code never reads); or an exception escapes the
    iteration (the string and vector operations may throw). *)
Inductive Probe :=
| NotOpen
| Opened (failbit : bool) (maxFreq : Z)
| Raise.

(** A directory entry: its file name and the file type the listing
    reports for it. *)
Record DirEntry := { d_name : string; d_is_directory : bool }.

Inductive Dir :=
| ProcRoot              (* "/proc" *)
| TaskDir (pid : Z).    (* "/proc/<pid>/task" *)

Record CoreInfo := {
  perfCores : list Z;
  effCores : list Z;
  totalCores : Z
}.

(** Host interactions carry the host's answer; [EvExistsThrew] is a call
    of fs::exists that threw.  [EvDirect] and [EvApply] are call records: a
    private [set*Direct] attempt, respectively a public [set*] application,
    returned with the given outcome (a call that is left by an exception
    leaves no record). *)
Inductive Event :=
| EvProbe (core : Z) (p : Probe)
| EvExists (pid : Z) (b : bool)
| EvExistsThrew (pid : Z) (e : Exn)
| EvList (d : Dir) (entries : list DirEntry)
| EvComm (name : string) (line : option string)
| EvSyscall (k : Kind) (tid arg ret : Z) (err : option Z)
| EvSleep (ms : Z)
| EvLog (msg : string) (isError : bool)
| EvDirect (k : Kind) (tid : Z) (ok : bool)
| EvApply (k : Kind) (tid : Z) (ok : bool).

Definition Trace := list Event.

Record Host := {
  (* std::ifstream on cpu<i>/cpufreq/cpuinfo_max_freq, then operator>> *)
  cpu_probe : Trace -> Z -> Probe;
  (* fs::exists("/proc/" + std::to_string(pid)), the throwing overload:
     the answer, or the exception when the status cannot be read *)
  proc_exists : Trace -> Z -> Res bool;
  (* fs::directory_iterator(dir, ec): the entries, none when ec is set *)
  list_dir : Trace -> Dir -> list DirEntry;
  (* std::getline on <entry>/comm: the line when the read succeeds *)
  read_comm : Trace -> string -> option string;
  (* the system call of each kind: return value, and errno when it sets it *)
  syscall : Trace -> Kind -> Z -> Z -> Z * option Z;
  strerror : Z -> string;
  (* std::regex: whether the constructor accepts, and regex_search *)
  regex_valid : string -> bool;
  regex_search : string -> string -> bool;
  what : Exn -> string
}.

Record World := {
  trace : Trace;
  errno : Z;
  perfInfo : option CoreInfo;   (* static local of getPerfMask *)
  effInfo : option CoreInfo;    (* static local of getEffMask *)
  allInfo : option CoreInfo     (* static local of getAllMask *)
}.

Definition initial_world : World :=
  {| trace := []; errno := 0; perfInfo := None; effInfo := None; allInfo := None |}.

Definition set_trace (t : Trace) (w : World) : World :=
  {| trace := t; errno := errno w;
     perfInfo := perfInfo w; effInfo := effInfo w; allInfo := allInfo w |}.
Definition set_errno (e : Z) (w : World) : World :=
  {| trace := trace w; errno := e;
     perfInfo := perfInfo w; effInfo := effInfo w; allInfo := allInfo w |}.
Definition set_perfInfo (i : CoreInfo) (w : World) : World :=
  {| trace := trace w; errno := errno w;
     perfInfo := Some i; effInfo := effInfo w; allInfo := allInfo w |}.
Definition set_effInfo (i : CoreInfo) (w : World) : World :=
  {| trace := trace w; errno := errno w;
     perfInfo := perfInfo w; effInfo := Some i; allInfo := allInfo w |}.
Definition set_allInfo (i : CoreInfo) (w : World) : World :=
  {| trace := trace w; errno := errno w;
     perfInfo := perfInfo w; effInfo := effInfo w; allInfo := Some i |}.

(** ** The monad *)

Definition M (A : Type) : Type := World -> A * World.

Definition ret {A} (a : A) : M A := fun w => (a, w).
Definition bind {A B} (m : M A) (k : A -> M B) : M B :=
  fun w => let (a, w1) := m w in k a w1.

Declare Scope monad_scope.
Delimit Scope monad_scope with monad.
Notation "x <- m ;; k" := (bind m (fun x => k))
  (at level 61, m at next level, right associativity) : monad_scope.
Notation "m ;;; k" := (bind m (fun _ => k))
  (at level 61, right associativity) : monad_scope.
Open Scope monad_scope.

(** Sequencing of computations that may throw: an exception of the first
    leaves the whole. *)
Definition bind_ok {A B} (m : M (Res A)) (k : A -> M (Res B)) : M (Res B) :=
  r <- m ;;
  match r with
  | Ok a => k a
  | Thrown e => ret (Thrown e)
  end.
Notation "x <~ m ;; k" := (bind_ok m (fun x => k))
  (at level 61, m at next level, right associativity) : monad_scope.

Definition emit (e : Event) : M unit :=
  fun w => (tt, set_trace (trace w ++ [e]) w).

(** Events appended between two worlds. *)
Definition new_events (w w' : World) : Trace :=
  skipn (List.length (trace w)) (trace w').

(** std::to_string on an int. *)
Definition to_string (z : Z) : string := NilZero.string_of_int (Z.to_int z).

(** ** class Logger (external collaborator: only the call is recorded) *)

Module Logger.
Definition log (message : string) (isError : bool) : M unit :=
  emit (EvLog message isError).
End Logger.

(** ** class Sanitizer *)

Module Sanitizer.

Definition isdigit (c : ascii) : bool :=
  (48 <=? Z.of_nat (nat_of_ascii c)) && (Z.of_nat (nat_of_ascii c) <=? 57).

Fixpoint sanitizePID (input : string) : string :=
  match input with
  | EmptyString => EmptyString
  | String c rest =>
      if isdigit c then String c (sanitizePID rest) else sanitizePID rest
  end.

Section WithHost.
Variable h : Host.

Definition exists_proc (pid : Z) : M (Res bool) :=
  fun w => match proc_exists h (trace w) pid with
           | Ok b => (Ok b, snd (emit (EvExists pid b) w))
           | Thrown e => (Thrown e, snd (emit (EvExistsThrew pid e) w))
           end.

(** [&&] evaluates [fs::exists] only when the range test passes; what
    [fs::exists] throws leaves isValidPID. *)
Definition isValidPID (pid : Z) : M (Res bool) :=
  if (0 <? pid) && (pid <? 99999) then exists_proc pid else ret (Ok false).
End WithHost.

(** std::string::npos for a 64-bit size_t. *)
Definition npos : Z := 18446744073709551615.

Fixpoint contains (chars : string) (c : ascii) : bool :=
  match chars with
  | EmptyString => false
  | String d rest => if Ascii.eqb c d then true else contains rest c
  end.

Fixpoint find_first_of_from (s chars : string) (pos : Z) : Z :=
  match s with
  | EmptyString => npos
  | String c rest =>
      if contains chars c then pos else find_first_of_from rest chars (pos + 1)
  end.

Definition find_first_of (s chars : string) : Z := find_first_of_from s chars 0.

Definition forbidden : string := ";&|`$(){}[]<>".

Definition isValidPattern (pattern : string) : bool :=
  (Z.of_nat (String.length pattern) <? 100) &&
  (find_first_of pattern forbidden =? npos).

End Sanitizer.

(** ** class CPUTopology *)

Module CPUTopology.

Definition empty_info : CoreInfo :=
  {| perfCores := []; effCores := []; totalCores := 0 |}.

Definition default_info : CoreInfo :=
  {| perfCores := [4; 5; 6; 7]; effCores := [0; 1; 2; 3]; totalCores := 8 |}.

Definition fallback_message : string :=
  "Failed to detect CPU topology, using defaults".

(** One iteration's bookkeeping after a successful open:
    [totalCores++], then the push_back chosen by the threshold. *)
Definition classify (i maxFreq : Z) (info : CoreInfo) : CoreInfo :=
  if 2000000 <? maxFreq
  then {| perfCores := perfCores info ++ [i];
          effCores := effCores info;
          totalCores := totalCores info + 1 |}
  else {| perfCores := perfCores info;
          effCores := effCores info ++ [i];
          totalCores := totalCores info + 1 |}.

(** cpu_set_t as a bit mask; CPU_SET ignores an index outside the set. *)
Definition CPU_SETSIZE : Z := 1024.
Definition CPU_ZERO : Z := 0.
Definition CPU_SET (cpu mask : Z) : Z :=
  if (0 <=? cpu) && (cpu <? CPU_SETSIZE) then Z.lor mask (Z.shiftl 1 cpu) else mask.

(** The mask loops of getPerfMask / getEffMask / getAllMask on a
    detected [CoreInfo]. *)
Definition mask_of (cores : list Z) : Z :=
  fold_left (fun mask core => CPU_SET core mask) cores CPU_ZERO.
Definition perfMask (info : CoreInfo) : Z := mask_of (perfCores info).
Definition effMask (info : CoreInfo) : Z := mask_of (effCores info).
Definition allMask (info : CoreInfo) : Z :=
  mask_of (map Z.of_nat (seq 0 (Z.to_nat (totalCores info)))).

Section WithHost.
Variable h : Host.

Definition open_freq (i : Z) : M Probe :=
  fun w => let p := cpu_probe h (trace w) i in
           (p, snd (emit (EvProbe i p) w)).

(** [for (int i = 0; i < 16; ++i)], entered at index [i] with [fuel]
    iterations left (sixteen from index 0, where the bound is met as the
    fuel ends); [Thrown] is an exception leaving the try block. *)
Fixpoint probe_loop (fuel : nat) (i : Z) (info : CoreInfo) : M (Res CoreInfo) :=
  match fuel with
  | O => ret (Ok info)
  | S fuel' =>
      if i <? 16 then
        p <- open_freq i ;;
        match p with
        | NotOpen => ret (Ok info)
        | Opened _ maxFreq => probe_loop fuel' (i + 1) (classify i maxFreq info)
        | Raise => ret (Thrown other_exception)
        end
      else ret (Ok info)
  end.

Definition detectCores : M CoreInfo :=
  r <- probe_loop 16 0 empty_info ;;
  match r with
  | Ok info => ret info
  | Thrown _ => Logger.log fallback_message true ;;; ret default_info
  end.

Definition getPerfMask : M Z :=
  fun w => match perfInfo w with
           | Some info => (perfMask info, w)
           | None => let (info, w1) := detectCores w in
                     (perfMask info, set_perfInfo info w1)
           end.

Definition getEffMask : M Z :=
  fun w => match effInfo w with
           | Some info => (effMask info, w)
           | None => let (info, w1) := detectCores w in
                     (effMask info, set_effInfo info w1)
           end.

Definition getAllMask : M Z :=
  fun w => match allInfo w with
           | Some info => (allMask info, w)
           | None => let (info, w1) := detectCores w in
                     (allMask info, set_allInfo info w1)
           end.
End WithHost.

End CPUTopology.

(** ** class SyscallOptimizer *)

Module SyscallOptimizer.

Record OpResult := { success : bool; error : string }.

Definition IOPRIO_WHO_PROCESS : Z := 1.
Definition IOPRIO_CLASS_SHIFT : Z := 13.

Section WithHost.
Variable h : Host.

(** A system call: the host answers, [errno] is overwritten when the
    call sets it. *)
Definition host_syscall (k : Kind) (tid arg : Z) : M Z :=
  fun w => let (r, e) := syscall h (trace w) k tid arg in
           let w1 := snd (emit (EvSyscall k tid arg r e) w) in
           (r, match e with Some v => set_errno v w1 | None => w1 end).

Definition get_errno : M Z := fun w => (errno w, w).
Definition put_errno (e : Z) : M unit := fun w => (tt, set_errno e w).

Definition sleep_for (ms : Z) : M unit := emit (EvSleep ms).

(** The call record of a private attempt that returns. *)
Definition recorded (k : Kind) (tid : Z) (m : M (Res OpResult)) : M (Res OpResult) :=
  r <~ m ;; emit (EvDirect k tid (success r)) ;;; ret (Ok r).

Definition failed (what_failed : string) : M (Res OpResult) :=
  e <- get_errno ;;
  ret (Ok {| success := false; error := (what_failed ++ strerror h e)%string |}).

Definition setAffinityDirect (tid mask : Z) : M (Res OpResult) :=
  recorded Affinity tid (
    valid <~ Sanitizer.isValidPID h tid ;;
    if negb valid then ret (Ok {| success := false; error := "Invalid TID" |}) else
    r <- host_syscall Affinity tid mask ;;
    if r =? 0 then ret (Ok {| success := true; error := "" |})
    else failed "sched_setaffinity failed: ").

Definition setNiceDirect (tid value : Z) : M (Res OpResult) :=
  recorded Nice tid (
    valid <~ Sanitizer.isValidPID h tid ;;
    if negb valid then ret (Ok {| success := false; error := "Invalid TID" |}) else
    put_errno 0 ;;;
    r <- host_syscall Nice tid value ;;
    e <- get_errno ;;
    if (r =? 0) || (e =? 0) then ret (Ok {| success := true; error := "" |})
    else failed "setpriority failed: ").

Definition setRTDirect (tid priority : Z) : M (Res OpResult) :=
  recorded RT tid (
    valid <~ Sanitizer.isValidPID h tid ;;
    if negb valid then ret (Ok {| success := false; error := "Invalid TID" |}) else
    r <- host_syscall RT tid priority ;;
    if r =? 0 then ret (Ok {| success := true; error := "" |})
    else failed "sched_setscheduler failed: ").

Definition setIOPrioDirect (tid ioClass : Z) : M (Res OpResult) :=
  recorded IOPrio tid (
    valid <~ Sanitizer.isValidPID h tid ;;
    if negb valid then ret (Ok {| success := false; error := "Invalid TID" |}) else
    let ioprio := wrap32 (Z.shiftl ioClass IOPRIO_CLASS_SHIFT) in
    r <- host_syscall IOPrio tid ioprio ;;
    if r =? 0 then ret (Ok {| success := true; error := "" |})
    else failed "ioprio_set failed: ").

(** The private attempt of each kind.  None of the four has a handler:
    what isValidPID throws leaves the attempt. *)
Definition direct (k : Kind) (tid arg : Z) : M (Res OpResult) :=
  match k with
  | Affinity => setAffinityDirect tid arg
  | Nice => setNiceDirect tid arg
  | RT => setRTDirect tid arg
  | IOPrio => setIOPrioDirect tid arg
  end.

(** The retry loop, written four times in the source with a different
    attempt each time: [for (retry = 0; retry < MAX_RETRIES; ++retry)],
    entered at [retry] with [fuel] iterations left.  The loop has no
    handler either: an attempt that throws ends it. *)
Fixpoint retry_loop (attempt : M (Res OpResult)) (fuel : nat) (retry : Z)
  : M (Res bool) :=
  match fuel with
  | O => ret (Ok false)
  | S fuel' =>
      if retry <? config.MAX_RETRIES then
        result <~ attempt ;;
        if success result then ret (Ok true) else
        (if retry <? config.MAX_RETRIES - 1
         then sleep_for config.RETRY_DELAY_MS
         else ret tt) ;;;
        retry_loop attempt fuel' (retry + 1)
      else ret (Ok false)
  end.

(** The call record of a public application that returns. *)
Definition applied (k : Kind) (tid : Z) (m : M (Res bool)) : M (Res bool) :=
  b <~ m ;; emit (EvApply k tid b) ;;; ret (Ok b).

Definition setAffinity (tid mask : Z) : M (Res bool) :=
  applied Affinity tid
    (retry_loop (setAffinityDirect tid mask) (Z.to_nat config.MAX_RETRIES) 0).

Definition setNice (tid value : Z) : M (Res bool) :=
  applied Nice tid
    (retry_loop (setNiceDirect tid value) (Z.to_nat config.MAX_RETRIES) 0).

Definition setRT (tid priority : Z) : M (Res bool) :=
  applied RT tid
    (retry_loop (setRTDirect tid priority) (Z.to_nat config.MAX_RETRIES) 0).

Definition setIOPrio (tid ioClass : Z) : M (Res bool) :=
  applied IOPrio tid
    (retry_loop (setIOPrioDirect tid ioClass) (Z.to_nat config.MAX_RETRIES) 0).

(** The public application of each kind. *)
Definition apply (k : Kind) (tid arg : Z) : M (Res bool) :=
  match k with
  | Affinity => setAffinity tid arg
  | Nice => setNice tid arg
  | RT => setRT tid arg
  | IOPrio => setIOPrio tid arg
  end.
End WithHost.

End SyscallOptimizer.

(** ** class ProcessUtils *)

Module ProcessUtils.

(** std::all_of(begin, end, ::isdigit): true on the empty string. *)
Fixpoint all_of_isdigit (s : string) : bool :=
  match s with
  | EmptyString => true
  | String c rest => Sanitizer.isdigit c && all_of_isdigit rest
  end.

Definition digit_value (c : ascii) : Z := Z.of_nat (nat_of_ascii c) - 48.

(** The value of the leading digits of [s], accumulated left to right. *)
Fixpoint decimal_value (s : string) (acc : Z) : Z :=
  match s with
  | EmptyString => acc
  | String c rest =>
      if Sanitizer.isdigit c then decimal_value rest (10 * acc + digit_value c)
      else acc
  end.

(** std::stoi as the scanner uses it, on names made of digits: no digits
    is std::invalid_argument, a value beyond INT_MAX is std::out_of_range.
    (Leading blanks and signs, which the callers filter out beforehand,
    are not interpreted.) *)
Definition stoi (s : string) : Res Z :=
  match s with
  | EmptyString => Thrown invalid_argument
  | String c _ =>
      if Sanitizer.isdigit c then
        let v := decimal_value s 0 in
        if v <=? INT_MAX then Ok v else Thrown out_of_range
      else Thrown invalid_argument
  end.

Section WithHost.
Variable h : Host.

Definition host_list_dir (d : Dir) : M (list DirEntry) :=
  fun w => let l := list_dir h (trace w) d in
           (l, snd (emit (EvList d l) w)).

Definition host_read_comm (name : string) : M (option string) :=
  fun w => let c := read_comm h (trace w) name in
           (c, snd (emit (EvComm name c) w)).

(** The range-for of getProcessIDs over the entries still to visit.
    It yields the vector as it stands when the loop is left, and the
    exception that left it, if any: one of std::stoi or one of
    isValidPID.  ([ec] can only be set when the iterator is created, in
    which case there is nothing to visit.) *)
Fixpoint scan_proc (pattern : string) (entries : list DirEntry)
         (pids : list Z) : M (list Z * option Exn) :=
  match entries with
  | [] => ret (pids, None)
  | entry :: rest =>
      if negb (d_is_directory entry) then scan_proc pattern rest pids else
      let filename := d_name entry in
      if negb (all_of_isdigit filename) then scan_proc pattern rest pids else
      match stoi filename with
      | Thrown e => ret (pids, Some e)
      | Ok pid =>
          valid <- Sanitizer.isValidPID h pid ;;
          match valid with
          | Thrown e => ret (pids, Some e)
          | Ok valid =>
              if negb valid then scan_proc pattern rest pids else
              comm <- host_read_comm filename ;;
              match comm with
              | Some line =>
                  if regex_search h pattern line
                  then scan_proc pattern rest (pids ++ [pid])
                  else scan_proc pattern rest pids
              | None => scan_proc pattern rest pids
              end
          end
      end
  end.

(** The regex is built before the try block: its exception escapes.
    What leaves the loop is caught, logged, and ends the scan. *)
Definition getProcessIDs (pattern : string) : M (Res (list Z)) :=
  if negb (Sanitizer.isValidPattern pattern) then
    Logger.log ("Invalid pattern: " ++ pattern)%string true ;;; ret (Ok [])
  else if negb (regex_valid h pattern) then ret (Thrown regex_error)
  else
    entries <- host_list_dir ProcRoot ;;
    r <- scan_proc pattern entries [] ;;
    match snd r with
    | Some e =>
        Logger.log ("Error in getProcessIDs: " ++ what h e)%string true ;;;
        ret (Ok (fst r))
    | None => ret (Ok (fst r))
    end.

(** The range-for of getThreadIDs. *)
Fixpoint scan_task (entries : list DirEntry) (tids : list Z)
  : M (list Z * option Exn) :=
  match entries with
  | [] => ret (tids, None)
  | entry :: rest =>
      if negb (d_is_directory entry) then scan_task rest tids else
      let tidStr := d_name entry in
      if all_of_isdigit tidStr then
        match stoi tidStr with
        | Thrown e => ret (tids, Some e)
        | Ok tid =>
            valid <- Sanitizer.isValidPID h tid ;;
            match valid with
            | Thrown e => ret (tids, Some e)
            | Ok valid =>
                if valid then scan_task rest (tids ++ [tid])
                else scan_task rest tids
            end
        end
      else scan_task rest tids
  end.

(** The first isValidPID stands before the try block: its exception
    escapes.  What leaves the loop is caught, logged, and ends the scan. *)
Definition getThreadIDs (pid : Z) : M (Res (list Z)) :=
  valid <~ Sanitizer.isValidPID h pid ;;
  if negb valid then ret (Ok []) else
  entries <- host_list_dir (TaskDir pid) ;;
  r <- scan_task entries [] ;;
  match snd r with
  | Some e =>
      Logger.log ("Error in getThreadIDs: " ++ what h e)%string true ;;;
      ret (Ok (fst r))
  | None => ret (Ok (fst r))
  end.
End WithHost.

End ProcessUtils.

(** ** class StatsTracker *)

Module StatsTracker.

(** Three [std::atomic<int>]: increments wrap around. *)
Record t := { successCount : Z; failureCount : Z; totalOps : Z }.

Definition init : t := {| successCount := 0; failureCount := 0; totalOps := 0 |}.

Definition recordSuccess (s : t) : t :=
  {| successCount := wrap32 (successCount s + 1);
     failureCount := failureCount s;
     totalOps := wrap32 (totalOps s + 1) |}.

Definition recordFailure (s : t) : t :=
  {| successCount := successCount s;
     failureCount := wrap32 (failureCount s + 1);
     totalOps := wrap32 (totalOps s + 1) |}.

Definition report (s : t) : M unit :=
  Logger.log ("Operations: " ++ to_string (totalOps s) ++
              " | Success: " ++ to_string (successCount s) ++
              " | Failed: " ++ to_string (failureCount s))%string false.

(** The two mutators, and a sequence of calls applied in order. *)
Inductive Call := Success | Failure.

Definition record (c : Call) (s : t) : t :=
  match c with Success => recordSuccess s | Failure => recordFailure s end.

Definition run (calls : list Call) (s : t) : t :=
  fold_left (fun s c => record c s) calls s.

End StatsTracker.

(** ** class TaskOptimizer *)

Module TaskOptimizer.

Section WithHost.
Variable h : Host.

(** The body of the inner loop: one optimizer call, then one record
    (and the error log on failure).  The member [stats] is threaded
    explicitly.  Nothing here catches: when the optimizer throws, nothing
    is recorded and the exception leaves the loops. *)
Definition visit (optimizer : Z -> M (Res bool)) (opName : string)
           (tid : Z) (stats : StatsTracker.t) : M (Res unit * StatsTracker.t) :=
  r <- optimizer tid ;;
  match r with
  | Thrown e => ret (Thrown e, stats)
  | Ok true => ret (Ok tt, StatsTracker.recordSuccess stats)
  | Ok false =>
      Logger.log ("Failed " ++ opName ++ " for TID " ++ to_string tid)%string true ;;;
      ret (Ok tt, StatsTracker.recordFailure stats)
  end.

(** [for (pid_t tid : tids)]. *)
Fixpoint for_tids (optimizer : Z -> M (Res bool)) (opName : string)
         (tids : list Z) (stats : StatsTracker.t) : M (Res unit * StatsTracker.t) :=
  match tids with
  | [] => ret (Ok tt, stats)
  | tid :: rest =>
      r <- visit optimizer opName tid stats ;;
      match fst r with
      | Thrown e => ret (Thrown e, snd r)
      | Ok _ => for_tids optimizer opName rest (snd r)
      end
  end.

(** [for (pid_t pid : pids)]. *)
Fixpoint for_pids (optimizer : Z -> M (Res bool)) (opName : string)
         (pids : list Z) (stats : StatsTracker.t) : M (Res unit * StatsTracker.t) :=
  match pids with
  | [] => ret (Ok tt, stats)
  | pid :: rest =>
      t <- ProcessUtils.getThreadIDs h pid ;;
      match t with
      | Thrown e => ret (Thrown e, stats)
      | Ok tids =>
          r <- for_tids optimizer opName tids stats ;;
          match fst r with
          | Thrown e => ret (Thrown e, snd r)
          | Ok _ => for_pids optimizer opName rest (snd r)
          end
      end
  end.

(** An exception of getProcessIDs, of getThreadIDs or of the optimizer
    passes through. *)
Definition optimizePattern (pattern : string) (optimizer : Z -> M (Res bool))
           (opName : string) (stats : StatsTracker.t)
  : M (Res unit * StatsTracker.t) :=
  r <- ProcessUtils.getProcessIDs h pattern ;;
  match r with
  | Thrown e => ret (Thrown e, stats)
  | Ok [] =>
      Logger.log ("No processes found for: " ++ pattern)%string false ;;;
      ret (Ok tt, stats)
  | Ok pids => for_pids optimizer opName pids stats
  end.

Definition reportStats (stats : StatsTracker.t) : M unit :=
  StatsTracker.report stats.
End WithHost.

End TaskOptimizer.

(** ** optimizeSystem *)

(** The built-in [&&] on effectful operands: the right one runs only when
    the left one returned true. *)
Definition and_then (a b : M (Res bool)) : M (Res bool) :=
  x <~ a ;; if x then b else ret (Ok false).
Infix "&&>" := and_then (at level 40, left associativity) : monad_scope.

Section OptimizeSystem.
Variable h : Host.

(** The three lambdas; an argument is evaluated before its call. *)
Definition high_prio (tid : Z) : M (Res bool) :=
  SyscallOptimizer.setNice h tid (-10) &&>
  (mask <- CPUTopology.getPerfMask h ;; SyscallOptimizer.setAffinity h tid mask).

Definition rt (tid : Z) : M (Res bool) :=
  SyscallOptimizer.setRT h tid 50 &&>
  (mask <- CPUTopology.getPerfMask h ;; SyscallOptimizer.setAffinity h tid mask).

Definition low_prio (tid : Z) : M (Res bool) :=
  SyscallOptimizer.setNice h tid 5 &&>
  (mask <- CPUTopology.getEffMask h ;; SyscallOptimizer.setAffinity h tid mask) &&>
  SyscallOptimizer.setIOPrio h tid 3.

(** [for (const auto& task : TASKS) optimizer.optimizePattern(...)]. *)
Fixpoint for_tasks (tasks : list string) (optimizer : Z -> M (Res bool))
         (opName : string) (stats : StatsTracker.t)
  : M (Res unit * StatsTracker.t) :=
  match tasks with
  | [] => ret (Ok tt, stats)
  | task :: rest =>
      r <- TaskOptimizer.optimizePattern h task optimizer opName stats ;;
      match fst r with
      | Thrown e => ret (Thrown e, snd r)
      | Ok _ => for_tasks rest optimizer opName (snd r)
      end
  end.

Definition optimizeSystem : M (Res unit) :=
  Logger.log "=== Starting Advanced System Optimization ===" false ;;;
  Logger.log "Optimizing high priority tasks..." false ;;;
  r1 <- for_tasks config.HIGH_PRIO_TASKS high_prio "high_prio" StatsTracker.init ;;
  match fst r1 with Thrown e => ret (Thrown e) | Ok _ =>
  Logger.log "Optimizing real-time tasks..." false ;;;
  r2 <- for_tasks config.RT_TASKS rt "rt" (snd r1) ;;
  match fst r2 with Thrown e => ret (Thrown e) | Ok _ =>
  Logger.log "Optimizing low priority tasks..." false ;;;
  r3 <- for_tasks config.LOW_PRIO_TASKS low_prio "low_prio" (snd r2) ;;
  match fst r3 with Thrown e => ret (Thrown e) | Ok _ =>
  TaskOptimizer.reportStats (snd r3) ;;;
  Logger.log "=== System Optimization Completed ===" false ;;;
  ret (Ok tt)
  end end end.
End OptimizeSystem.

(** The forbidden characters as the specification lists them. *)
Definition forbidden_chars : list ascii :=
  [";"; "&"; "|"; "`"; "$"; "("; ")"; "{"; "}"; "["; "]"; "<"; ">"]%char.


(** * Observations on traces *)

(** A computation is silent for a class of events when it appends none of
    them; every computation only ever appends to the trace. *)
Definition silent (P : Event -> bool) {A} (m : M A) : Prop :=
  forall w, exists d, trace (snd (m w)) = trace w ++ d /\ filter P d = [].



(** What the topology probing is about: the probes that opened, in index
    order from [i], and the bookkeeping they cause. *)
Fixpoint opened_events (i : Z) (vals : list (bool * Z)) : Trace :=
  match vals with
  | [] => []
  | (f, v) :: rest => EvProbe i (Opened f v) :: opened_events (i + 1) rest
  end.

Fixpoint classify_all (i : Z) (vals : list (bool * Z)) (info : CoreInfo) : CoreInfo :=
  match vals with
  | [] => info
  | (_, v) :: rest => classify_all (i + 1) rest (CPUTopology.classify i v info)
  end.

(** The consecutive indices [i], [i+1], ... ([len] of them). *)
Fixpoint zrange (i : Z) (len : nat) : list Z :=
  match len with
  | O => []
  | S len' => i :: zrange (i + 1) len'
  end.

(** The two sets split the indices below [totalCores]: no index twice, no
    other index, and as many entries as [totalCores]. *)
Definition partitioned (info : CoreInfo) : Prop :=
  NoDup (perfCores info ++ effCores info) /\
  (forall j, In j (perfCores info ++ effCores info) <-> 0 <= j < totalCores info) /\
  Z.of_nat (List.length (perfCores info ++ effCores info)) = totalCores info.

(** What the tuning tiers are about: the public applications. *)
Definition is_apply_event (e : Event) : bool :=
  match e with
  | EvApply _ _ _ => true
  | _ => false
  end.


(** Informational log lines (isError = false). *)
Definition is_info_log (e : Event) : bool :=
  match e with
  | EvLog _ false => true
  | _ => false
  end.
Definition info_logs (t : Trace) : Trace := filter is_info_log t.

(** The optimizer's outcomes along the inner loop over [tids], in order,
    how the loop is left, and the world it leaves: the traversal without
    the statistics.  A call that throws has no outcome and ends the loop. *)
Fixpoint tids_outcomes (optimizer : Z -> M (Res bool)) (opName : string) (tids : list Z)
         (w : World) : (list bool * Res unit) * World :=
  match tids with
  | [] => (([], Ok tt), w)
  | tid :: rest =>
      let (r, w1) := optimizer tid w in
      match r with
      | Thrown e => (([], Thrown e), w1)
      | Ok ok =>
          let w2 := if ok then w1
                    else snd (Logger.log ("Failed " ++ opName ++ " for TID "
                                          ++ to_string tid)%string true w1) in
          let (p, w3) := tids_outcomes optimizer opName rest w2 in
          ((ok :: fst p, snd p), w3)
      end
  end.

(** The same along the outer loop over [pids]: one outcome per thread ID
    enumerated during the pass and visited by a call that returned. *)
Fixpoint pass_outcomes (h : Host) (optimizer : Z -> M (Res bool)) (opName : string)
         (pids : list Z) (w : World) : (list bool * Res unit) * World :=
  match pids with
  | [] => (([], Ok tt), w)
  | pid :: rest =>
      let (t, w1) := ProcessUtils.getThreadIDs h pid w in
      match t with
      | Thrown e => (([], Thrown e), w1)
      | Ok tids =>
          let (p, w2) := tids_outcomes optimizer opName tids w1 in
          match snd p with
          | Thrown e => (p, w2)
          | Ok _ =>
              let (p', w3) := pass_outcomes h optimizer opName rest w2 in
              ((fst p ++ fst p', snd p'), w3)
          end
      end
  end.

Definition call_of (ok : bool) : StatsTracker.Call :=
  if ok then StatsTracker.Success else StatsTracker.Failure.

(** The three tiers of optimizeSystem, their lambdas, and the kinds of the
    applications each lambda chains, in the order written. *)
Inductive Tier := HighPrio | RealTime | LowPrio.

Definition tier_optimizer (h : Host) (tier : Tier) : Z -> M (Res bool) :=
  match tier with
  | HighPrio => high_prio h
  | RealTime => rt h
  | LowPrio => low_prio h
  end.


(** An ID comes from a directory entry whose name is made of digits. *)
Definition listed_as (entries : list DirEntry) (id : Z) : Prop :=
  exists entry,
    In entry entries /\ d_is_directory entry = true /\
    ProcessUtils.all_of_isdigit (d_name entry) = true /\
    ProcessUtils.stoi (d_name entry) = Ok id.

(** * Sample hosts *)

(** Plain substring search stands in for std::regex_search on patterns
    without metacharacters. *)
Fixpoint is_infix (pattern subject : string) : bool :=
  String.prefix pattern subject ||
  match subject with
  | EmptyString => false
  | String _ rest => is_infix pattern rest
  end.

(** A host whose answers do not change over time. *)
Definition static_host (probe : Z -> Probe) (alive : Z -> bool)
           (entries : Dir -> list DirEntry) (comm : string -> option string)
           (sys : Kind -> Z * option Z) : Host :=
  {| cpu_probe := fun _ i => probe i;
     proc_exists := fun _ pid => Ok (alive pid);
     list_dir := fun _ d => entries d;
     read_comm := fun _ name => comm name;
     syscall := fun _ k _ _ => sys k;
     strerror := fun e => if (e =? 1)%Z then "Operation not permitted" else "Unknown error";
     regex_valid := fun _ => true;
     regex_search := fun pattern subject => is_infix pattern subject;
     what := fun e => match e with
                      | invalid_argument | out_of_range => "stoi"
                      | regex_error => "regex_error"
                      | filesystem_error => "filesystem error"
                      | other_exception => "std::exception"
                      end |}%string.

Definition mkdir (name : string) : DirEntry := {| d_name := name; d_is_directory := true |}.
Definition mkfile (name : string) : DirEntry := {| d_name := name; d_is_directory := false |}.

(** A phone with six efficiency and two performance cores, three processes
    (zygote has two threads), a stale entry 77777, an entry whose name does
    not fit an int, and a kernel that refuses SCHED_FIFO. *)
Definition phone_host : Host :=
  static_host
    (fun i => if (0 <=? i) && (i <? 6) then Opened false 1804800
              else if (6 <=? i) && (i <? 8) then Opened false 2841600
              else NotOpen)
    (fun pid => (pid =? 1) || (pid =? 612) || (pid =? 640) || (pid =? 4242))
    (fun d => match d with
              | ProcRoot => [mkdir "1"; mkfile "cpuinfo"; mkdir "612"; mkdir "self";
                             mkdir "4242"; mkdir "77777"; mkdir "4294967296"; mkdir "1"]
              | TaskDir pid => if (pid =? 612)%Z
                               then [mkdir "612"; mkdir "640"; mkfile "x"]
                               else [mkdir (to_string pid)]
              end)
    (fun name => if String.eqb name "1" then Some "init"
                 else if String.eqb name "612" then Some "zygote64"
                 else if String.eqb name "4242" then Some "surfaceflinger"
                 else None)%string
    (fun k => match k with RT => (-1, Some 1) | _ => (0, None) end).

(** A machine without cpufreq: no cpuinfo_max_freq file opens. *)
Definition no_cpufreq_host : Host :=
  static_host (fun _ => NotOpen) (fun _ => false) (fun _ => []) (fun _ => None)
              (fun _ => (-1, Some 1)).

(** A machine with twenty cores, all of them with a readable attribute. *)
Definition twenty_core_host : Host :=
  static_host (fun i => if (0 <=? i) && (i <? 20) then Opened false 1804800 else NotOpen)
              (fun _ => false) (fun _ => []) (fun _ => None) (fun _ => (-1, Some 1)).

(** Core 0 reads 3,000,000; the second iteration runs out of memory. *)
Definition out_of_memory_host : Host :=
  static_host (fun i => if i =? 0 then Opened false 3000000 else Raise)
              (fun _ => false) (fun _ => []) (fun _ => None) (fun _ => (-1, Some 1)).

(** Core 0's attribute opens but holds no number: the extraction fails and
    leaves 0 in [maxFreq]. *)
Definition garbled_host : Host :=
  static_host (fun i => if i =? 0 then Opened true 0 else NotOpen)
              (fun _ => false) (fun _ => []) (fun _ => None) (fun _ => (-1, Some 1)).


(** A kernel whose setpriority returns -1 without touching errno. *)
Definition borderline_host : Host :=
  static_host (fun _ => NotOpen) (fun pid => pid =? 612) (fun _ => []) (fun _ => None)
              (fun _ => (-1, None)).

(** The phone again, where the status of a path under /proc can no longer
    be read once a scheduling attribute has been applied. *)
Definition flaky_host : Host :=
  {| cpu_probe := cpu_probe phone_host;
     proc_exists := fun t pid =>
       if existsb is_apply_event t then Thrown filesystem_error
       else proc_exists phone_host t pid;
     list_dir := list_dir phone_host;
     read_comm := read_comm phone_host;
     syscall := syscall phone_host;
     strerror := strerror phone_host;
     regex_valid := regex_valid phone_host;
     regex_search := regex_search phone_host;
     what := what phone_host |}.

(** The phone with a thread of zygote whose status cannot be read. *)
Definition unreadable_thread_host : Host :=
  {| cpu_probe := cpu_probe phone_host;
     proc_exists := fun t pid =>
       if pid =? 640 then Thrown filesystem_error
       else proc_exists phone_host t pid;
     list_dir := list_dir phone_host;
     read_comm := read_comm phone_host;
     syscall := syscall phone_host;
     strerror := strerror phone_host;
     regex_valid := regex_valid phone_host;
     regex_search := regex_search phone_host;
     what := what phone_host |}.

(** * Properties of whole traces *)

(** The argument a system call of each kind receives from its attempt:
    setIOPrioDirect shifts the class into place. *)
Definition syscall_arg (k : Kind) (arg : Z) : Z :=
  match k with
  | IOPrio => wrap32 (Z.shiftl arg SyscallOptimizer.IOPRIO_CLASS_SHIFT)
  | _ => arg
  end.

(** The arguments optimizeSystem's lambdas pass: niceness -10 or 5, FIFO
    priority 50, I/O class 3 shifted into place; the mask is computed. *)
Definition run_arg (k : Kind) (a : Z) : Prop :=
  match k with
  | Nice => a = -10 \/ a = 5
  | RT => a = 50
  | IOPrio => a = 24576
  | Affinity => True
  end.

(** A computation appends a piece of trace that satisfies [G]. *)
Definition yields (G : Trace -> Prop) {A} (m : M A) : Prop :=
  forall w, exists d, trace (snd (m w)) = trace w ++ d /\ G d.

(** Every system call comes right after a positive existence check of the
    same ID: [prev_ok] tells for which ID the previous event was one. *)
Fixpoint guarded_from (prev_ok : Z -> bool) (t : Trace) : bool :=
  match t with
  | [] => true
  | EvSyscall _ tid _ _ _ :: rest => prev_ok tid && guarded_from (fun _ => false) rest
  | EvExists pid true :: rest => guarded_from (Z.eqb pid) rest
  | _ :: rest => guarded_from (fun _ => false) rest
  end.
Definition syscalls_guarded (t : Trace) : Prop :=
  guarded_from (fun _ => false) t = true.

(** The IDs and arguments that reach the host stay within the program's
    bounds and constants. *)
Definition within_bounds (e : Event) : Prop :=
  match e with
  | EvExists pid _ => 0 < pid < 99999
  | EvExistsThrew pid _ => 0 < pid < 99999
  | EvSyscall k tid a _ _ => 0 < tid < 99999 /\ run_arg k a
  | EvSleep ms => ms = 50
  | EvProbe i _ => 0 <= i < 16
  | _ => True
  end.

(** The text each attempt puts before strerror(errno) when its call fails. *)
Definition failure_prefix (k : Kind) : string :=
  match k with
  | Affinity => "sched_setaffinity failed: "
  | Nice => "setpriority failed: "
  | RT => "sched_setscheduler failed: "
  | IOPrio => "ioprio_set failed: "
  end.

(** * The scanners on a host that does not change *)

(** What fs::exists does on an ID, when that does not change over time. *)
Definition throws_on (status : Z -> Res bool) (id : Z) : bool :=
  match status id with Thrown _ => true | Ok _ => false end.
Definition alive_on (status : Z -> Res bool) (id : Z) : bool :=
  match status id with Ok b => b | Thrown _ => false end.

(** An entry at which the scan is left: a directory named with digits only
    at which std::stoi throws (the name is empty or exceeds INT_MAX), or
    whose ID lies in (0, 99999) and makes fs::exists throw. *)
Definition scan_stops (status : Z -> Res bool) (entry : DirEntry) : bool :=
  d_is_directory entry && ProcessUtils.all_of_isdigit (d_name entry) &&
  match ProcessUtils.stoi (d_name entry) with
  | Thrown _ => true
  | Ok id => (0 <? id) && (id <? 99999) && throws_on status id
  end.

(** The entries before the first one at which the scan is left. *)
Fixpoint scanned (status : Z -> Res bool) (entries : list DirEntry) : list DirEntry :=
  match entries with
  | [] => []
  | entry :: rest =>
      if scan_stops status entry then [] else entry :: scanned status rest
  end.

(** The ID of a digit-named directory that lies in (0, 99999) and exists. *)
Definition live_id (status : Z -> Res bool) (entry : DirEntry) : option Z :=
  if d_is_directory entry && ProcessUtils.all_of_isdigit (d_name entry) then
    match ProcessUtils.stoi (d_name entry) with
    | Ok id => if (0 <? id) && (id <? 99999) && alive_on status id then Some id else None
    | Thrown _ => None
    end
  else None.

Definition matching_pid (status : Z -> Res bool) (comm : string -> option string)
           (matches : string -> bool) (entry : DirEntry) : list Z :=
  match live_id status entry with
  | Some pid =>
      match comm (d_name entry) with
      | Some line => if matches line then [pid] else []
      | None => []
      end
  | None => []
  end.

Definition live_tid (status : Z -> Res bool) (entry : DirEntry) : list Z :=
  match live_id status entry with
  | Some tid => [tid]
  | None => []
  end.

(** * Tallies *)

Definition is_success (c : StatsTracker.Call) : bool :=
  match c with StatsTracker.Success => true | StatsTracker.Failure => false end.
Definition is_failure (c : StatsTracker.Call) : bool := negb (is_success c).

(** How many calls of each kind a sequence holds. *)
Definition successes (calls : list StatsTracker.Call) : Z :=
  Z.of_nat (List.length (filter is_success calls)).
Definition failures (calls : list StatsTracker.Call) : Z :=
  Z.of_nat (List.length (filter is_failure calls)).

(** * The run as a whole *)

(** All configured task names, in the order optimizeSystem visits them. *)
Definition configured_patterns : list string :=
  config.HIGH_PRIO_TASKS ++ config.RT_TASKS ++ config.LOW_PRIO_TASKS.

(** The line StatsTracker::report logs. *)
Definition report_line (s : StatsTracker.t) : string :=
  ("Operations: " ++ to_string (StatsTracker.totalOps s) ++
   " | Success: " ++ to_string (StatsTracker.successCount s) ++
   " | Failed: " ++ to_string (StatsTracker.failureCount s))%string.

(** A pattern at which getProcessIDs throws: the Sanitizer lets it through
    and the std::regex constructor refuses it. *)
Definition throws (h : Host) (pattern : string) : bool :=
  Sanitizer.isValidPattern pattern && negb (regex_valid h pattern).

(** A host on which fs::exists never throws, and a computation that never
    throws. *)
Definition exists_answers (h : Host) : Prop :=
  forall t pid, exists b, proc_exists h t pid = Ok b.
Definition returns {A} (m : M (Res A)) : Prop :=
  forall w, exists a, fst (m w) = Ok a.

(** ** main *)

(** [create_directories] is the host's answer to
    fs::create_directories(LOG_DIR, ec): the message of [ec] when it is
    set.  The result is the exit code and what was written to std::cerr.
    Whatever leaves optimizeSystem (the regex constructor's exception, or
    one of fs::exists that no function on the way caught) derives from
    std::exception, so the first handler takes it and nothing is left for
    [catch (...)]. *)
Definition main (h : Host) (create_directories : Trace -> option string)
  : M (Z * list string) :=
  fun w =>
    match create_directories (trace w) with
    | Some message =>
        ((1, [("Failed to create log directory: " ++ message)%string]), w)
    | None =>
        let (r, w1) := optimizeSystem h w in
        match r with
        | Ok _ => ((0, []), w1)
        | Thrown e =>
            let (_, w2) := Logger.log ("Critical error: " ++ what h e)%string true w1 in
            ((1, []), w2)
        end
    end.

(** * class Logger, on files *)

(** The Logger itself, which the model above records as one [EvLog] per
    call: the log files are a map from paths to contents; the clock enters
    as the formatted time stamp; [Disk] says whether a rename and an open for
    appending go through (a write to an opened stream is taken to
    succeed).  The mutex has nothing to order in a sequential run, and
    nothing in the body of [log] throws, so its handler has nothing to
    report. *)
Module LogFile.

Definition LOG_DIR : string := "/data/adb/modules/task_optimizer/logs/".
Definition MAIN_LOG : string := "/data/adb/modules/task_optimizer/logs/main.log".
Definition ERROR_LOG : string := "/data/adb/modules/task_optimizer/logs/error.log".
Definition MAX_LOG_SIZE : Z := 1024 * 1024.

Definition Files := string -> option string.

Record Disk := {
  rename_ok : Files -> string -> bool;
  open_ok : Files -> string -> bool
}.

(** fs::file_size: the size in bytes; throws when there is no such file. *)
Definition file_size (files : Files) (path : string) : Res Z :=
  match files path with
  | Some content => Ok (Z.of_nat (String.length content))
  | None => Thrown other_exception
  end.

(** fs::rename: the new path takes the content, replacing what it held. *)
Definition rename (files : Files) (old_p new_p : string) : Files :=
  fun p => if String.eqb p new_p then files old_p
           else if String.eqb p old_p then None
           else files p.

(** Whatever is thrown inside is swallowed by [catch (...) {}]. *)
Definition rotateLog (disk : Disk) (files : Files) (logFile : string) : Files :=
  match file_size files logFile with
  | Ok size =>
      if MAX_LOG_SIZE <? size then
        if rename_ok disk files logFile
        then rename files logFile (logFile ++ ".old")%string
        else files
      else files
  | Thrown _ => files
  end.

(** std::ofstream with std::ios::app, then operator<<. *)
Definition append_to (files : Files) (path text : string) : Files :=
  fun p => if String.eqb p path
           then Some (match files path with
                      | Some content => content ++ text
                      | None => text
                      end)%string
           else files p.

Definition newline : string := String (ascii_of_nat 10) EmptyString.

Definition line (stamp message : string) : string :=
  ("[" ++ stamp ++ "] " ++ message ++ newline)%string.

Definition log (disk : Disk) (stamp : string) (files : Files)
           (message : string) (isError : bool) : Files :=
  let logFile := if isError then ERROR_LOG else MAIN_LOG in
  let files1 := rotateLog disk files logFile in
  if open_ok disk files1 logFile
  then append_to files1 logFile (line stamp message)
  else files1.

End LogFile.

(** A disk on which every rename and every open succeeds, and a log
    directory that holds a short main.log. *)
Definition good_disk : LogFile.Disk :=
  {| LogFile.rename_ok := fun _ _ => true; LogFile.open_ok := fun _ _ => true |}.

Definition short_main_log : LogFile.Files :=
  fun p => if String.eqb p LogFile.MAIN_LOG then Some "[2026-01-01 00:00:00] hello"%string
           else None.
(** * Properties *)

(** ** Sanitizer *)

Lemma contains_In (chars : string) (c : ascii) :
  Sanitizer.contains chars c = true <-> In c (list_ascii_of_string chars).
Proof.
  induction chars as [|d rest IH]; simpl.
  - split; [discriminate | contradiction].
  - destruct (Ascii.eqb_spec c d) as [->|Hne].
    + split; auto.
    + rewrite IH. split; [auto | intros [E|E]; [congruence | exact E]].
Qed.

Lemma find_first_of_from_clean (s chars : string) (pos : Z) :
  (forall c, In c (list_ascii_of_string s) -> Sanitizer.contains chars c = false) ->
  Sanitizer.find_first_of_from s chars pos = Sanitizer.npos.
Proof.
  revert pos. induction s as [|c rest IH]; intros pos Hclean; simpl.
  - reflexivity.
  - rewrite (Hclean c) by (simpl; auto).
    apply IH. intros d Hd. apply Hclean. simpl. auto.
Qed.

Lemma find_first_of_from_hit (s chars : string) (pos : Z) (c : ascii) :
  In c (list_ascii_of_string s) -> Sanitizer.contains chars c = true ->
  pos <= Sanitizer.find_first_of_from s chars pos < pos + Z.of_nat (String.length s).
Proof.
  revert pos. induction s as [|d rest IH]; intros pos Hin Hc; simpl in *.
  - contradiction.
  - destruct (Sanitizer.contains chars d) eqn:Hd.
    + lia.
    + destruct Hin as [->|Hin]; [congruence|].
      specialize (IH (pos + 1) Hin Hc). lia.
Qed.

(** C4. isValidPattern accepts a pattern exactly when it is shorter than
    100 characters and none of ; & | ` $ ( ) { } [ ] < > occurs in it. *)
Theorem isValidPattern_iff (pattern : string) :
  Sanitizer.isValidPattern pattern = true <->
  (String.length pattern < 100)%nat /\
  (forall c, In c forbidden_chars -> ~ In c (list_ascii_of_string pattern)).
Proof.
  unfold Sanitizer.isValidPattern, Sanitizer.find_first_of.
  change forbidden_chars with (list_ascii_of_string Sanitizer.forbidden).
  rewrite andb_true_iff, Z.ltb_lt, Z.eqb_eq. split.
  - intros [Hlen Hpos]. split; [lia|].
    intros c Hc Hin. apply contains_In in Hc.
    pose proof (find_first_of_from_hit pattern Sanitizer.forbidden 0 c Hin Hc) as Hb.
    rewrite Hpos in Hb. unfold Sanitizer.npos in Hb. lia.
  - intros [Hlen Hnone]. split; [lia|].
    apply find_first_of_from_clean. intros c Hin.
    destruct (Sanitizer.contains Sanitizer.forbidden c) eqn:Hc; [|reflexivity].
    apply contains_In in Hc. exfalso. exact (Hnone c Hc Hin).
Qed.


(** ** Traces *)

Lemma new_events_app (w w' : World) (d : Trace) :
  trace w' = trace w ++ d -> new_events w w' = d.
Proof.
  intros E. unfold new_events. rewrite E.
  rewrite skipn_app, skipn_all, Nat.sub_diag. reflexivity.
Qed.

Section Silent.
Variable P : Event -> bool.

Lemma silent_ret {A} (a : A) : silent P (ret a).
Proof. intros w. exists []. simpl. rewrite app_nil_r. auto. Qed.

Lemma silent_bind {A B} (m : M A) (k : A -> M B) :
  silent P m -> (forall a, silent P (k a)) -> silent P (bind m k).
Proof.
  intros Hm Hk w. unfold bind.
  destruct (Hm w) as [d1 [E1 F1]].
  destruct (m w) as [a w1]. simpl in E1.
  destruct (Hk a w1) as [d2 [E2 F2]].
  exists (d1 ++ d2). rewrite E2, E1, app_assoc, filter_app, F1, F2. auto.
Qed.


Lemma silent_emit (e : Event) : P e = false -> silent P (emit e).
Proof. intros He w. exists [e]. simpl. rewrite He. auto. Qed.

Lemma silent_if {A} (b : bool) (m1 m2 : M A) :
  silent P m1 -> silent P m2 -> silent P (if b then m1 else m2).
Proof. destruct b; auto. Qed.
End Silent.

Lemma silent_exists_proc P h pid :
  (forall b, P (EvExists pid b) = false) ->
  (forall e, P (EvExistsThrew pid e) = false) ->
  silent P (Sanitizer.exists_proc h pid).
Proof.
  intros HP HT w. unfold Sanitizer.exists_proc.
  destruct (proc_exists h (trace w) pid) as [b|e].
  - exists [EvExists pid b]. simpl. rewrite HP. auto.
  - exists [EvExistsThrew pid e]. simpl. rewrite HT. auto.
Qed.

Lemma silent_isValidPID P h pid :
  (forall b, P (EvExists pid b) = false) ->
  (forall e, P (EvExistsThrew pid e) = false) ->
  silent P (Sanitizer.isValidPID h pid).
Proof.
  intros HP HT. unfold Sanitizer.isValidPID.
  apply silent_if; [apply silent_exists_proc; assumption | apply silent_ret].
Qed.






(** What isValidPID does, case by case: out of range it answers false
    without asking; in range it asks the host once, and returns the answer
    or lets the exception through. *)
Lemma isValidPID_cases h pid w :
  (~ 0 < pid < 99999 /\ Sanitizer.isValidPID h pid w = (Ok false, w)) \/
  (0 < pid < 99999 /\
   ((exists b, proc_exists h (trace w) pid = Ok b /\
               Sanitizer.isValidPID h pid w =
                 (Ok b, set_trace (trace w ++ [EvExists pid b]) w)) \/
    (exists e, proc_exists h (trace w) pid = Thrown e /\
               Sanitizer.isValidPID h pid w =
                 (Thrown e, set_trace (trace w ++ [EvExistsThrew pid e]) w)))).
Proof.
  unfold Sanitizer.isValidPID, Sanitizer.exists_proc.
  destruct (Z.ltb_spec 0 pid), (Z.ltb_spec pid 99999); cbn [andb];
    try (left; split; [lia | reflexivity]).
  right. split; [lia|].
  destruct (proc_exists h (trace w) pid) as [b|e]; [left | right];
    eexists; split; reflexivity.
Qed.

(** ** SyscallOptimizer: attempts and retries *)

(** What one private attempt does, case by case.  On an ID out of range
    it appends its record only.  Otherwise the existence check comes first:
    a negative answer is followed by the record of a failure, a positive
    one by the system call and the record, and an exception leaves the
    attempt at once, without a record. *)
Lemma direct_events h k tid arg w :
  let r := SyscallOptimizer.direct h k tid arg w in
  (~ 0 < tid < 99999 /\
   (exists result, fst r = Ok result /\ SyscallOptimizer.success result = false) /\
   snd r = set_trace (trace w ++ [EvDirect k tid false]) w)
  \/
  (0 < tid < 99999 /\
   ((proc_exists h (trace w) tid = Ok false /\
     (exists result, fst r = Ok result /\ SyscallOptimizer.success result = false) /\
     trace (snd r) = trace w ++ [EvExists tid false; EvDirect k tid false])
    \/
    (proc_exists h (trace w) tid = Ok true /\
     exists ret e result,
       fst r = Ok result /\
       trace (snd r) =
         trace w ++ [EvExists tid true; EvSyscall k tid (syscall_arg k arg) ret e;
                     EvDirect k tid (SyscallOptimizer.success result)])
    \/
    (exists e,
       proc_exists h (trace w) tid = Thrown e /\
       fst r = Thrown e /\
       trace (snd r) = trace w ++ [EvExistsThrew tid e]))).
Proof.
  cbv zeta.
  destruct (isValidPID_cases h tid w) as [[Hr E]|[Hr [[b [Hb E]]|[e [He E]]]]];
    [left; split; [exact Hr|] | right; split; [exact Hr|] | right; split; [exact Hr|]].
  - destruct k; cbn [SyscallOptimizer.direct];
      unfold SyscallOptimizer.setAffinityDirect, SyscallOptimizer.setNiceDirect,
        SyscallOptimizer.setRTDirect, SyscallOptimizer.setIOPrioDirect,
        SyscallOptimizer.recorded, bind_ok, bind;
      rewrite E; cbn; eauto.
  - destruct b; [right; left; split; [exact Hb|] | left; split; [exact Hb|]].
    + destruct k; cbn [SyscallOptimizer.direct syscall_arg];
        unfold SyscallOptimizer.setAffinityDirect, SyscallOptimizer.setNiceDirect,
          SyscallOptimizer.setRTDirect, SyscallOptimizer.setIOPrioDirect,
          SyscallOptimizer.recorded, SyscallOptimizer.failed, SyscallOptimizer.get_errno,
          SyscallOptimizer.put_errno, SyscallOptimizer.host_syscall, bind_ok, bind, ret;
        rewrite E; cbn [negb emit fst snd set_trace trace set_errno];
        match goal with
        | |- context [syscall ?hh ?t ?kk ?a ?b] => destruct (syscall hh t kk a b) as [r e]
        end;
        destruct e as [v|]; cbn [emit fst snd set_trace trace set_errno errno];
        match goal with
        | |- context [if ?c then _ else _] => destruct c
        end;
        cbn [emit fst snd set_trace trace set_errno SyscallOptimizer.success];
        do 3 eexists; (split; [reflexivity|]); rewrite <- !app_assoc; reflexivity.
    + destruct k; cbn [SyscallOptimizer.direct];
        unfold SyscallOptimizer.setAffinityDirect, SyscallOptimizer.setNiceDirect,
          SyscallOptimizer.setRTDirect, SyscallOptimizer.setIOPrioDirect,
          SyscallOptimizer.recorded, bind_ok, bind;
        rewrite E; cbn [negb ret emit fst snd set_trace trace SyscallOptimizer.success];
        (split; [eauto | rewrite <- app_assoc; reflexivity]).
  - right. right. exists e. split; [exact He|].
    destruct k; cbn [SyscallOptimizer.direct];
      unfold SyscallOptimizer.setAffinityDirect, SyscallOptimizer.setNiceDirect,
        SyscallOptimizer.setRTDirect, SyscallOptimizer.setIOPrioDirect,
        SyscallOptimizer.recorded, bind_ok, bind;
      rewrite E; cbn; auto.
Qed.





Lemma apply_unfold h k tid arg :
  SyscallOptimizer.apply h k tid arg =
  SyscallOptimizer.applied k tid
    (SyscallOptimizer.retry_loop (SyscallOptimizer.direct h k tid arg)
       (Z.to_nat config.MAX_RETRIES) 0).
Proof. destruct k; reflexivity. Qed.



(** ** SyscallOptimizer: the niceness attempt *)

(** C7. For a thread ID that passes isValidPID, setNiceDirect reports
    success exactly when setpriority returns 0 or leaves errno (cleared just
    before the call) at 0, and failure exactly when the call returns non-zero
    with errno set. *)
Theorem setNiceDirect_liberal (h : Host) (tid value : Z) (w : World) :
  fst (Sanitizer.isValidPID h tid w) = Ok true ->
  let w1 := snd (Sanitizer.isValidPID h tid w) in
  let call := syscall h (trace w1) Nice tid value in
  let errno_after := match snd call with Some e => e | None => 0 end in
  exists result,
    fst (SyscallOptimizer.setNiceDirect h tid value w) = Ok result /\
    (SyscallOptimizer.success result = true <-> fst call = 0 \/ errno_after = 0) /\
    (SyscallOptimizer.success result = false <-> fst call <> 0 /\ errno_after <> 0).
Proof.
  intros Hvalid. cbv zeta.
  unfold SyscallOptimizer.setNiceDirect, SyscallOptimizer.recorded, bind_ok, bind.
  destruct (Sanitizer.isValidPID h tid w) as [v w1]. cbn [fst snd] in *. subst v.
  cbn [negb]. unfold SyscallOptimizer.put_errno, SyscallOptimizer.host_syscall,
    SyscallOptimizer.get_errno, SyscallOptimizer.failed, bind, ret.
  cbn [set_errno trace].
  destruct (syscall h (trace w1) Nice tid value) as [r e]. cbn [fst snd].
  destruct e as [e|]; cbn [emit set_errno set_trace errno fst snd].
  - destruct (Z.eqb_spec r 0), (Z.eqb_spec e 0); cbn; eexists; (split; [reflexivity|]);
      cbn; split; split; try tauto; try discriminate; intuition congruence.
  - destruct (Z.eqb_spec r 0); cbn; eexists; (split; [reflexivity|]);
      cbn; split; split; try tauto; try discriminate; intuition congruence.
Qed.

(** A live thread whose setpriority returns -1 with errno untouched is
    reported as a success. *)
Lemma setNiceDirect_liberal_witness :
  exists result,
    fst (SyscallOptimizer.setNiceDirect borderline_host 612 (-10) initial_world) = Ok result /\
    (SyscallOptimizer.success result = true <-> -1 = 0 \/ 0 = 0) /\
    (SyscallOptimizer.success result = false <-> -1 <> 0 /\ 0 <> 0).
Proof.
  exact (setNiceDirect_liberal borderline_host 612 (-10) initial_world eq_refl).
Defined.

(** ** StatsTracker *)

Lemma wrap32_small (z : Z) : INT_MIN <= z <= INT_MAX -> wrap32 z = z.
Proof.
  unfold INT_MIN, INT_MAX, wrap32. intros H.
  rewrite Z.mod_small by lia. lia.
Qed.

Lemma wrap32_range (z : Z) : INT_MIN <= wrap32 z <= INT_MAX.
Proof.
  unfold INT_MIN, INT_MAX, wrap32.
  pose proof (Z.mod_pos_bound (z + 2147483648) 4294967296 ltac:(lia)). lia.
Qed.

Lemma wrap32_succ (z : Z) : wrap32 (wrap32 z + 1) = wrap32 (z + 1).
Proof.
  unfold wrap32.
  replace ((z + 2147483648) mod 4294967296 - 2147483648 + 1 + 2147483648)
    with ((z + 2147483648) mod 4294967296 + 1) by lia.
  replace (z + 1 + 2147483648) with ((z + 2147483648) + 1) by lia.
  rewrite Z.add_mod_idemp_l by lia. reflexivity.
Qed.

Lemma wrap32_add (a b : Z) : wrap32 (wrap32 a + wrap32 b) = wrap32 (a + b).
Proof.
  unfold wrap32.
  replace ((a + 2147483648) mod 4294967296 - 2147483648 +
           ((b + 2147483648) mod 4294967296 - 2147483648) + 2147483648)
    with ((a + 2147483648) mod 4294967296 +
          ((b + 2147483648) mod 4294967296 - 2147483648)) by lia.
  rewrite Z.add_mod_idemp_l by lia.
  replace (a + 2147483648 + ((b + 2147483648) mod 4294967296 - 2147483648))
    with ((b + 2147483648) mod 4294967296 + a) by lia.
  rewrite Z.add_mod_idemp_l by lia.
  f_equal. f_equal. lia.
Qed.

Lemma run_snoc (calls : list StatsTracker.Call) (c : StatsTracker.Call) (s : StatsTracker.t) :
  StatsTracker.run (calls ++ [c]) s = StatsTracker.record c (StatsTracker.run calls s).
Proof. unfold StatsTracker.run. rewrite fold_left_app. reflexivity. Qed.

(** Below the wrap-around the counters are plain tallies. *)
Lemma run_tally (calls : list StatsTracker.Call) :
  Z.of_nat (List.length calls) <= INT_MAX ->
  let s := StatsTracker.run calls StatsTracker.init in
  0 <= StatsTracker.successCount s /\ 0 <= StatsTracker.failureCount s /\
  StatsTracker.successCount s + StatsTracker.failureCount s = Z.of_nat (List.length calls) /\
  StatsTracker.totalOps s = Z.of_nat (List.length calls).
Proof.
  cbv zeta. induction calls as [|c calls IH] using rev_ind; intros Hlen.
  - cbn. lia.
  - rewrite length_app in Hlen. cbn [List.length] in Hlen.
    rewrite run_snoc, length_app. cbn [List.length].
    destruct IH as (Hs & Hf & Hsum & Htot); [lia|].
    unfold INT_MAX in *.
    destruct c; cbn [StatsTracker.record StatsTracker.recordSuccess
                     StatsTracker.recordFailure StatsTracker.successCount
                     StatsTracker.failureCount StatsTracker.totalOps];
      rewrite !wrap32_small by (unfold INT_MIN, INT_MAX; lia); lia.
Qed.

(** In general the sum invariant holds modulo 2^32. *)
Lemma run_modular (calls : list StatsTracker.Call) :
  let s := StatsTracker.run calls StatsTracker.init in
  StatsTracker.totalOps s =
    wrap32 (StatsTracker.successCount s + StatsTracker.failureCount s) /\
  StatsTracker.successCount s = wrap32 (StatsTracker.successCount s) /\
  StatsTracker.failureCount s = wrap32 (StatsTracker.failureCount s).
Proof.
  cbv zeta. induction calls as [|c calls IH] using rev_ind.
  - cbn. auto.
  - rewrite run_snoc. destruct IH as (Ht & Hs & Hf).
    set (s := StatsTracker.run calls StatsTracker.init) in *.
    destruct c; cbn [StatsTracker.record StatsTracker.recordSuccess
                     StatsTracker.recordFailure StatsTracker.successCount
                     StatsTracker.failureCount StatsTracker.totalOps].
    + rewrite Ht, wrap32_succ. repeat split.
      * rewrite Hf at 2. rewrite wrap32_add. f_equal. lia.
      * symmetry. apply wrap32_small, wrap32_range.
      * exact Hf.
    + rewrite Ht, wrap32_succ. repeat split.
      * rewrite Hs at 2. rewrite wrap32_add. f_equal. lia.
      * exact Hs.
      * symmetry. apply wrap32_small, wrap32_range.
Qed.

(** C8, as amended.  After fewer than 2^31 calls the total is the sum of
    the successes and the failures, and one more call decreases no counter;
    for every sequence the sum holds modulo 2^32. *)
Theorem stats_invariant (calls : list StatsTracker.Call) (c : StatsTracker.Call) :
  let s := StatsTracker.run calls StatsTracker.init in
  let s' := StatsTracker.run (calls ++ [c]) StatsTracker.init in
  StatsTracker.totalOps s =
    wrap32 (StatsTracker.successCount s + StatsTracker.failureCount s) /\
  (Z.of_nat (List.length calls) < 2147483647 ->
   StatsTracker.totalOps s = StatsTracker.successCount s + StatsTracker.failureCount s /\
   StatsTracker.totalOps s' = StatsTracker.successCount s' + StatsTracker.failureCount s' /\
   StatsTracker.successCount s <= StatsTracker.successCount s' /\
   StatsTracker.failureCount s <= StatsTracker.failureCount s' /\
   StatsTracker.totalOps s < StatsTracker.totalOps s').
Proof.
  cbv zeta. split; [apply run_modular|]. intros Hlen.
  pose proof (run_tally calls) as H1.
  pose proof (run_tally (calls ++ [c])) as H2.
  rewrite length_app in H2. cbn [List.length] in H2. cbv zeta in H1, H2.
  unfold INT_MAX in *.
  destruct H1 as (Hs & Hf & Hsum & Htot); [lia|].
  destruct H2 as (Hs' & Hf' & Hsum' & Htot'); [lia|].
  rewrite run_snoc in *.
  set (s := StatsTracker.run calls StatsTracker.init) in *.
  repeat split; try lia.
  - destruct c; cbn [StatsTracker.record StatsTracker.recordSuccess
                     StatsTracker.recordFailure StatsTracker.successCount];
      [rewrite wrap32_small by (unfold INT_MIN, INT_MAX; lia)|]; lia.
  - destruct c; cbn [StatsTracker.record StatsTracker.recordSuccess
                     StatsTracker.recordFailure StatsTracker.failureCount];
      [|rewrite wrap32_small by (unfold INT_MIN, INT_MAX; lia)]; lia.
Qed.

(** Two calls, then a third. *)
Lemma stats_invariant_witness :
  let s := StatsTracker.run [StatsTracker.Success; StatsTracker.Failure] StatsTracker.init in
  let s' := StatsTracker.run ([StatsTracker.Success; StatsTracker.Failure] ++ [StatsTracker.Success])
              StatsTracker.init in
  StatsTracker.totalOps s = StatsTracker.successCount s + StatsTracker.failureCount s /\
  StatsTracker.totalOps s' = StatsTracker.successCount s' + StatsTracker.failureCount s' /\
  StatsTracker.successCount s <= StatsTracker.successCount s' /\
  StatsTracker.failureCount s <= StatsTracker.failureCount s' /\
  StatsTracker.totalOps s < StatsTracker.totalOps s'.
Proof.
  apply (proj2 (stats_invariant [StatsTracker.Success; StatsTracker.Failure] StatsTracker.Success)).
  simpl. lia.
Defined.

Lemma run_successes (n : nat) (s : StatsTracker.t) :
  INT_MIN <= StatsTracker.successCount s ->
  INT_MIN <= StatsTracker.totalOps s ->
  StatsTracker.successCount s + Z.of_nat n <= INT_MAX ->
  StatsTracker.totalOps s + Z.of_nat n <= INT_MAX ->
  StatsTracker.run (repeat StatsTracker.Success n) s =
    {| StatsTracker.successCount := StatsTracker.successCount s + Z.of_nat n;
       StatsTracker.failureCount := StatsTracker.failureCount s;
       StatsTracker.totalOps := StatsTracker.totalOps s + Z.of_nat n |}.
Proof.
  revert s. induction n as [|n IH]; intros s H1 H2 H3 H4.
  - cbn [repeat StatsTracker.run fold_left Z.of_nat]. rewrite !Z.add_0_r.
    destruct s; reflexivity.
  - cbn [repeat]. unfold StatsTracker.run in *. cbn [fold_left].
    rewrite IH;
      cbn [StatsTracker.record StatsTracker.recordSuccess StatsTracker.successCount
           StatsTracker.failureCount StatsTracker.totalOps];
      rewrite ?wrap32_small by lia; try lia.
    f_equal; lia.
Qed.

(** C8 as stated fails once a counter reaches INT_MAX: after 2^31 - 1
    successes, one failure wraps the total to INT_MIN, which is neither the
    sum of the other two counters nor at least the previous total. *)
Lemma stats_wrap_counterexample :
  let before := StatsTracker.run (repeat StatsTracker.Success (Z.to_nat 2147483647))
                  StatsTracker.init in
  let after := StatsTracker.run (repeat StatsTracker.Success (Z.to_nat 2147483647)
                                   ++ [StatsTracker.Failure]) StatsTracker.init in
  StatsTracker.totalOps before = 2147483647 /\
  StatsTracker.successCount after = 2147483647 /\
  StatsTracker.failureCount after = 1 /\
  StatsTracker.totalOps after = -2147483648 /\
  StatsTracker.totalOps after <> StatsTracker.successCount after + StatsTracker.failureCount after /\
  StatsTracker.totalOps after < StatsTracker.totalOps before.
Proof.
  cbv zeta. rewrite run_snoc.
  rewrite run_successes;
    cbn [StatsTracker.init StatsTracker.successCount StatsTracker.totalOps];
    rewrite ?Z2Nat.id by lia; unfold INT_MIN, INT_MAX; try lia.
  cbn [StatsTracker.record StatsTracker.recordFailure StatsTracker.successCount
       StatsTracker.failureCount StatsTracker.totalOps StatsTracker.init].
  change (wrap32 (0 + 1)) with 1.
  change (wrap32 (0 + 2147483647 + 1)) with (-2147483648).
  lia.
Qed.

(** ** CPUTopology: the probing loop *)

Lemma open_freq_trace h i w :
  fst (CPUTopology.open_freq h i w) = cpu_probe h (trace w) i /\
  trace (snd (CPUTopology.open_freq h i w)) =
    trace w ++ [EvProbe i (cpu_probe h (trace w) i)].
Proof. split; reflexivity. Qed.

(** The loop opens consecutive indices and leaves in one of three ways: at
    the first attribute that does not open, at the bound, or by an
    exception. *)
Lemma probe_loop_shape h (fuel : nat) :
  forall (i : Z) (info : CoreInfo) (w : World),
    let r := CPUTopology.probe_loop h fuel i info w in
    exists vals,
      let n := i + Z.of_nat (List.length vals) in
      (List.length vals <= fuel)%nat /\
      ((trace (snd r) = trace w ++ opened_events i vals ++ [EvProbe n NotOpen] /\
        n < 16 /\ fst r = Ok (classify_all i vals info))
       \/
       (trace (snd r) = trace w ++ opened_events i vals /\
        (List.length vals = fuel \/ 16 <= n) /\
        fst r = Ok (classify_all i vals info))
       \/
       (trace (snd r) = trace w ++ opened_events i vals ++ [EvProbe n Raise] /\
        n < 16 /\ fst r = Thrown other_exception)).
Proof.
  induction fuel as [|fuel IH]; intros i info w; cbv zeta.
  - exists []. cbn. rewrite app_nil_r. split; [lia|]. right. left. auto.
  - cbn [CPUTopology.probe_loop].
    destruct (Z.ltb_spec i 16) as [Hi|Hi].
    + unfold bind.
      destruct (open_freq_trace h i w) as [Ep Et].
      destruct (CPUTopology.open_freq h i w) as [p w1]. cbn [fst snd] in Ep, Et.
      destruct p as [|f v|].
      * exists []. cbn [List.length opened_events classify_all app ret fst snd].
        rewrite Z.add_0_r. split; [lia|]. left. rewrite Et, <- Ep. auto.
      * specialize (IH (i + 1) (CPUTopology.classify i v info) w1). cbv zeta in IH.
        destruct IH as [vals [Hlen Hcases]].
        exists ((f, v) :: vals).
        cbn [List.length opened_events classify_all]. split; [lia|].
        replace (i + Z.of_nat (S (List.length vals)))
          with (i + 1 + Z.of_nat (List.length vals)) by lia.
        rewrite Et, <- Ep, <- !app_assoc in Hcases. cbn [app] in Hcases.
        destruct Hcases as [(E & Hn & Hr)|[(E & Hn & Hr)|(E & Hn & Hr)]].
        -- left. auto.
        -- right. left. split; [exact E|]. split; [|exact Hr].
           destruct Hn; [left; lia | right; lia].
        -- right. right. auto.
      * exists []. cbn [List.length opened_events classify_all app ret fst snd].
        rewrite Z.add_0_r. split; [lia|]. right. right. rewrite Et, <- Ep. auto.
    + exists []. cbn [List.length opened_events classify_all app ret fst snd].
      rewrite app_nil_r, Z.add_0_r. split; [lia|]. right. left.
      split; [reflexivity|]. split; [right; lia | reflexivity].
Qed.

(** The three ways detectCores ends, with everything it appended to the
    trace. *)
Lemma detectCores_shape h w :
  let r := CPUTopology.detectCores h w in
  exists vals,
    let n := Z.of_nat (List.length vals) in
    (new_events w (snd r) = opened_events 0 vals ++ [EvProbe n NotOpen] /\
     n < 16 /\ fst r = classify_all 0 vals CPUTopology.empty_info)
    \/
    (new_events w (snd r) = opened_events 0 vals /\
     n = 16 /\ fst r = classify_all 0 vals CPUTopology.empty_info)
    \/
    (new_events w (snd r) =
       opened_events 0 vals ++ [EvProbe n Raise; EvLog CPUTopology.fallback_message true] /\
     n < 16 /\ fst r = CPUTopology.default_info).
Proof.
  cbv zeta. unfold CPUTopology.detectCores, bind.
  destruct (probe_loop_shape h 16 0 CPUTopology.empty_info w) as [vals [Hlen Hcases]].
  cbv zeta in Hcases. rewrite Z.add_0_l in Hcases.
  destruct (CPUTopology.probe_loop h 16 0 CPUTopology.empty_info w) as [res w1].
  cbn [fst snd] in Hcases. exists vals.
  destruct Hcases as [(E & Hn & Hr)|[(E & Hn & Hr)|(E & Hn & Hr)]]; subst res.
  - left. cbn [ret fst snd]. rewrite (new_events_app _ _ _ E). auto.
  - right. left. cbn [ret fst snd]. rewrite (new_events_app _ _ _ E).
    split; [reflexivity|]. split; [lia | reflexivity].
  - right. right. unfold Logger.log, emit, ret. cbn [fst snd].
    rewrite (new_events_app w _ (opened_events 0 vals ++
               [EvProbe (Z.of_nat (List.length vals)) Raise;
                EvLog CPUTopology.fallback_message true])).
    + auto.
    + cbn [set_trace trace]. rewrite E, <- !app_assoc. reflexivity.
Qed.

(** ** CPUTopology: the classification *)

Lemma zrange_In (i : Z) (len : nat) (j : Z) :
  In j (zrange i len) <-> i <= j < i + Z.of_nat len.
Proof.
  revert i. induction len as [|len IH]; intros i; cbn [zrange In].
  - lia.
  - rewrite IH. lia.
Qed.

Lemma zrange_NoDup (i : Z) (len : nat) : NoDup (zrange i len).
Proof.
  revert i. induction len as [|len IH]; intros i; cbn [zrange]; constructor.
  - rewrite zrange_In. lia.
  - apply IH.
Qed.

Lemma zrange_length (i : Z) (len : nat) : List.length (zrange i len) = len.
Proof. revert i. induction len as [|len IH]; intros i; cbn; auto. Qed.

Lemma zrange_seq (len : nat) : zrange 0 len = map Z.of_nat (seq 0 len).
Proof.
  assert (G : forall s, zrange (Z.of_nat s) len = map Z.of_nat (seq s len)).
  { induction len as [|len IH]; intros s; cbn [zrange seq map]; [reflexivity|].
    replace (Z.of_nat s + 1) with (Z.of_nat (S s)) by lia. rewrite IH. reflexivity. }
  exact (G 0%nat).
Qed.

Lemma classify_total i v info :
  totalCores (CPUTopology.classify i v info) = totalCores info + 1.
Proof. unfold CPUTopology.classify. destruct (2000000 <? v); reflexivity. Qed.

Lemma classify_perm i v info :
  Permutation (perfCores (CPUTopology.classify i v info) ++
               effCores (CPUTopology.classify i v info))
              (i :: perfCores info ++ effCores info).
Proof.
  unfold CPUTopology.classify. destruct (2000000 <? v); cbn [perfCores effCores].
  - rewrite <- app_assoc. cbn [app]. symmetry. apply Permutation_middle.
  - rewrite app_assoc. symmetry. apply Permutation_cons_append.
Qed.

Lemma classify_all_total i vals info :
  totalCores (classify_all i vals info) = totalCores info + Z.of_nat (List.length vals).
Proof.
  revert i info. induction vals as [|[f v] vals IH]; intros i info; cbn [classify_all List.length].
  - lia.
  - rewrite IH, classify_total. lia.
Qed.

Lemma classify_all_perm i vals info :
  Permutation (perfCores (classify_all i vals info) ++ effCores (classify_all i vals info))
              (zrange i (List.length vals) ++ perfCores info ++ effCores info).
Proof.
  revert i info. induction vals as [|[f v] vals IH]; intros i info;
    cbn [classify_all List.length zrange app].
  - reflexivity.
  - rewrite IH. rewrite classify_perm. symmetry. apply Permutation_middle.
Qed.

Lemma opened_events_bounds i vals j p :
  In (EvProbe j p) (opened_events i vals) -> i <= j < i + Z.of_nat (List.length vals).
Proof.
  revert i. induction vals as [|[f v] vals IH]; intros i; cbn [opened_events In List.length].
  - contradiction.
  - intros [E|Hin].
    + inversion E; subst. lia.
    + apply IH in Hin. lia.
Qed.

Lemma opened_events_functional i vals j p q :
  In (EvProbe j p) (opened_events i vals) ->
  In (EvProbe j q) (opened_events i vals) -> p = q.
Proof.
  revert i. induction vals as [|[f v] vals IH]; intros i; cbn [opened_events In].
  - contradiction.
  - intros [E1|H1] [E2|H2].
    + congruence.
    + inversion E1; subst. apply opened_events_bounds in H2. lia.
    + inversion E2; subst. apply opened_events_bounds in H1. lia.
    + exact (IH _ H1 H2).
Qed.

Lemma opened_events_only_opened i vals e :
  In e (opened_events i vals) -> exists j f v, e = EvProbe j (Opened f v).
Proof.
  revert i. induction vals as [|[f v] vals IH]; intros i; cbn [opened_events In].
  - contradiction.
  - intros [E|Hin]; [subst; eauto | eauto].
Qed.

Lemma classify_all_perf i vals info j :
  In j (perfCores (classify_all i vals info)) <->
  In j (perfCores info) \/
  exists f v, In (EvProbe j (Opened f v)) (opened_events i vals) /\ 2000000 < v.
Proof.
  revert i info. induction vals as [|[f v] vals IH]; intros i info;
    cbn [classify_all opened_events In].
  - split; [auto | intros [H|(f & v & [] & _)]; exact H].
  - rewrite IH. unfold CPUTopology.classify.
    destruct (Z.ltb_spec 2000000 v) as [Hv|Hv]; cbn [perfCores].
    + rewrite in_app_iff. cbn [In]. split.
      * intros [[H|[H|[]]]|(f' & v' & H & Hv')]; [auto| |eauto 6].
        subst. right. exists f, v. auto.
      * intros [H|(f' & v' & [E|H] & Hv')]; [auto| |eauto 6].
        inversion E; subst. auto.
    + split.
      * intros [H|(f' & v' & H & Hv')]; [auto|eauto 6].
      * intros [H|(f' & v' & [E|H] & Hv')]; [auto| |eauto 6].
        inversion E; subst. lia.
Qed.

Lemma classify_all_eff i vals info j :
  In j (effCores (classify_all i vals info)) <->
  In j (effCores info) \/
  exists f v, In (EvProbe j (Opened f v)) (opened_events i vals) /\ v <= 2000000.
Proof.
  revert i info. induction vals as [|[f v] vals IH]; intros i info;
    cbn [classify_all opened_events In].
  - split; [auto | intros [H|(f & v & [] & _)]; exact H].
  - rewrite IH. unfold CPUTopology.classify.
    destruct (Z.ltb_spec 2000000 v) as [Hv|Hv]; cbn [effCores].
    + split.
      * intros [H|(f' & v' & H & Hv')]; [auto|eauto 6].
      * intros [H|(f' & v' & [E|H] & Hv')]; [auto| |eauto 6].
        inversion E; subst. lia.
    + rewrite in_app_iff. cbn [In]. split.
      * intros [[H|[H|[]]]|(f' & v' & H & Hv')]; [auto| |eauto 6].
        subst. right. exists f, v. auto.
      * intros [H|(f' & v' & [E|H] & Hv')]; [auto| |eauto 6].
        inversion E; subst. auto.
Qed.

(** ** CPUTopology: masks *)

Lemma testbit_CPU_SET (c m b : Z) :
  0 <= c < CPUTopology.CPU_SETSIZE ->
  Z.testbit (CPUTopology.CPU_SET c m) b = (c =? b) || Z.testbit m b.
Proof.
  intros Hc. unfold CPUTopology.CPU_SET, CPUTopology.CPU_SETSIZE in *.
  replace ((0 <=? c) && (c <? 1024)) with true by (symmetry; apply andb_true_iff; lia).
  change (Z.lor m (Z.shiftl 1 c)) with (Z.setbit m c).
  apply Z.setbit_eqb. lia.
Qed.

Lemma testbit_fold_CPU_SET (cores : list Z) :
  (forall c, In c cores -> 0 <= c < CPUTopology.CPU_SETSIZE) ->
  forall m b,
    Z.testbit (fold_left (fun mask core => CPUTopology.CPU_SET core mask) cores m) b = true <->
    Z.testbit m b = true \/ In b cores.
Proof.
  induction cores as [|c cores IH]; intros Hr m b; cbn [fold_left In].
  - tauto.
  - rewrite IH by (intros; apply Hr; cbn; auto).
    rewrite testbit_CPU_SET by (apply Hr; cbn; auto).
    rewrite orb_true_iff, Z.eqb_eq. tauto.
Qed.

Lemma testbit_mask_of (cores : list Z) (b : Z) :
  (forall c, In c cores -> 0 <= c < CPUTopology.CPU_SETSIZE) ->
  Z.testbit (CPUTopology.mask_of cores) b = true <-> In b cores.
Proof.
  intros Hr. unfold CPUTopology.mask_of, CPUTopology.CPU_ZERO.
  rewrite testbit_fold_CPU_SET by exact Hr. rewrite Z.bits_0.
  split; [intros [H|H]; [discriminate | exact H] | auto].
Qed.

(** On a partitioned topology that fits a cpu_set_t, the all-cores mask is
    the union of the two masks, which share no bit, and its bits are the
    indices below [totalCores]. *)
Lemma partitioned_masks (info : CoreInfo) :
  partitioned info -> totalCores info <= CPUTopology.CPU_SETSIZE ->
  CPUTopology.allMask info = Z.lor (CPUTopology.perfMask info) (CPUTopology.effMask info) /\
  Z.land (CPUTopology.perfMask info) (CPUTopology.effMask info) = 0 /\
  (forall b, Z.testbit (CPUTopology.allMask info) b = true <-> 0 <= b < totalCores info).
Proof.
  intros (Hnd & Hin & Hlen) Hfit.
  assert (Hp : forall c, In c (perfCores info) -> 0 <= c < CPUTopology.CPU_SETSIZE).
  { intros c Hc. assert (In c (perfCores info ++ effCores info)) as H
      by (apply in_app_iff; auto). apply Hin in H. lia. }
  assert (He : forall c, In c (effCores info) -> 0 <= c < CPUTopology.CPU_SETSIZE).
  { intros c Hc. assert (In c (perfCores info ++ effCores info)) as H
      by (apply in_app_iff; auto). apply Hin in H. lia. }
  assert (Hall : forall b, Z.testbit (CPUTopology.allMask info) b = true <->
                           0 <= b < totalCores info).
  { intros b. unfold CPUTopology.allMask. rewrite <- zrange_seq.
    rewrite testbit_mask_of.
    - rewrite zrange_In. lia.
    - intros c Hc. apply zrange_In in Hc. lia. }
  split; [|split; [|exact Hall]].
  - apply Z.bits_inj'. intros b _. apply eq_true_iff_eq.
    rewrite Hall, Z.lor_spec, orb_true_iff.
    unfold CPUTopology.perfMask, CPUTopology.effMask.
    rewrite !testbit_mask_of by assumption.
    rewrite <- Hin, in_app_iff. tauto.
  - apply Z.bits_inj'. intros b _. rewrite Z.land_spec, Z.bits_0.
    apply andb_false_iff.
    destruct (Z.testbit (CPUTopology.perfMask info) b) eqn:E1; [|auto].
    destruct (Z.testbit (CPUTopology.effMask info) b) eqn:E2; [|auto].
    exfalso. unfold CPUTopology.perfMask, CPUTopology.effMask in *.
    apply testbit_mask_of in E1; [|assumption].
    apply testbit_mask_of in E2; [|assumption].
    apply in_split in E1. destruct E1 as (l1 & l2 & E1).
    rewrite E1, <- app_assoc in Hnd. cbn [app] in Hnd.
    apply NoDup_remove_2 in Hnd. apply Hnd.
    rewrite !in_app_iff. auto.
Qed.

Lemma classify_all_partitioned (vals : list (bool * Z)) :
  partitioned (classify_all 0 vals CPUTopology.empty_info).
Proof.
  pose proof (classify_all_perm 0 vals CPUTopology.empty_info) as HP.
  cbn [CPUTopology.empty_info perfCores effCores app] in HP. rewrite app_nil_r in HP.
  pose proof (classify_all_total 0 vals CPUTopology.empty_info) as HT.
  cbn [CPUTopology.empty_info totalCores] in HT.
  split; [|split].
  - apply (Permutation_NoDup (Permutation_sym HP)). apply zrange_NoDup.
  - intros j. rewrite HT. split.
    + intros Hj. apply (Permutation_in _ HP) in Hj. apply zrange_In in Hj. lia.
    + intros Hj. apply (Permutation_in _ (Permutation_sym HP)). apply zrange_In. lia.
  - rewrite (Permutation_length HP), zrange_length. lia.
Qed.

Lemma default_partitioned : partitioned CPUTopology.default_info.
Proof.
  unfold partitioned. cbn [CPUTopology.default_info perfCores effCores totalCores app List.length].
  split; [|split; [|reflexivity]].
  - repeat constructor; cbn [In]; lia.
  - intros j. cbn [In]. lia.
Qed.

(** ** CPUTopology: detectCores *)

(** C2, as amended.  detectCores opens the attributes of consecutive indices
    from 0 and stops at the first one that does not open or on reaching
    index 16, whichever comes first; totalCores is then the number of
    attributes opened before that point (at most 16).  If an exception
    interrupts the probing, totalCores is the default 8. *)
Theorem detectCores_probing (h : Host) (w : World) :
  let r := CPUTopology.detectCores h w in
  let d := new_events w (snd r) in
  exists vals,
    let n := Z.of_nat (List.length vals) in
    (d = opened_events 0 vals ++ [EvProbe n NotOpen] /\
     n < 16 /\ totalCores (fst r) = n)
    \/
    (d = opened_events 0 vals /\ n = 16 /\ totalCores (fst r) = 16)
    \/
    (d = opened_events 0 vals ++ [EvProbe n Raise; EvLog CPUTopology.fallback_message true] /\
     n < 16 /\ totalCores (fst r) = 8).
Proof.
  cbv zeta. destruct (detectCores_shape h w) as [vals Hcases]. cbv zeta in Hcases.
  exists vals.
  destruct Hcases as [(E & Hn & Hr)|[(E & Hn & Hr)|(E & Hn & Hr)]]; rewrite Hr.
  - left. rewrite classify_all_total. cbn [CPUTopology.empty_info totalCores]. auto.
  - right. left. rewrite classify_all_total. cbn [CPUTopology.empty_info totalCores].
    split; [exact E|]. split; [exact Hn | lia].
  - right. right. auto.
Qed.

(** C2 as stated fails on a machine with more than 16 cores: the first
    missing attribute is that of index 20, yet probing stops after index 15
    and totalCores is 16. *)
Lemma detectCores_bound_counterexample :
  (forall t i, 0 <= i < 20 -> cpu_probe twenty_core_host t i = Opened false 1804800) /\
  (forall t, cpu_probe twenty_core_host t 20 = NotOpen) /\
  totalCores (fst (CPUTopology.detectCores twenty_core_host initial_world)) = 16 /\
  new_events initial_world (snd (CPUTopology.detectCores twenty_core_host initial_world)) =
    opened_events 0 (repeat (false, 1804800) 16).
Proof.
  split; [|split; [|split]]; try reflexivity.
  intros t i Hi. cbn [cpu_probe twenty_core_host static_host].
  replace ((0 <=? i) && (i <? 20)) with true; [reflexivity|].
  symmetry. apply andb_true_iff. lia.
Qed.

(** C1, as amended.  detectCores returns the fixed default topology and
    logs the warning when an exception is raised while probing, and logs
    nothing otherwise.  An attribute that does not open raises none: it ends
    the probing, and the topology built from the attributes opened before it
    is returned; at index 0 that is the empty topology. *)
Theorem detectCores_fallback (h : Host) (w : World) :
  let r := CPUTopology.detectCores h w in
  let d := new_events w (snd r) in
  ((exists i, In (EvProbe i Raise) d) ->
   fst r = CPUTopology.default_info /\ In (EvLog CPUTopology.fallback_message true) d) /\
  ((forall i, ~ In (EvProbe i Raise) d) -> forall m b, ~ In (EvLog m b) d) /\
  (forall i, In (EvProbe i NotOpen) d ->
   exists vals,
     d = opened_events 0 vals ++ [EvProbe i NotOpen] /\
     i = Z.of_nat (List.length vals) /\
     fst r = classify_all 0 vals CPUTopology.empty_info /\
     totalCores (fst r) = i) /\
  (cpu_probe h (trace w) 0 = NotOpen ->
   fst r = CPUTopology.empty_info /\ d = [EvProbe 0 NotOpen]).
Proof.
  cbv zeta. destruct (detectCores_shape h w) as [vals Hcases]. cbv zeta in Hcases.
  split; [|split; [|split]].
  - intros [i Hi].
    destruct Hcases as [(E & Hn & Hr)|[(E & Hn & Hr)|(E & Hn & Hr)]]; rewrite E in *.
    + apply in_app_iff in Hi. destruct Hi as [Hi|[Hi|[]]]; [|discriminate].
      apply opened_events_only_opened in Hi. destruct Hi as (j & f & v & Hi). discriminate.
    + apply opened_events_only_opened in Hi. destruct Hi as (j & f & v & Hi). discriminate.
    + split; [exact Hr|]. apply in_app_iff. right. cbn. auto.
  - intros Hno m b Hlog.
    destruct Hcases as [(E & Hn & Hr)|[(E & Hn & Hr)|(E & Hn & Hr)]]; rewrite E in *.
    + apply in_app_iff in Hlog. destruct Hlog as [Hlog|[Hlog|[]]]; [|discriminate].
      apply opened_events_only_opened in Hlog. destruct Hlog as (j & f & v & Hlog). discriminate.
    + apply opened_events_only_opened in Hlog. destruct Hlog as (j & f & v & Hlog). discriminate.
    + apply (Hno (Z.of_nat (List.length vals))). apply in_app_iff. right. cbn. auto.
  - intros i Hi.
    destruct Hcases as [(E & Hn & Hr)|[(E & Hn & Hr)|(E & Hn & Hr)]]; rewrite E in *.
    + apply in_app_iff in Hi. destruct Hi as [Hi|[Hi|[]]].
      * apply opened_events_only_opened in Hi. destruct Hi as (j & f & v & Hi). discriminate.
      * inversion Hi; subst i. exists vals. rewrite Hr, classify_all_total.
        cbn [CPUTopology.empty_info totalCores]. auto.
    + apply opened_events_only_opened in Hi. destruct Hi as (j & f & v & Hi). discriminate.
    + apply in_app_iff in Hi. destruct Hi as [Hi|[Hi|[Hi|[]]]]; try discriminate.
      apply opened_events_only_opened in Hi. destruct Hi as (j & f & v & Hi). discriminate.
  - intros H0. clear Hcases vals.
    unfold CPUTopology.detectCores, bind. cbn [CPUTopology.probe_loop].
    change (0 <? 16) with true. cbv iota. unfold bind, CPUTopology.open_freq.
    rewrite H0. cbn [ret emit fst snd]. split; [reflexivity|].
    apply new_events_app. reflexivity.
Qed.

(** An exception at the second iteration discards core 0 and yields the
    default topology with the warning. *)
Lemma detectCores_fallback_witness :
  fst (CPUTopology.detectCores out_of_memory_host initial_world) = CPUTopology.default_info /\
  In (EvLog CPUTopology.fallback_message true)
     (new_events initial_world (snd (CPUTopology.detectCores out_of_memory_host initial_world))).
Proof.
  apply (proj1 (detectCores_fallback out_of_memory_host initial_world)).
  exists 1. cbn. auto.
Defined.

(** C1 as stated fails where the spec's own scenario places it: when the
    attribute of core 0 does not open, detectCores returns the empty
    topology with totalCores = 0 and logs nothing; and when it opens but
    holds no number, core 0 is filed as an efficiency core, again without
    fallback or warning. *)
Lemma detectCores_no_fallback_counterexample :
  (cpu_probe no_cpufreq_host (trace initial_world) 0 = NotOpen /\
   CPUTopology.detectCores no_cpufreq_host initial_world =
     (CPUTopology.empty_info, set_trace [EvProbe 0 NotOpen] initial_world) /\
   CPUTopology.empty_info <> CPUTopology.default_info) /\
  (cpu_probe garbled_host (trace initial_world) 0 = Opened true 0 /\
   CPUTopology.detectCores garbled_host initial_world =
     ({| perfCores := []; effCores := [0]; totalCores := 1 |},
      set_trace [EvProbe 0 (Opened true 0); EvProbe 1 NotOpen] initial_world)).
Proof.
  split; [split; [|split]|split]; try reflexivity.
  discriminate.
Qed.

(** C6, as amended.  In every topology detectCores returns, no index is in
    both sets or twice in one, the indices in the two sets are those below
    totalCores, there are totalCores of them, and the all-cores mask is the
    union of the two masks, which share no bit.  Unless the default topology
    was substituted after an exception, every probed index is filed by the
    threshold: above 2,000,000 into the performance set, otherwise into the
    efficiency set. *)
Theorem detectCores_partition (h : Host) (w : World) :
  let r := CPUTopology.detectCores h w in
  let info := fst r in
  let d := new_events w (snd r) in
  NoDup (perfCores info ++ effCores info) /\
  (forall j, In j (perfCores info ++ effCores info) <-> 0 <= j < totalCores info) /\
  Z.of_nat (List.length (perfCores info ++ effCores info)) = totalCores info /\
  CPUTopology.allMask info = Z.lor (CPUTopology.perfMask info) (CPUTopology.effMask info) /\
  Z.land (CPUTopology.perfMask info) (CPUTopology.effMask info) = 0 /\
  (forall b, Z.testbit (CPUTopology.allMask info) b = true <-> 0 <= b < totalCores info) /\
  ((forall i, ~ In (EvProbe i Raise) d) ->
   forall j f v, In (EvProbe j (Opened f v)) d ->
     0 <= j < totalCores info /\
     (In j (perfCores info) <-> 2000000 < v) /\
     (In j (effCores info) <-> v <= 2000000)).
Proof.
  cbv zeta. destruct (detectCores_shape h w) as [vals Hcases]. cbv zeta in Hcases.
  assert (Hpart : partitioned (fst (CPUTopology.detectCores h w)) /\
                  totalCores (fst (CPUTopology.detectCores h w)) <= CPUTopology.CPU_SETSIZE).
  { destruct Hcases as [(E & Hn & Hr)|[(E & Hn & Hr)|(E & Hn & Hr)]]; rewrite Hr.
    - split; [apply classify_all_partitioned|]. rewrite classify_all_total.
      cbn [CPUTopology.empty_info totalCores]. unfold CPUTopology.CPU_SETSIZE. lia.
    - split; [apply classify_all_partitioned|]. rewrite classify_all_total.
      cbn [CPUTopology.empty_info totalCores]. unfold CPUTopology.CPU_SETSIZE. lia.
    - split; [apply default_partitioned|]. cbn. discriminate. }
  destruct Hpart as [Hpart Hfit].
  destruct (partitioned_masks _ Hpart Hfit) as (Hlor & Hland & Hbits).
  destruct Hpart as (Hnd & Hin & Hlen).
  repeat (split; [assumption|]).
  intros Hno j f v Hj.
  assert (Hopened : In (EvProbe j (Opened f v)) (opened_events 0 vals) /\
                    fst (CPUTopology.detectCores h w) =
                      classify_all 0 vals CPUTopology.empty_info).
  { destruct Hcases as [(E & Hn & Hr)|[(E & Hn & Hr)|(E & Hn & Hr)]]; rewrite E in *.
    - apply in_app_iff in Hj. destruct Hj as [Hj|[Hj|[]]]; [auto | discriminate].
    - auto.
    - exfalso. apply (Hno (Z.of_nat (List.length vals))). apply in_app_iff. right. cbn. auto. }
  destruct Hopened as [Hev Hr]. rewrite Hr.
  pose proof (opened_events_bounds _ _ _ _ Hev) as Hb.
  rewrite classify_all_total, classify_all_perf, classify_all_eff.
  cbn [CPUTopology.empty_info totalCores perfCores effCores In].
  split; [lia|]. split; split.
  - intros [[]|(f' & v' & Hev' & Hv')].
    pose proof (opened_events_functional _ _ _ _ _ Hev Hev') as Eq. inversion Eq; subst. exact Hv'.
  - intros Hv. right. exists f, v. auto.
  - intros [[]|(f' & v' & Hev' & Hv')].
    pose proof (opened_events_functional _ _ _ _ _ Hev Hev') as Eq. inversion Eq; subst. exact Hv'.
  - intros Hv. right. exists f, v. auto.
Qed.

(** On the phone, core 6 (2,841,600) is a performance core. *)
Lemma detectCores_partition_witness :
  0 <= 6 < totalCores (fst (CPUTopology.detectCores phone_host initial_world)) /\
  (In 6 (perfCores (fst (CPUTopology.detectCores phone_host initial_world))) <->
   2000000 < 2841600) /\
  (In 6 (effCores (fst (CPUTopology.detectCores phone_host initial_world))) <->
   2841600 <= 2000000).
Proof.
  apply (proj2 (proj2 (proj2 (proj2 (proj2 (proj2
           (detectCores_partition phone_host initial_world))))))) with (f := false).
  - intros i Hi. cbn in Hi.
    repeat (destruct Hi as [Hi|Hi]; [discriminate|]). exact Hi.
  - cbn. auto 10.
Defined.

(** C6 as stated fails on the fallback path: core 0 was probed at
    3,000,000, above the threshold, yet the substituted default topology
    lists it as an efficiency core. *)
Lemma detectCores_default_counterexample :
  In (EvProbe 0 (Opened false 3000000))
     (new_events initial_world (snd (CPUTopology.detectCores out_of_memory_host initial_world))) /\
  2000000 < 3000000 /\
  In 0 (effCores (fst (CPUTopology.detectCores out_of_memory_host initial_world))) /\
  ~ In 0 (perfCores (fst (CPUTopology.detectCores out_of_memory_host initial_world))).
Proof.
  split; [cbn; auto|]. split; [lia|]. split; [cbn; auto|].
  cbn. intros [H|[H|[H|[H|[]]]]]; discriminate.
Qed.

(** ** ProcessUtils: enumerated IDs *)

Lemma isValidPID_trace h pid w :
  exists d,
    trace (snd (Sanitizer.isValidPID h pid w)) = trace w ++ d /\
    (fst (Sanitizer.isValidPID h pid w) = Ok true ->
     0 < pid < 99999 /\ d = [EvExists pid true]).
Proof.
  destruct (isValidPID_cases h pid w) as [[Hr E]|[Hr [[b [Hb E]]|[e [He E]]]]];
    rewrite E; cbn [fst snd set_trace trace].
  - exists []. rewrite app_nil_r. split; [reflexivity | discriminate].
  - exists [EvExists pid b]. split; [reflexivity|].
    intros H. inversion H; subst. auto.
  - exists [EvExistsThrew pid e]. split; [reflexivity | discriminate].
Qed.

Lemma listed_as_cons entry entries id :
  listed_as entries id -> listed_as (entry :: entries) id.
Proof. intros (e & Hin & H). exists e. cbn [In]. auto. Qed.

(** Every ID the /proc scan adds passed isValidPID during the scan and
    comes from a digit-named directory entry. *)
Lemma scan_proc_ids h pattern entries :
  forall pids w,
    let r := ProcessUtils.scan_proc h pattern entries pids w in
    exists d,
      trace (snd r) = trace w ++ d /\
      forall id, In id (fst (fst r)) ->
        In id pids \/
        (0 < id < 99999 /\ In (EvExists id true) d /\ listed_as entries id).
Proof.
  induction entries as [|entry rest IH]; intros pids w; cbv zeta.
  - exists []. cbn. rewrite app_nil_r. auto.
  - assert (Hskip : forall pids' w' d0,
               trace w' = trace w ++ d0 ->
               (forall id, In id pids' ->
                  In id pids \/
                  (0 < id < 99999 /\ In (EvExists id true) d0 /\
                   listed_as (entry :: rest) id)) ->
               exists d,
                 trace (snd (ProcessUtils.scan_proc h pattern rest pids' w')) = trace w ++ d /\
                 forall id, In id (fst (fst (ProcessUtils.scan_proc h pattern rest pids' w'))) ->
                   In id pids \/
                   (0 < id < 99999 /\ In (EvExists id true) d /\
                    listed_as (entry :: rest) id)).
    { intros pids' w' d0 Ew Hp. destruct (IH pids' w') as [d' [Ed Hd]].
      exists (d0 ++ d'). rewrite Ed, Ew, app_assoc. split; [reflexivity|].
      intros id Hid. destruct (Hd id Hid) as [Hin|(Hr & Hev & Hl)].
      - destruct (Hp id Hin) as [?|(Hr & Hev & Hl)]; [auto|].
        right. rewrite in_app_iff. auto.
      - right. rewrite in_app_iff. auto using listed_as_cons. }
    cbn [ProcessUtils.scan_proc].
    destruct (d_is_directory entry) eqn:Edir; cbn [negb].
    2:{ apply (Hskip pids w []); [rewrite app_nil_r; reflexivity | auto]. }
    destruct (ProcessUtils.all_of_isdigit (d_name entry)) eqn:Edig; cbn [negb].
    2:{ apply (Hskip pids w []); [rewrite app_nil_r; reflexivity | auto]. }
    destruct (ProcessUtils.stoi (d_name entry)) as [pid|e] eqn:Estoi.
    2:{ exists []. cbn. rewrite app_nil_r. auto. }
    unfold bind.
    destruct (isValidPID_trace h pid w) as [dv [Ev Hv]].
    destruct (Sanitizer.isValidPID h pid w) as [[valid|e] w1]. 2:{ exists dv. auto. }
    cbn [fst snd] in Ev, Hv.
    destruct valid; cbn [negb].
    2:{ apply (Hskip pids w1 dv); [exact Ev | auto]. }
    destruct (Hv eq_refl) as [Hrange ->].
    unfold ProcessUtils.host_read_comm. cbn [emit fst snd].
    set (w2 := set_trace _ w1).
    assert (Ew2 : trace w2 = trace w ++ [EvExists pid true;
                    EvComm (d_name entry) (read_comm h (trace w1) (d_name entry))]).
    { unfold w2. cbn [set_trace trace]. rewrite Ev, <- app_assoc. reflexivity. }
    assert (Hadd : forall id, In id (pids ++ [pid]) ->
              In id pids \/
              (0 < id < 99999 /\
               In (EvExists id true)
                  [EvExists pid true;
                   EvComm (d_name entry) (read_comm h (trace w1) (d_name entry))] /\
               listed_as (entry :: rest) id)).
    { intros id Hid. apply in_app_iff in Hid. destruct Hid as [?|[<-|[]]]; [auto|].
      right. split; [exact Hrange|]. split; [cbn; auto|].
      exists entry. cbn [In]. auto. }
    destruct (read_comm h (trace w1) (d_name entry)) as [line|].
    + destruct (regex_search h pattern line).
      * apply (Hskip _ w2 _ Ew2 Hadd).
      * apply (Hskip _ w2 _ Ew2). auto.
    + apply (Hskip _ w2 _ Ew2). auto.
Qed.

Lemma scan_task_ids h entries :
  forall tids w,
    let r := ProcessUtils.scan_task h entries tids w in
    exists d,
      trace (snd r) = trace w ++ d /\
      forall id, In id (fst (fst r)) ->
        In id tids \/
        (0 < id < 99999 /\ In (EvExists id true) d /\ listed_as entries id).
Proof.
  induction entries as [|entry rest IH]; intros tids w; cbv zeta.
  - exists []. cbn. rewrite app_nil_r. auto.
  - assert (Hskip : forall tids' w' d0,
               trace w' = trace w ++ d0 ->
               (forall id, In id tids' ->
                  In id tids \/
                  (0 < id < 99999 /\ In (EvExists id true) d0 /\
                   listed_as (entry :: rest) id)) ->
               exists d,
                 trace (snd (ProcessUtils.scan_task h rest tids' w')) = trace w ++ d /\
                 forall id, In id (fst (fst (ProcessUtils.scan_task h rest tids' w'))) ->
                   In id tids \/
                   (0 < id < 99999 /\ In (EvExists id true) d /\
                    listed_as (entry :: rest) id)).
    { intros tids' w' d0 Ew Hp. destruct (IH tids' w') as [d' [Ed Hd]].
      exists (d0 ++ d'). rewrite Ed, Ew, app_assoc. split; [reflexivity|].
      intros id Hid. destruct (Hd id Hid) as [Hin|(Hr & Hev & Hl)].
      - destruct (Hp id Hin) as [?|(Hr & Hev & Hl)]; [auto|].
        right. rewrite in_app_iff. auto.
      - right. rewrite in_app_iff. auto using listed_as_cons. }
    cbn [ProcessUtils.scan_task].
    destruct (d_is_directory entry) eqn:Edir; cbn [negb].
    2:{ apply (Hskip tids w []); [rewrite app_nil_r; reflexivity | auto]. }
    destruct (ProcessUtils.all_of_isdigit (d_name entry)) eqn:Edig.
    2:{ apply (Hskip tids w []); [rewrite app_nil_r; reflexivity | auto]. }
    destruct (ProcessUtils.stoi (d_name entry)) as [tid|e] eqn:Estoi.
    2:{ exists []. cbn. rewrite app_nil_r. auto. }
    unfold bind.
    destruct (isValidPID_trace h tid w) as [dv [Ev Hv]].
    destruct (Sanitizer.isValidPID h tid w) as [[valid|e] w1]. 2:{ exists dv. auto. }
    cbn [fst snd] in Ev, Hv.
    destruct valid.
    2:{ apply (Hskip tids w1 dv); [exact Ev | auto]. }
    destruct (Hv eq_refl) as [Hrange ->].
    apply (Hskip _ w1 _ Ev).
    intros id Hid. apply in_app_iff in Hid. destruct Hid as [?|[<-|[]]]; [auto|].
    right. split; [exact Hrange|]. split; [cbn; auto|].
    exists entry. cbn [In]. auto.
Qed.

(** C10. Every ID returned by getProcessIDs or getThreadIDs lies strictly
    between 0 and 99999, is the value of a digit-named directory entry of
    the listing the function obtained, and passed isValidPID (the host
    answered that it exists) after that listing, during the enumeration. *)
Theorem enumerated_ids_valid (h : Host) :
  (forall pattern w pids,
     fst (ProcessUtils.getProcessIDs h pattern w) = Ok pids ->
     forall id, In id pids ->
       0 < id < 99999 /\
       exists d1 entries d2,
         new_events w (snd (ProcessUtils.getProcessIDs h pattern w)) =
           d1 ++ EvList ProcRoot entries :: d2 /\
         listed_as entries id /\ In (EvExists id true) d2) /\
  (forall pid w tids,
     fst (ProcessUtils.getThreadIDs h pid w) = Ok tids ->
     forall id, In id tids ->
       0 < id < 99999 /\
       exists d1 entries d2,
         new_events w (snd (ProcessUtils.getThreadIDs h pid w)) =
           d1 ++ EvList (TaskDir pid) entries :: d2 /\
         listed_as entries id /\ In (EvExists id true) d2).
Proof.
  split.
  - intros pattern w pids. unfold ProcessUtils.getProcessIDs.
    destruct (Sanitizer.isValidPattern pattern); cbn [negb].
    2:{ cbn. intros E. inversion E; subst. contradiction. }
    destruct (regex_valid h pattern); cbn [negb].
    2:{ cbn. discriminate. }
    unfold bind, ProcessUtils.host_list_dir. cbn [emit fst snd].
    set (entries := list_dir h (trace w) ProcRoot).
    set (w1 := set_trace (trace w ++ [EvList ProcRoot entries]) w).
    destruct (scan_proc_ids h pattern entries [] w1) as [d [Ed Hd]].
    destruct (ProcessUtils.scan_proc h pattern entries [] w1) as [[found exn] w2].
    cbn [fst snd] in *.
    assert (Hfound : forall id, In id found ->
              0 < id < 99999 /\ listed_as entries id /\ In (EvExists id true) d).
    { intros id Hid. destruct (Hd id Hid) as [[]|(Hr & Hev & Hl)]. auto. }
    destruct exn as [e|]; cbn [Logger.log emit ret fst snd];
      intros E id Hid; inversion E; subst pids;
      destruct (Hfound id Hid) as (Hr & Hl & Hev); (split; [exact Hr|]).
    + exists [], entries, (d ++ [EvLog ("Error in getProcessIDs: " ++ what h e)%string true]).
      split; [|split; [exact Hl | apply in_app_iff; auto]].
      apply new_events_app. cbn [set_trace trace]. rewrite Ed.
      unfold w1. cbn [set_trace trace]. rewrite <- !app_assoc. reflexivity.
    + exists [], entries, d. split; [|auto].
      apply new_events_app. rewrite Ed.
      unfold w1. cbn [set_trace trace]. rewrite <- !app_assoc. reflexivity.
  - intros pid w tids. unfold ProcessUtils.getThreadIDs, bind_ok, bind.
    destruct (isValidPID_trace h pid w) as [dv [Ev _]].
    destruct (Sanitizer.isValidPID h pid w) as [[valid|e0] w0]. 2:{ cbn. discriminate. }
    cbn [fst snd] in Ev.
    destruct valid; cbn [negb].
    2:{ cbn. intros E. inversion E; subst. contradiction. }
    unfold ProcessUtils.host_list_dir. cbn [emit fst snd].
    set (entries := list_dir h (trace w0) (TaskDir pid)).
    set (w1 := set_trace (trace w0 ++ [EvList (TaskDir pid) entries]) w0).
    destruct (scan_task_ids h entries [] w1) as [d [Ed Hd]].
    destruct (ProcessUtils.scan_task h entries [] w1) as [[found exn] w2].
    cbn [fst snd] in *.
    assert (Hfound : forall id, In id found ->
              0 < id < 99999 /\ listed_as entries id /\ In (EvExists id true) d).
    { intros id Hid. destruct (Hd id Hid) as [[]|(Hr & Hev & Hl)]. auto. }
    destruct exn as [e|]; cbn [Logger.log emit ret fst snd];
      intros E id Hid; inversion E; subst tids;
      destruct (Hfound id Hid) as (Hr & Hl & Hev); (split; [exact Hr|]).
    + exists dv, entries, (d ++ [EvLog ("Error in getThreadIDs: " ++ what h e)%string true]).
      split; [|split; [exact Hl | apply in_app_iff; auto]].
      apply new_events_app. cbn [set_trace trace]. rewrite Ed.
      unfold w1. cbn [set_trace trace]. rewrite Ev, <- !app_assoc. reflexivity.
    + exists dv, entries, d. split; [|auto].
      apply new_events_app. rewrite Ed.
      unfold w1. cbn [set_trace trace]. rewrite Ev, <- !app_assoc. reflexivity.
Qed.

(** On the phone, the scan for zygote returns 612, a listed directory that
    exists. *)
Lemma enumerated_ids_valid_witness :
  0 < 612 < 99999 /\
  exists d1 entries d2,
    new_events initial_world (snd (ProcessUtils.getProcessIDs phone_host "zygote" initial_world)) =
      d1 ++ EvList ProcRoot entries :: d2 /\
    listed_as entries 612 /\ In (EvExists 612 true) d2.
Proof.
  apply (proj1 (enumerated_ids_valid phone_host) "zygote"%string initial_world [612]).
  - reflexivity.
  - cbn. auto.
Defined.

(** ** Silence of the scanners and of the topology *)

Lemma silent_log P msg b : P (EvLog msg b) = false -> silent P (Logger.log msg b).
Proof. intros H. apply silent_emit. exact H. Qed.

Lemma silent_host_list_dir P h d :
  (forall l, P (EvList d l) = false) -> silent P (ProcessUtils.host_list_dir h d).
Proof.
  intros HP w. exists [EvList d (list_dir h (trace w) d)]. cbn. rewrite HP. auto.
Qed.

Lemma silent_host_read_comm P h name :
  (forall c, P (EvComm name c) = false) -> silent P (ProcessUtils.host_read_comm h name).
Proof.
  intros HP w. exists [EvComm name (read_comm h (trace w) name)]. cbn. rewrite HP. auto.
Qed.

Section HostEventsUnseen.
(** A class of events that contains no host answer and no error log. *)
Variable P : Event -> bool.
Hypothesis P_probe : forall i p, P (EvProbe i p) = false.
Hypothesis P_exists : forall pid b, P (EvExists pid b) = false.
Hypothesis P_exists_threw : forall pid e, P (EvExistsThrew pid e) = false.
Hypothesis P_list : forall d l, P (EvList d l) = false.
Hypothesis P_comm : forall n c, P (EvComm n c) = false.
Hypothesis P_error_log : forall m, P (EvLog m true) = false.
Variable h : Host.

Lemma silent_scan_proc pattern entries :
  forall pids, silent P (ProcessUtils.scan_proc h pattern entries pids).
Proof.
  induction entries as [|entry rest IH]; intros pids; cbn [ProcessUtils.scan_proc].
  - apply silent_ret.
  - apply silent_if; [apply IH|]. apply silent_if; [apply IH|].
    destruct (ProcessUtils.stoi (d_name entry)); [|apply silent_ret].
    apply silent_bind; [apply silent_isValidPID; auto|].
    intros [valid|e]; [|apply silent_ret].
    apply silent_if; [apply IH|].
    apply silent_bind; [apply silent_host_read_comm; auto|]. intros [line|]; [|apply IH].
    apply silent_if; apply IH.
Qed.

Lemma silent_getProcessIDs pattern : silent P (ProcessUtils.getProcessIDs h pattern).
Proof.
  unfold ProcessUtils.getProcessIDs.
  apply silent_if.
  - apply silent_bind; [apply silent_log; auto | intros; apply silent_ret].
  - apply silent_if; [apply silent_ret|].
    apply silent_bind; [apply silent_host_list_dir; auto|]. intros entries.
    apply silent_bind; [apply silent_scan_proc|]. intros [found [e|]]; cbn [snd fst].
    + apply silent_bind; [apply silent_log; auto | intros; apply silent_ret].
    + apply silent_ret.
Qed.




End HostEventsUnseen.

(** ** TaskOptimizer: no match *)

Lemma rejected_pattern_empty h pattern w :
  Sanitizer.isValidPattern pattern = false ->
  fst (ProcessUtils.getProcessIDs h pattern w) = Ok [].
Proof. intros H. unfold ProcessUtils.getProcessIDs. rewrite H. reflexivity. Qed.

(** C5. When getProcessIDs yields the empty sequence (as it does for every
    pattern the Sanitizer rejects), optimizePattern returns normally with
    the three counters as they were, and the only informational line logged
    is the one saying that no process was found. *)
Theorem optimizePattern_no_match (h : Host) (pattern : string)
        (optimizer : Z -> M (Res bool)) (opName : string)
        (stats : StatsTracker.t) (w : World) :
  fst (ProcessUtils.getProcessIDs h pattern w) = Ok [] \/
  Sanitizer.isValidPattern pattern = false ->
  let r := TaskOptimizer.optimizePattern h pattern optimizer opName stats w in
  fst r = (Ok tt, stats) /\
  info_logs (new_events w (snd r)) =
    [EvLog ("No processes found for: " ++ pattern)%string false].
Proof.
  intros H. cbv zeta.
  assert (Hempty : fst (ProcessUtils.getProcessIDs h pattern w) = Ok []).
  { destruct H as [H|H]; [exact H | apply rejected_pattern_empty; exact H]. }
  clear H. unfold TaskOptimizer.optimizePattern, bind.
  destruct (silent_getProcessIDs is_info_log) with (h := h) (pattern := pattern) (w := w)
    as [d [E F]]; try reflexivity.
  destruct (ProcessUtils.getProcessIDs h pattern w) as [res w1].
  cbn [fst snd] in *. subst res.
  cbn [Logger.log emit ret fst snd]. split; [reflexivity|].
  rewrite (new_events_app w _ (d ++ [EvLog ("No processes found for: " ++ pattern)%string false])).
  - unfold info_logs. rewrite filter_app, F. reflexivity.
  - cbn [set_trace trace]. rewrite E, app_assoc. reflexivity.
Qed.

(** The scenario of a pattern that matches no process. *)
Lemma optimizePattern_no_match_witness :
  fst (TaskOptimizer.optimizePattern phone_host "nonexistent_task_xyz"
         (high_prio phone_host) "high_prio" StatsTracker.init initial_world) =
    (Ok tt, StatsTracker.init) /\
  info_logs (new_events initial_world
               (snd (TaskOptimizer.optimizePattern phone_host "nonexistent_task_xyz"
                       (high_prio phone_host) "high_prio" StatsTracker.init initial_world))) =
    [EvLog "No processes found for: nonexistent_task_xyz" false].
Proof.
  apply (optimizePattern_no_match phone_host "nonexistent_task_xyz"
           (high_prio phone_host) "high_prio" StatsTracker.init initial_world).
  left. reflexivity.
Defined.

(** ** The tuning tiers *)











Lemma run_cons c calls s :
  StatsTracker.run (c :: calls) s = StatsTracker.run calls (StatsTracker.record c s).
Proof. reflexivity. Qed.

Lemma run_app calls1 calls2 s :
  StatsTracker.run (calls1 ++ calls2) s =
  StatsTracker.run calls2 (StatsTracker.run calls1 s).
Proof. unfold StatsTracker.run. apply fold_left_app. Qed.

(** The inner loop records once per thread ID whose visit returned, by the
    optimizer's outcome; it visits every thread ID unless a visit throws. *)
Lemma for_tids_outcomes optimizer opName tids :
  forall stats w,
    let p := tids_outcomes optimizer opName tids w in
    TaskOptimizer.for_tids optimizer opName tids stats w =
      ((snd (fst p), StatsTracker.run (map call_of (fst (fst p))) stats), snd p) /\
    (snd (fst p) = Ok tt -> List.length (fst (fst p)) = List.length tids) /\
    (forall e, snd (fst p) = Thrown e ->
               (List.length (fst (fst p)) < List.length tids)%nat).
Proof.
  induction tids as [|tid rest IH]; intros stats w; cbv zeta.
  - split; [reflexivity|]. split; [reflexivity | discriminate].
  - cbn [TaskOptimizer.for_tids tids_outcomes]. unfold bind, TaskOptimizer.visit, bind.
    destruct (optimizer tid w) as [[ok|e] w1].
    2:{ cbn. split; [reflexivity|]. split; [discriminate | intros; lia]. }
    destruct ok; cbn [ret Logger.log emit fst snd].
    + destruct (IH (StatsTracker.recordSuccess stats) w1) as (E & L1 & L2). rewrite E.
      destruct (tids_outcomes optimizer opName rest w1) as [[oks res] w3].
      cbn [fst snd map List.length] in *. split; [reflexivity|]. split.
      * intros H. rewrite (L1 H). reflexivity.
      * intros e H. specialize (L2 e H). lia.
    + set (w2 := set_trace _ w1).
      destruct (IH (StatsTracker.recordFailure stats) w2) as (E & L1 & L2). rewrite E.
      destruct (tids_outcomes optimizer opName rest w2) as [[oks res] w3].
      cbn [fst snd map List.length] in *. split; [reflexivity|]. split.
      * intros H. rewrite (L1 H). reflexivity.
      * intros e H. specialize (L2 e H). lia.
Qed.

(** So does a whole pass over the matching processes. *)
Lemma for_pids_outcomes h optimizer opName pids :
  forall stats w,
    let p := pass_outcomes h optimizer opName pids w in
    TaskOptimizer.for_pids h optimizer opName pids stats w =
      ((snd (fst p), StatsTracker.run (map call_of (fst (fst p))) stats), snd p).
Proof.
  induction pids as [|pid rest IH]; intros stats w; cbv zeta.
  - reflexivity.
  - cbn [TaskOptimizer.for_pids pass_outcomes]. unfold bind.
    destruct (ProcessUtils.getThreadIDs h pid w) as [[tids|e] w1]; [|reflexivity].
    destruct (for_tids_outcomes optimizer opName tids stats w1) as [E _]. rewrite E.
    destruct (tids_outcomes optimizer opName tids w1) as [[oks res] w2]. cbn [fst snd].
    destruct res as [u|e]; [|reflexivity].
    rewrite IH.
    destruct (pass_outcomes h optimizer opName rest w2) as [[oks' res'] w3]. cbn [fst snd].
    rewrite map_app, run_app. reflexivity.
Qed.



(** * Further properties of the code *)

(** ** Sanitizer::sanitizePID *)

Lemma sanitizePID_filter (input : string) :
  list_ascii_of_string (Sanitizer.sanitizePID input) =
  filter Sanitizer.isdigit (list_ascii_of_string input).
Proof.
  induction input as [|c rest IH]; cbn [Sanitizer.sanitizePID list_ascii_of_string filter].
  - reflexivity.
  - destruct (Sanitizer.isdigit c); cbn [list_ascii_of_string]; rewrite IH; reflexivity.
Qed.

Lemma sanitizePID_all_digits (input : string) :
  ProcessUtils.all_of_isdigit (Sanitizer.sanitizePID input) = true.
Proof.
  induction input as [|c rest IH]; cbn [Sanitizer.sanitizePID].
  - reflexivity.
  - destruct (Sanitizer.isdigit c) eqn:E; [|exact IH].
    cbn [ProcessUtils.all_of_isdigit]. rewrite E, IH. reflexivity.
Qed.

Lemma sanitizePID_fixed (input : string) :
  Sanitizer.sanitizePID input = input <-> ProcessUtils.all_of_isdigit input = true.
Proof.
  split.
  - intros E. rewrite <- E. apply sanitizePID_all_digits.
  - induction input as [|c rest IH]; cbn [Sanitizer.sanitizePID ProcessUtils.all_of_isdigit].
    + reflexivity.
    + intros H. apply andb_true_iff in H. destruct H as [Hc Hr].
      rewrite Hc, (IH Hr). reflexivity.
Qed.

(** X1. sanitizePID keeps the digits of its input, in order, and drops
    every other character: the result is made of digits only, it is never
    longer than the input, sanitizing twice changes nothing more, and the
    inputs left untouched are exactly the strings of digits. *)
Theorem sanitizePID_keeps_digits (input : string) :
  list_ascii_of_string (Sanitizer.sanitizePID input) =
    filter Sanitizer.isdigit (list_ascii_of_string input) /\
  ProcessUtils.all_of_isdigit (Sanitizer.sanitizePID input) = true /\
  (String.length (Sanitizer.sanitizePID input) <= String.length input)%nat /\
  Sanitizer.sanitizePID (Sanitizer.sanitizePID input) = Sanitizer.sanitizePID input /\
  (Sanitizer.sanitizePID input = input <-> ProcessUtils.all_of_isdigit input = true).
Proof.
  split; [apply sanitizePID_filter|].
  split; [apply sanitizePID_all_digits|].
  split.
  - induction input as [|c rest IH]; cbn [Sanitizer.sanitizePID String.length]; [lia|].
    destruct (Sanitizer.isdigit c); cbn [String.length]; lia.
  - split; [|apply sanitizePID_fixed].
    apply sanitizePID_fixed, sanitizePID_all_digits.
Qed.

(** ** SyscallOptimizer: what an attempt appends *)

(** The events of one attempt. *)
Lemma direct_appends h k tid arg w :
  exists d,
    trace (snd (SyscallOptimizer.direct h k tid arg w)) = trace w ++ d /\
    ((~ 0 < tid < 99999 /\ d = [EvDirect k tid false]) \/
     (0 < tid < 99999 /\ d = [EvExists tid false; EvDirect k tid false]) \/
     (0 < tid < 99999 /\ exists r e ok,
        d = [EvExists tid true; EvSyscall k tid (syscall_arg k arg) r e; EvDirect k tid ok]) \/
     (0 < tid < 99999 /\ exists e, d = [EvExistsThrew tid e])).
Proof.
  destruct (direct_events h k tid arg w)
    as [(Hr & _ & W)
       |(Hr & [(_ & _ & T)|[(_ & r & e & res & _ & T)|(e & _ & _ & T)]])].
  - exists [EvDirect k tid false]. rewrite W. auto.
  - eexists. split; [exact T|]. auto.
  - eexists. split; [exact T|]. right. right. left. eauto.
  - eexists. split; [exact T|]. right. right. right. eauto.
Qed.

(** ** Properties that hold of every piece of trace the program appends *)

Section RunProperty.
(** A property of traces that survives concatenation and holds of each
    piece the program can append at once: a single event other than a
    system call, or a positive existence check followed by the system call
    it guards.  Only IDs in (0, 99999) reach fs::exists, whether it
    answers or throws. *)
Variable G : Trace -> Prop.
Variable ok_arg : Kind -> Z -> Prop.
Hypothesis G_nil : G [].
Hypothesis G_app : forall a b, G a -> G b -> G (a ++ b).
Hypothesis G_probe : forall i p, 0 <= i < 16 -> G [EvProbe i p].
Hypothesis G_list : forall d l, G [EvList d l].
Hypothesis G_comm : forall n c, G [EvComm n c].
Hypothesis G_log : forall m b, G [EvLog m b].
Hypothesis G_sleep : G [EvSleep 50].
Hypothesis G_direct : forall k tid ok, G [EvDirect k tid ok].
Hypothesis G_apply : forall k tid ok, G [EvApply k tid ok].
Hypothesis G_exists : forall pid b, 0 < pid < 99999 -> G [EvExists pid b].
Hypothesis G_exists_threw : forall pid e, 0 < pid < 99999 -> G [EvExistsThrew pid e].
Hypothesis G_call : forall k tid a r e,
  0 < tid < 99999 -> ok_arg k a -> G [EvExists tid true; EvSyscall k tid a r e].
Hypothesis ok_run : forall k a, run_arg k a -> ok_arg k a.
Variable h : Host.

Lemma yields_ret {A} (a : A) : yields G (ret a).
Proof. intros w. exists []. cbn. rewrite app_nil_r. auto. Qed.

Lemma yields_bind {A B} (m : M A) (k : A -> M B) :
  yields G m -> (forall a, yields G (k a)) -> yields G (bind m k).
Proof.
  intros Hm Hk w. unfold bind.
  destruct (Hm w) as [d1 [E1 F1]].
  destruct (m w) as [a w1]. cbn [snd] in E1.
  destruct (Hk a w1) as [d2 [E2 F2]].
  exists (d1 ++ d2). rewrite E2, E1, app_assoc. auto.
Qed.

Lemma yields_bind_ok {A B} (m : M (Res A)) (k : A -> M (Res B)) :
  yields G m -> (forall a, yields G (k a)) -> yields G (bind_ok m k).
Proof.
  intros Hm Hk. unfold bind_ok. apply yields_bind; [exact Hm|].
  intros [a|e]; [apply Hk | apply yields_ret].
Qed.

Lemma yields_emit (e : Event) : G [e] -> yields G (emit e).
Proof. intros He w. exists [e]. auto. Qed.

Lemma yields_if {A} (b : bool) (m1 m2 : M A) :
  yields G m1 -> yields G m2 -> yields G (if b then m1 else m2).
Proof. destruct b; auto. Qed.

Lemma yields_log msg b : yields G (Logger.log msg b).
Proof. apply yields_emit, G_log. Qed.

Lemma yields_isValidPID pid : yields G (Sanitizer.isValidPID h pid).
Proof.
  intros w.
  destruct (isValidPID_cases h pid w) as [[Hr E]|[Hr [[b [Hb E]]|[e [He E]]]]];
    rewrite E; cbn [snd set_trace trace].
  - exists []. rewrite app_nil_r. auto.
  - exists [EvExists pid b]. auto.
  - exists [EvExistsThrew pid e]. auto.
Qed.

Lemma yields_direct k tid arg :
  ok_arg k (syscall_arg k arg) -> yields G (SyscallOptimizer.direct h k tid arg).
Proof.
  intros Hok w. destruct (direct_appends h k tid arg w) as [d [E Hd]].
  exists d. split; [exact E|].
  destruct Hd as [[_ ->]|[[Hr ->]|[[Hr (r & e & ok & ->)]|[Hr (e & ->)]]]].
  - apply G_direct.
  - apply (G_app [EvExists tid false] [EvDirect k tid false]); auto.
  - apply (G_app [EvExists tid true; EvSyscall k tid (syscall_arg k arg) r e]
                 [EvDirect k tid ok]); auto.
  - auto.
Qed.

Lemma yields_retry_loop attempt fuel :
  yields G attempt ->
  forall retry, yields G (SyscallOptimizer.retry_loop attempt fuel retry).
Proof.
  intros Ha. induction fuel as [|fuel IH]; intros retry;
    cbn [SyscallOptimizer.retry_loop].
  - apply yields_ret.
  - apply yields_if; [|apply yields_ret].
    apply yields_bind_ok; [exact Ha|]. intros r.
    apply yields_if; [apply yields_ret|].
    apply yields_bind; [|intros; apply IH].
    apply yields_if; [apply yields_emit; exact G_sleep | apply yields_ret].
Qed.

Lemma yields_apply k tid arg :
  ok_arg k (syscall_arg k arg) -> yields G (SyscallOptimizer.apply h k tid arg).
Proof.
  intros Hok. rewrite apply_unfold. unfold SyscallOptimizer.applied.
  apply yields_bind_ok.
  - apply yields_retry_loop, yields_direct, Hok.
  - intros b. apply yields_bind; [apply yields_emit, G_apply | intros; apply yields_ret].
Qed.

Lemma yields_probe_loop fuel :
  forall i info, 0 <= i -> yields G (CPUTopology.probe_loop h fuel i info).
Proof.
  induction fuel as [|fuel IH]; intros i info Hi; cbn [CPUTopology.probe_loop].
  - apply yields_ret.
  - destruct (Z.ltb_spec i 16); [|apply yields_ret].
    apply yields_bind.
    + intros w. exists [EvProbe i (cpu_probe h (trace w) i)].
      split; [reflexivity|]. apply G_probe. lia.
    + intros [|f v|]; [apply yields_ret | apply IH; lia | apply yields_ret].
Qed.

Lemma yields_detectCores : yields G (CPUTopology.detectCores h).
Proof.
  unfold CPUTopology.detectCores.
  apply yields_bind; [apply yields_probe_loop; lia|]. intros [info|e].
  - apply yields_ret.
  - apply yields_bind; [apply yields_log | intros; apply yields_ret].
Qed.

Lemma yields_getPerfMask : yields G (CPUTopology.getPerfMask h).
Proof.
  intros w. unfold CPUTopology.getPerfMask.
  destruct (perfInfo w).
  - exists []. cbn. rewrite app_nil_r. auto.
  - destruct (yields_detectCores w) as [d [E F]].
    destruct (CPUTopology.detectCores h w) as [info w1]. exists d. auto.
Qed.

Lemma yields_getEffMask : yields G (CPUTopology.getEffMask h).
Proof.
  intros w. unfold CPUTopology.getEffMask.
  destruct (effInfo w).
  - exists []. cbn. rewrite app_nil_r. auto.
  - destruct (yields_detectCores w) as [d [E F]].
    destruct (CPUTopology.detectCores h w) as [info w1]. exists d. auto.
Qed.

Lemma yields_getAllMask : yields G (CPUTopology.getAllMask h).
Proof.
  intros w. unfold CPUTopology.getAllMask.
  destruct (allInfo w).
  - exists []. cbn. rewrite app_nil_r. auto.
  - destruct (yields_detectCores w) as [d [E F]].
    destruct (CPUTopology.detectCores h w) as [info w1]. exists d. auto.
Qed.

Lemma yields_and_then (a b : M (Res bool)) :
  yields G a -> yields G b -> yields G (and_then a b).
Proof.
  intros Ha Hb. unfold and_then. apply yields_bind_ok; [exact Ha|].
  intros x. apply yields_if; [exact Hb | apply yields_ret].
Qed.

Lemma yields_tier tier tid : yields G (tier_optimizer h tier tid).
Proof.
  destruct tier; cbn [tier_optimizer]; unfold high_prio, rt, low_prio.
  - apply yields_and_then.
    + apply (yields_apply Nice tid (-10)). apply ok_run. cbn. auto.
    + apply yields_bind; [apply yields_getPerfMask|]. intros mask.
      apply (yields_apply Affinity tid mask). apply ok_run. exact I.
  - apply yields_and_then.
    + apply (yields_apply RT tid 50). apply ok_run. reflexivity.
    + apply yields_bind; [apply yields_getPerfMask|]. intros mask.
      apply (yields_apply Affinity tid mask). apply ok_run. exact I.
  - apply yields_and_then; [apply yields_and_then|].
    + apply (yields_apply Nice tid 5). apply ok_run. cbn. auto.
    + apply yields_bind; [apply yields_getEffMask|]. intros mask.
      apply (yields_apply Affinity tid mask). apply ok_run. exact I.
    + apply (yields_apply IOPrio tid 3). apply ok_run. reflexivity.
Qed.

Lemma yields_visit optimizer opName tid stats :
  yields G (optimizer tid) -> yields G (TaskOptimizer.visit optimizer opName tid stats).
Proof.
  intros Ho. unfold TaskOptimizer.visit. apply yields_bind; [exact Ho|].
  intros [[|]|e]; try apply yields_ret.
  apply yields_bind; [apply yields_log | intros; apply yields_ret].
Qed.

Lemma yields_for_tids optimizer opName tids :
  (forall tid, yields G (optimizer tid)) ->
  forall stats, yields G (TaskOptimizer.for_tids optimizer opName tids stats).
Proof.
  intros Ho. induction tids as [|tid rest IH]; intros stats; cbn [TaskOptimizer.for_tids].
  - apply yields_ret.
  - apply yields_bind; [apply yields_visit, Ho|].
    intros [[u|e] stats1]; cbn [fst snd]; [apply IH | apply yields_ret].
Qed.

Lemma yields_host_list_dir d : yields G (ProcessUtils.host_list_dir h d).
Proof. intros w. exists [EvList d (list_dir h (trace w) d)]. auto. Qed.

Lemma yields_host_read_comm name : yields G (ProcessUtils.host_read_comm h name).
Proof. intros w. exists [EvComm name (read_comm h (trace w) name)]. auto. Qed.

Lemma yields_scan_task entries :
  forall tids, yields G (ProcessUtils.scan_task h entries tids).
Proof.
  induction entries as [|entry rest IH]; intros tids; cbn [ProcessUtils.scan_task].
  - apply yields_ret.
  - apply yields_if; [apply IH|]. apply yields_if; [|apply IH].
    destruct (ProcessUtils.stoi (d_name entry)); [|apply yields_ret].
    apply yields_bind; [apply yields_isValidPID|].
    intros [valid|e]; [|apply yields_ret].
    apply yields_if; apply IH.
Qed.

Lemma yields_getThreadIDs pid : yields G (ProcessUtils.getThreadIDs h pid).
Proof.
  unfold ProcessUtils.getThreadIDs.
  apply yields_bind_ok; [apply yields_isValidPID|]. intros valid.
  apply yields_if; [apply yields_ret|].
  apply yields_bind; [apply yields_host_list_dir|]. intros entries.
  apply yields_bind; [apply yields_scan_task|]. intros [found [e|]]; cbn [fst snd].
  - apply yields_bind; [apply yields_log | intros; apply yields_ret].
  - apply yields_ret.
Qed.

Lemma yields_for_pids optimizer opName pids :
  (forall tid, yields G (optimizer tid)) ->
  forall stats, yields G (TaskOptimizer.for_pids h optimizer opName pids stats).
Proof.
  intros Ho. induction pids as [|pid rest IH]; intros stats; cbn [TaskOptimizer.for_pids].
  - apply yields_ret.
  - apply yields_bind; [apply yields_getThreadIDs|].
    intros [tids|e]; [|apply yields_ret].
    apply yields_bind; [apply yields_for_tids, Ho|].
    intros [[u|e] stats1]; cbn [fst snd]; [apply IH | apply yields_ret].
Qed.

Lemma yields_scan_proc pattern entries :
  forall pids, yields G (ProcessUtils.scan_proc h pattern entries pids).
Proof.
  induction entries as [|entry rest IH]; intros pids; cbn [ProcessUtils.scan_proc].
  - apply yields_ret.
  - apply yields_if; [apply IH|]. apply yields_if; [apply IH|].
    destruct (ProcessUtils.stoi (d_name entry)); [|apply yields_ret].
    apply yields_bind; [apply yields_isValidPID|].
    intros [valid|e]; [|apply yields_ret].
    apply yields_if; [apply IH|].
    apply yields_bind; [apply yields_host_read_comm|]. intros [line|]; [|apply IH].
    apply yields_if; apply IH.
Qed.

Lemma yields_getProcessIDs pattern : yields G (ProcessUtils.getProcessIDs h pattern).
Proof.
  unfold ProcessUtils.getProcessIDs.
  apply yields_if.
  - apply yields_bind; [apply yields_log | intros; apply yields_ret].
  - apply yields_if; [apply yields_ret|].
    apply yields_bind; [apply yields_host_list_dir|]. intros entries.
    apply yields_bind; [apply yields_scan_proc|]. intros [found [e|]]; cbn [snd fst].
    + apply yields_bind; [apply yields_log | intros; apply yields_ret].
    + apply yields_ret.
Qed.

Lemma yields_optimizePattern pattern optimizer opName stats :
  (forall tid, yields G (optimizer tid)) ->
  yields G (TaskOptimizer.optimizePattern h pattern optimizer opName stats).
Proof.
  intros Ho. unfold TaskOptimizer.optimizePattern.
  apply yields_bind; [apply yields_getProcessIDs|]. intros [[|pid pids]|e].
  - apply yields_bind; [apply yields_log | intros; apply yields_ret].
  - apply yields_for_pids, Ho.
  - apply yields_ret.
Qed.

Lemma yields_for_tasks tasks optimizer opName :
  (forall tid, yields G (optimizer tid)) ->
  forall stats, yields G (for_tasks h tasks optimizer opName stats).
Proof.
  intros Ho. induction tasks as [|task rest IH]; intros stats; cbn [for_tasks].
  - apply yields_ret.
  - apply yields_bind; [apply yields_optimizePattern, Ho|]. intros [[u|e] stats1]; cbn [fst snd].
    + apply IH.
    + apply yields_ret.
Qed.

Lemma yields_optimizeSystem : yields G (optimizeSystem h).
Proof.
  unfold optimizeSystem.
  apply yields_bind; [apply yields_log|]. intros _.
  apply yields_bind; [apply yields_log|]. intros _.
  apply yields_bind; [apply yields_for_tasks; intros; apply (yields_tier HighPrio)|].
  intros [[u1|e1] s1]; cbn [fst snd]; [|apply yields_ret].
  apply yields_bind; [apply yields_log|]. intros _.
  apply yields_bind; [apply yields_for_tasks; intros; apply (yields_tier RealTime)|].
  intros [[u2|e2] s2]; cbn [fst snd]; [|apply yields_ret].
  apply yields_bind; [apply yields_log|]. intros _.
  apply yields_bind; [apply yields_for_tasks; intros; apply (yields_tier LowPrio)|].
  intros [[u3|e3] s3]; cbn [fst snd]; [|apply yields_ret].
  apply yields_bind; [apply yields_log|]. intros _.
  apply yields_bind; [apply yields_log|]. intros _.
  apply yields_ret.
Qed.
End RunProperty.

(** ** Validation before every system call *)

Lemma guarded_from_weaken (P : Z -> bool) (t : Trace) :
  guarded_from (fun _ => false) t = true -> guarded_from P t = true.
Proof.
  destruct t as [|e rest]; [reflexivity|].
  destruct e; cbn [guarded_from andb]; auto. discriminate.
Qed.

Lemma guarded_from_app (a b : Trace) :
  forall P, guarded_from P a = true -> guarded_from (fun _ => false) b = true ->
            guarded_from P (a ++ b) = true.
Proof.
  induction a as [|e rest IH]; intros P Ha Hb; cbn [app].
  - apply guarded_from_weaken, Hb.
  - destruct e; cbn [guarded_from] in *; try (apply IH; assumption).
    + destruct b0; apply IH; assumption.
    + apply andb_true_iff in Ha. destruct Ha as [H1 H2].
      rewrite H1. cbn [andb]. apply IH; assumption.
Qed.

Lemma syscalls_guarded_app (a b : Trace) :
  syscalls_guarded a -> syscalls_guarded b -> syscalls_guarded (a ++ b).
Proof. intros Ha Hb. apply guarded_from_app; assumption. Qed.

Lemma syscalls_guarded_call k tid a r e :
  syscalls_guarded [EvExists tid true; EvSyscall k tid a r e].
Proof. unfold syscalls_guarded. cbn. rewrite Z.eqb_refl. reflexivity. Qed.

Lemma syscalls_guarded_exists pid b : syscalls_guarded [EvExists pid b].
Proof. destruct b; reflexivity. Qed.

Lemma syscalls_guarded_exists_threw pid e : syscalls_guarded [EvExistsThrew pid e].
Proof. reflexivity. Qed.

Lemma direct_out_of_range h k tid arg w :
  ~ 0 < tid < 99999 ->
  exists result,
    SyscallOptimizer.direct h k tid arg w =
      (Ok result, set_trace (trace w ++ [EvDirect k tid false]) w) /\
    SyscallOptimizer.success result = false.
Proof.
  intros Hr.
  destruct (direct_events h k tid arg w) as [(_ & (res & E & S) & W)|(Hr' & _)];
    [|contradiction].
  exists res. split; [|exact S].
  destruct (SyscallOptimizer.direct h k tid arg w) as [r1 w1]. cbn [fst snd] in *.
  subst. reflexivity.
Qed.

(** X2. Whatever the arguments, a public set* call issues each system call
    directly after the host confirmed that the thread exists, never
    otherwise.  For a thread ID outside (0, 99999) it returns false without
    asking the host anything: all it does is three refused attempts with
    two 50 ms sleeps between them. *)
Theorem apply_validates_first (h : Host) (k : Kind) (tid arg : Z) (w : World) :
  let r := SyscallOptimizer.apply h k tid arg w in
  syscalls_guarded (new_events w (snd r)) /\
  (~ 0 < tid < 99999 ->
   fst r = Ok false /\
   new_events w (snd r) =
     [EvDirect k tid false; EvSleep 50; EvDirect k tid false; EvSleep 50;
      EvDirect k tid false; EvApply k tid false]).
Proof.
  cbv zeta. split.
  - assert (Hy : yields syscalls_guarded (SyscallOptimizer.apply h k tid arg)).
    { apply yields_apply with (ok_arg := fun _ _ => True);
        try reflexivity; auto using syscalls_guarded_app, syscalls_guarded_call,
                                    syscalls_guarded_exists, syscalls_guarded_exists_threw. }
    destruct (Hy w) as [d [E Hd]]. rewrite (new_events_app _ _ _ E). exact Hd.
  - intros Hr. rewrite apply_unfold.
    unfold SyscallOptimizer.applied, bind_ok, bind.
    change (Z.to_nat config.MAX_RETRIES) with 3%nat.
    cbn [SyscallOptimizer.retry_loop].
    change (0 <? config.MAX_RETRIES) with true.
    change (0 + 1 <? config.MAX_RETRIES) with true.
    change (0 + 1 + 1 <? config.MAX_RETRIES) with true.
    change (0 <? config.MAX_RETRIES - 1) with true.
    change (0 + 1 <? config.MAX_RETRIES - 1) with true.
    change (0 + 1 + 1 <? config.MAX_RETRIES - 1) with false.
    change config.RETRY_DELAY_MS with 50.
    cbv iota. unfold bind_ok, bind, SyscallOptimizer.sleep_for, ret.
    destruct (direct_out_of_range h k tid arg w Hr) as [r1 [E1 S1]].
    rewrite E1, S1. cbn [emit fst snd set_trace trace].
    set (w2 := set_trace _ (set_trace _ w)).
    destruct (direct_out_of_range h k tid arg w2 Hr) as [r2 [E2 S2]].
    rewrite E2, S2. cbn [emit fst snd set_trace trace].
    set (w4 := set_trace _ (set_trace _ w2)).
    destruct (direct_out_of_range h k tid arg w4 Hr) as [r3 [E3 S3]].
    rewrite E3, S3. cbn [emit fst snd set_trace trace].
    split; [reflexivity|]. apply new_events_app.
    unfold w4, w2. cbn [set_trace trace]. rewrite <- !app_assoc. reflexivity.
Qed.

(** A negative thread ID never reaches the kernel. *)
Lemma apply_validates_first_witness :
  fst (SyscallOptimizer.apply phone_host Nice (-1) 5 initial_world) = Ok false /\
  new_events initial_world (snd (SyscallOptimizer.apply phone_host Nice (-1) 5 initial_world)) =
    [EvDirect Nice (-1) false; EvSleep 50; EvDirect Nice (-1) false; EvSleep 50;
     EvDirect Nice (-1) false; EvApply Nice (-1) false].
Proof.
  apply (proj2 (apply_validates_first phone_host Nice (-1) 5 initial_world)). lia.
Defined.

(** X3. Over a whole run of optimizeSystem, on any host: every system call
    directly follows a positive existence check of its thread; every ID
    checked or tuned lies in (0, 99999); the only values requested are
    niceness -10 or 5, FIFO priority 50 and I/O priority 3 << 13; every
    sleep lasts 50 ms; and only cores 0 to 15 are probed. *)
Theorem run_stays_within_bounds (h : Host) (w : World) :
  let d := new_events w (snd (optimizeSystem h w)) in
  syscalls_guarded d /\ Forall within_bounds d.
Proof.
  cbv zeta. split.
  - assert (Hy : yields syscalls_guarded (optimizeSystem h)).
    { apply yields_optimizeSystem with (ok_arg := fun _ _ => True);
        try reflexivity; auto using syscalls_guarded_app, syscalls_guarded_call,
                                    syscalls_guarded_exists, syscalls_guarded_exists_threw. }
    destruct (Hy w) as [d [E Hd]]. rewrite (new_events_app _ _ _ E). exact Hd.
  - assert (Hy : yields (Forall within_bounds) (optimizeSystem h)).
    { apply yields_optimizeSystem with (ok_arg := run_arg);
        try (intros; repeat (apply Forall_cons; [cbn; auto|]); apply Forall_nil).
      - intros a b Ha Hb. apply Forall_app. auto.
      - auto. }
    destruct (Hy w) as [d [E Hd]]. rewrite (new_events_app _ _ _ E). exact Hd.
Qed.

(** ** SyscallOptimizer: the strict attempts *)

(** X4. Unlike the niceness attempt, the affinity, real-time and I/O
    priority attempts on a thread that passes isValidPID succeed exactly
    when their system call returns 0, whatever errno holds; on failure the
    message is the call's name followed by strerror of the current errno,
    which is the value before the call if the host did not set it. *)
Theorem direct_strict (h : Host) (k : Kind) (tid arg : Z) (w : World) :
  k <> Nice ->
  fst (Sanitizer.isValidPID h tid w) = Ok true ->
  let w1 := snd (Sanitizer.isValidPID h tid w) in
  let call := syscall h (trace w1) k tid (syscall_arg k arg) in
  let errno_after := match snd call with Some e => e | None => errno w end in
  exists result,
    fst (SyscallOptimizer.direct h k tid arg w) = Ok result /\
    SyscallOptimizer.success result = (fst call =? 0) /\
    (fst call <> 0 ->
     SyscallOptimizer.error result = (failure_prefix k ++ strerror h errno_after)%string).
Proof.
  intros Hk Hvalid. cbv zeta.
  assert (He : errno (snd (Sanitizer.isValidPID h tid w)) = errno w).
  { unfold Sanitizer.isValidPID, Sanitizer.exists_proc.
    destruct ((0 <? tid) && (tid <? 99999)); [|reflexivity].
    destruct (proc_exists h (trace w) tid); reflexivity. }
  destruct k; try congruence; cbn [SyscallOptimizer.direct syscall_arg failure_prefix];
    unfold SyscallOptimizer.setAffinityDirect, SyscallOptimizer.setRTDirect,
      SyscallOptimizer.setIOPrioDirect, SyscallOptimizer.recorded, bind_ok, bind;
    destruct (Sanitizer.isValidPID h tid w) as [v w1]; cbn [fst snd] in *; subst v;
    cbn [negb]; unfold SyscallOptimizer.host_syscall, SyscallOptimizer.failed,
      SyscallOptimizer.get_errno, bind, ret;
    match goal with
    | |- context [syscall ?hh ?t ?kk ?a ?b] => destruct (syscall hh t kk a b) as [r e]
    end;
    cbn [fst snd]; destruct e as [e|];
    cbn [emit set_errno set_trace errno fst snd];
    destruct (Z.eqb_spec r 0); cbn [fst snd];
    eexists; (split; [reflexivity|]);
    cbn [SyscallOptimizer.success SyscallOptimizer.error];
    (split; [reflexivity|]); intros Hne; try contradiction;
    cbn [errno set_trace set_errno]; rewrite ?He; reflexivity.
Qed.

(** On the phone, sched_setscheduler returns -1 with EPERM. *)
Lemma direct_strict_witness :
  exists result,
    fst (SyscallOptimizer.direct phone_host RT 612 50 initial_world) = Ok result /\
    SyscallOptimizer.success result = (-1 =? 0) /\
    (-1 <> 0 ->
     SyscallOptimizer.error result =
       "sched_setscheduler failed: Operation not permitted"%string).
Proof.
  apply (direct_strict phone_host RT 612 50 initial_world).
  - discriminate.
  - reflexivity.
Defined.

(** X5. setIOPrioDirect passes the class shifted left by 13 bits: for a
    class in [0, 2^18) nothing wraps, the kernel's decoding (shift right by
    13) gives the class back and the 13 data bits are zero; and this is the
    argument of every system call the attempt issues. *)
Theorem ioprio_encoding (h : Host) (tid ioClass : Z) (w : World) :
  0 <= ioClass < 262144 ->
  let a := syscall_arg IOPrio ioClass in
  a = ioClass * 8192 /\
  Z.shiftr a 13 = ioClass /\
  Z.land a 8191 = 0 /\
  forall k' tid' a' r e,
    In (EvSyscall k' tid' a' r e)
       (new_events w (snd (SyscallOptimizer.setIOPrioDirect h tid ioClass w))) ->
    k' = IOPrio /\ tid' = tid /\ a' = a.
Proof.
  intros Hc. cbv zeta.
  assert (Ea : syscall_arg IOPrio ioClass = ioClass * 8192).
  { cbn [syscall_arg]. unfold SyscallOptimizer.IOPRIO_CLASS_SHIFT.
    rewrite Z.shiftl_mul_pow2 by lia. change (2 ^ 13) with 8192.
    apply wrap32_small. unfold INT_MIN, INT_MAX. lia. }
  split; [exact Ea|]. rewrite Ea. split; [|split].
  - rewrite Z.shiftr_div_pow2 by lia. change (2 ^ 13) with 8192.
    apply Z.div_mul. lia.
  - change 8191 with (Z.ones 13). rewrite Z.land_ones by lia.
    change (2 ^ 13) with 8192. apply Z.mod_mul. lia.
  - intros k' tid' a' r e Hin.
    destruct (direct_appends h IOPrio tid ioClass w) as [d [E Hd]].
    cbn [SyscallOptimizer.direct] in E.
    rewrite (new_events_app _ _ _ E) in Hin.
    destruct Hd as [[_ ->]|[[_ ->]|[[_ (r0 & e0 & ok & ->)]|[_ (e0 & ->)]]]];
      cbn [In] in Hin.
    + destruct Hin as [Hin|[]]; discriminate.
    + destruct Hin as [Hin|[Hin|[]]]; discriminate.
    + destruct Hin as [Hin|[Hin|[Hin|[]]]]; try discriminate.
      inversion Hin; subst. auto.
    + destruct Hin as [Hin|[]]; discriminate.
Qed.

(** Class 3 (idle), the one optimizeSystem requests, is encoded as 24576. *)
Lemma ioprio_encoding_witness :
  syscall_arg IOPrio 3 = 3 * 8192 /\
  Z.shiftr (syscall_arg IOPrio 3) 13 = 3 /\
  Z.land (syscall_arg IOPrio 3) 8191 = 0 /\
  forall k' tid' a' r e,
    In (EvSyscall k' tid' a' r e)
       (new_events initial_world
          (snd (SyscallOptimizer.setIOPrioDirect phone_host 612 3 initial_world))) ->
    k' = IOPrio /\ tid' = 612 /\ a' = syscall_arg IOPrio 3.
Proof.
  apply (ioprio_encoding phone_host 612 3 initial_world). lia.
Defined.

(** ** CPUTopology: the memoizing getters *)

Lemma probe_loop_frame h fuel :
  forall i info w,
    let w' := snd (CPUTopology.probe_loop h fuel i info w) in
    perfInfo w' = perfInfo w /\ effInfo w' = effInfo w /\ allInfo w' = allInfo w /\
    errno w' = errno w.
Proof.
  induction fuel as [|fuel IH]; intros i info w; cbv zeta; cbn [CPUTopology.probe_loop].
  - cbn. auto.
  - destruct (i <? 16); [|cbn; auto].
    unfold bind, CPUTopology.open_freq. cbn [emit fst snd].
    destruct (cpu_probe h (trace w) i) as [|f v|]; try (cbn; auto; fail).
    specialize (IH (i + 1) (CPUTopology.classify i v info)
                   (set_trace (trace w ++ [EvProbe i (Opened f v)]) w)).
    cbv zeta in IH. cbn [set_trace perfInfo effInfo allInfo errno] in IH. exact IH.
Qed.

Lemma detectCores_frame h w :
  let w' := snd (CPUTopology.detectCores h w) in
  perfInfo w' = perfInfo w /\ effInfo w' = effInfo w /\ allInfo w' = allInfo w /\
  errno w' = errno w.
Proof.
  cbv zeta. unfold CPUTopology.detectCores, bind.
  pose proof (probe_loop_frame h 16 0 CPUTopology.empty_info w) as H. cbv zeta in H.
  destruct (CPUTopology.probe_loop h 16 0 CPUTopology.empty_info w) as [[info|e] w1];
    cbn [fst snd ret Logger.log emit set_trace perfInfo effInfo allInfo errno] in *; exact H.
Qed.

Lemma perf_getter_frame h w :
  effInfo (snd (CPUTopology.getPerfMask h w)) = effInfo w /\
  allInfo (snd (CPUTopology.getPerfMask h w)) = allInfo w.
Proof.
  unfold CPUTopology.getPerfMask.
  destruct (detectCores_frame h w) as (Hp & He & Ha & _).
  destruct (CPUTopology.detectCores h w) as [info w1]. cbn [snd] in *.
  destruct (perfInfo w); cbn [snd set_perfInfo effInfo allInfo]; auto.
Qed.

Lemma eff_getter_frame h w :
  perfInfo (snd (CPUTopology.getEffMask h w)) = perfInfo w /\
  allInfo (snd (CPUTopology.getEffMask h w)) = allInfo w.
Proof.
  unfold CPUTopology.getEffMask.
  destruct (detectCores_frame h w) as (Hp & He & Ha & _).
  destruct (CPUTopology.detectCores h w) as [info w1]. cbn [snd] in *.
  destruct (effInfo w); cbn [snd set_effInfo perfInfo allInfo]; auto.
Qed.

(** X6. Each of getPerfMask, getEffMask and getAllMask detects at most
    once: a second call returns the same mask and leaves the world as it
    is, even on a host that would now answer differently.  The three keep
    separate caches: a call fills its own and leaves the other two as they
    were. *)
Theorem getters_memoize (h h' : Host) (w : World) :
  (let r := CPUTopology.getPerfMask h w in
   CPUTopology.getPerfMask h' (snd r) = r /\
   effInfo (snd r) = effInfo w /\ allInfo (snd r) = allInfo w) /\
  (let r := CPUTopology.getEffMask h w in
   CPUTopology.getEffMask h' (snd r) = r /\
   perfInfo (snd r) = perfInfo w /\ allInfo (snd r) = allInfo w) /\
  (let r := CPUTopology.getAllMask h w in
   CPUTopology.getAllMask h' (snd r) = r /\
   perfInfo (snd r) = perfInfo w /\ effInfo (snd r) = effInfo w).
Proof.
  cbv zeta.
  unfold CPUTopology.getPerfMask, CPUTopology.getEffMask, CPUTopology.getAllMask.
  destruct (detectCores_frame h w) as (Hp & He & Ha & _).
  destruct (CPUTopology.detectCores h w) as [info w1]. cbn [snd] in *.
  split; [|split].
  - destruct (perfInfo w) eqn:E; cbn [fst snd].
    + rewrite E. auto.
    + cbn [set_perfInfo perfInfo effInfo allInfo]. auto.
  - destruct (effInfo w) eqn:E; cbn [fst snd].
    + rewrite E. auto.
    + cbn [set_effInfo perfInfo effInfo allInfo]. auto.
  - destruct (allInfo w) eqn:E; cbn [fst snd].
    + rewrite E. auto.
    + cbn [set_allInfo perfInfo effInfo allInfo]. auto.
Qed.

Lemma probe_loop_static h fuel :
  (forall t t' i, cpu_probe h t i = cpu_probe h t' i) ->
  forall i info w w',
    fst (CPUTopology.probe_loop h fuel i info w) =
    fst (CPUTopology.probe_loop h fuel i info w').
Proof.
  intros Hs. induction fuel as [|fuel IH]; intros i info w w'; cbn [CPUTopology.probe_loop].
  - reflexivity.
  - destruct (i <? 16); [|reflexivity].
    unfold bind, CPUTopology.open_freq. cbn [emit fst snd].
    rewrite (Hs (trace w) (trace w') i).
    destruct (cpu_probe h (trace w') i); try reflexivity. apply IH.
Qed.

Lemma detectCores_static h :
  (forall t t' i, cpu_probe h t i = cpu_probe h t' i) ->
  forall w w', fst (CPUTopology.detectCores h w) = fst (CPUTopology.detectCores h w').
Proof.
  intros Hs w w'. unfold CPUTopology.detectCores, bind.
  pose proof (probe_loop_static h 16 Hs 0 CPUTopology.empty_info w w') as E.
  destruct (CPUTopology.probe_loop h 16 0 CPUTopology.empty_info w) as [r1 w1].
  destruct (CPUTopology.probe_loop h 16 0 CPUTopology.empty_info w') as [r2 w2].
  cbn [fst] in E. subst r2. destruct r1; reflexivity.
Qed.

Lemma detectCores_partitioned h w :
  partitioned (fst (CPUTopology.detectCores h w)) /\
  totalCores (fst (CPUTopology.detectCores h w)) <= 16.
Proof.
  destruct (detectCores_shape h w) as [vals Hcases]. cbv zeta in Hcases.
  destruct Hcases as [(E & Hn & Hr)|[(E & Hn & Hr)|(E & Hn & Hr)]]; rewrite Hr.
  - split; [apply classify_all_partitioned|]. rewrite classify_all_total.
    cbn [CPUTopology.empty_info totalCores]. lia.
  - split; [apply classify_all_partitioned|]. rewrite classify_all_total.
    cbn [CPUTopology.empty_info totalCores]. lia.
  - split; [apply default_partitioned|]. cbn. discriminate.
Qed.

(** X7. On a host whose cpufreq attributes do not change, starting with
    empty caches, the masks of getPerfMask, getEffMask and getAllMask,
    though detected separately, describe one topology: the all-cores mask
    is the union of the other two, these share no bit, and no bit from 16
    upwards is ever set. *)
Theorem masks_agree_on_static_host (h : Host) (w : World) :
  (forall t t' i, cpu_probe h t i = cpu_probe h t' i) ->
  perfInfo w = None -> effInfo w = None -> allInfo w = None ->
  let r1 := CPUTopology.getPerfMask h w in
  let r2 := CPUTopology.getEffMask h (snd r1) in
  let r3 := CPUTopology.getAllMask h (snd r2) in
  fst r3 = Z.lor (fst r1) (fst r2) /\
  Z.land (fst r1) (fst r2) = 0 /\
  (forall b, Z.testbit (fst r3) b = true -> 0 <= b < 16).
Proof.
  intros Hs Hp He Ha. cbv zeta.
  destruct (perf_getter_frame h w) as (He1 & Ha1).
  set (info := fst (CPUTopology.detectCores h w)).
  assert (E1 : fst (CPUTopology.getPerfMask h w) = CPUTopology.perfMask info).
  { unfold CPUTopology.getPerfMask. rewrite Hp.
    unfold info. destruct (CPUTopology.detectCores h w). reflexivity. }
  set (w1 := snd (CPUTopology.getPerfMask h w)) in *.
  destruct (eff_getter_frame h w1) as (Hp2 & Ha2).
  assert (E2 : fst (CPUTopology.getEffMask h w1) = CPUTopology.effMask info).
  { unfold CPUTopology.getEffMask. rewrite He1, He.
    unfold info. rewrite (detectCores_static h Hs w w1).
    destruct (CPUTopology.detectCores h w1). reflexivity. }
  set (w2 := snd (CPUTopology.getEffMask h w1)) in *.
  assert (E3 : fst (CPUTopology.getAllMask h w2) = CPUTopology.allMask info).
  { unfold CPUTopology.getAllMask. rewrite Ha2, Ha1, Ha.
    unfold info. rewrite (detectCores_static h Hs w w2).
    destruct (CPUTopology.detectCores h w2). reflexivity. }
  rewrite E1, E2, E3.
  destruct (detectCores_partitioned h w) as [Hpart Htot]. fold info in Hpart, Htot.
  destruct (partitioned_masks info Hpart) as (Hlor & Hland & Hbits).
  { unfold CPUTopology.CPU_SETSIZE. lia. }
  split; [exact Hlor|]. split; [exact Hland|].
  intros b Hb. apply Hbits in Hb. lia.
Qed.

(** On the phone: cores 6 and 7, cores 0 to 5, and all eight. *)
Lemma masks_agree_on_static_host_witness :
  let r1 := CPUTopology.getPerfMask phone_host initial_world in
  let r2 := CPUTopology.getEffMask phone_host (snd r1) in
  let r3 := CPUTopology.getAllMask phone_host (snd r2) in
  fst r3 = Z.lor (fst r1) (fst r2) /\
  Z.land (fst r1) (fst r2) = 0 /\
  (forall b, Z.testbit (fst r3) b = true -> 0 <= b < 16).
Proof.
  apply (masks_agree_on_static_host phone_host initial_world); reflexivity.
Defined.

Lemma detectCores_nothing_opens h w :
  cpu_probe h (trace w) 0 = NotOpen ->
  fst (CPUTopology.detectCores h w) = CPUTopology.empty_info.
Proof.
  intros H0. unfold CPUTopology.detectCores, bind. cbn [CPUTopology.probe_loop].
  change (0 <? 16) with true. cbv iota. unfold bind, CPUTopology.open_freq.
  rewrite H0. reflexivity.
Qed.

(** X8. Where the cpufreq attribute of core 0 does not open, a first call
    of any of the three getters returns the empty mask: the affinity masks
    handed to sched_setaffinity then name no core at all. *)
Theorem masks_empty_without_cpufreq (h : Host) (w : World) :
  cpu_probe h (trace w) 0 = NotOpen ->
  (perfInfo w = None -> fst (CPUTopology.getPerfMask h w) = 0) /\
  (effInfo w = None -> fst (CPUTopology.getEffMask h w) = 0) /\
  (allInfo w = None -> fst (CPUTopology.getAllMask h w) = 0).
Proof.
  intros H0. pose proof (detectCores_nothing_opens h w H0) as E.
  unfold CPUTopology.getPerfMask, CPUTopology.getEffMask, CPUTopology.getAllMask.
  destruct (CPUTopology.detectCores h w) as [info w1]. cbn [fst] in E. subst info.
  repeat split; intros ->; reflexivity.
Qed.

Lemma masks_empty_without_cpufreq_witness :
  (perfInfo initial_world = None ->
   fst (CPUTopology.getPerfMask no_cpufreq_host initial_world) = 0) /\
  (effInfo initial_world = None ->
   fst (CPUTopology.getEffMask no_cpufreq_host initial_world) = 0) /\
  (allInfo initial_world = None ->
   fst (CPUTopology.getAllMask no_cpufreq_host initial_world) = 0).
Proof.
  apply (masks_empty_without_cpufreq no_cpufreq_host initial_world). reflexivity.
Defined.

(** ** ProcessUtils on a host that does not change *)

Section StaticProc.
Variable h : Host.
Variable status : Z -> Res bool.
Variable comm : string -> option string.
Hypothesis status_static : forall t pid, proc_exists h t pid = status pid.
Hypothesis comm_static : forall t name, read_comm h t name = comm name.

Lemma isValidPID_static pid w :
  fst (Sanitizer.isValidPID h pid w) =
  if (0 <? pid) && (pid <? 99999) then status pid else Ok false.
Proof.
  unfold Sanitizer.isValidPID, Sanitizer.exists_proc.
  destruct ((0 <? pid) && (pid <? 99999)); [|reflexivity].
  rewrite status_static. destruct (status pid); reflexivity.
Qed.

Ltac entry_facts :=
  unfold scan_stops, matching_pid, live_tid, live_id, throws_on, alive_on;
  repeat match goal with
         | H : _ = _ |- _ => rewrite H
         end;
  reflexivity.

Lemma scan_proc_static pattern entries :
  forall pids w,
    fst (fst (ProcessUtils.scan_proc h pattern entries pids w)) =
    pids ++ flat_map (matching_pid status comm (regex_search h pattern))
                     (scanned status entries).
Proof.
  induction entries as [|entry rest IH]; intros pids w;
    cbn [ProcessUtils.scan_proc scanned].
  - cbn. rewrite app_nil_r. reflexivity.
  - set (f := matching_pid status comm (regex_search h pattern)) in *.
    assert (Hskip : scan_stops status entry = false -> f entry = [] ->
              forall w', fst (fst (ProcessUtils.scan_proc h pattern rest pids w')) =
                         pids ++ flat_map f (if scan_stops status entry then []
                                             else entry :: scanned status rest)).
    { intros Hs Hf w'. rewrite Hs. cbn [flat_map]. rewrite Hf. apply IH. }
    destruct (d_is_directory entry) eqn:Edir; cbn [negb].
    2:{ apply Hskip; unfold f; clear Hskip IH; entry_facts. }
    destruct (ProcessUtils.all_of_isdigit (d_name entry)) eqn:Edig; cbn [negb].
    2:{ apply Hskip; unfold f; clear Hskip IH; entry_facts. }
    destruct (ProcessUtils.stoi (d_name entry)) as [pid|e] eqn:Estoi.
    2:{ replace (scan_stops status entry) with true by (clear Hskip IH; symmetry; entry_facts).
        cbn. rewrite app_nil_r. reflexivity. }
    unfold bind. pose proof (isValidPID_static pid w) as Ev.
    destruct (Sanitizer.isValidPID h pid w) as [valid w1]. cbn [fst] in Ev. subst valid.
    destruct ((0 <? pid) && (pid <? 99999)) eqn:Erange; cbn [negb].
    2:{ apply Hskip; unfold f; clear Hskip IH; entry_facts. }
    destruct (status pid) as [alive|e] eqn:Estatus.
    2:{ replace (scan_stops status entry) with true by (clear Hskip IH; symmetry; entry_facts).
        cbn. rewrite app_nil_r. reflexivity. }
    destruct alive; cbn [negb].
    2:{ apply Hskip; unfold f; clear Hskip IH; entry_facts. }
    unfold ProcessUtils.host_read_comm. cbn [emit fst snd]. rewrite comm_static.
    destruct (comm (d_name entry)) as [line|] eqn:Ecomm.
    + destruct (regex_search h pattern line) eqn:Ematch.
      * replace (scan_stops status entry) with false by (clear Hskip IH; symmetry; entry_facts).
        cbn [flat_map].
        replace (f entry) with [pid] by (unfold f; clear Hskip IH; symmetry; entry_facts).
        rewrite IH, <- app_assoc. reflexivity.
      * apply Hskip; unfold f; clear Hskip IH; entry_facts.
    + apply Hskip; unfold f; clear Hskip IH; entry_facts.
Qed.

Lemma scan_task_static entries :
  forall tids w,
    fst (fst (ProcessUtils.scan_task h entries tids w)) =
    tids ++ flat_map (live_tid status) (scanned status entries).
Proof.
  induction entries as [|entry rest IH]; intros tids w;
    cbn [ProcessUtils.scan_task scanned].
  - cbn. rewrite app_nil_r. reflexivity.
  - assert (Hskip : scan_stops status entry = false -> live_tid status entry = [] ->
              forall w', fst (fst (ProcessUtils.scan_task h rest tids w')) =
                         tids ++ flat_map (live_tid status)
                                   (if scan_stops status entry then []
                                    else entry :: scanned status rest)).
    { intros Hs Hf w'. rewrite Hs. cbn [flat_map]. rewrite Hf. apply IH. }
    destruct (d_is_directory entry) eqn:Edir; cbn [negb].
    2:{ apply Hskip; clear Hskip IH; entry_facts. }
    destruct (ProcessUtils.all_of_isdigit (d_name entry)) eqn:Edig.
    2:{ apply Hskip; clear Hskip IH; entry_facts. }
    destruct (ProcessUtils.stoi (d_name entry)) as [tid|e] eqn:Estoi.
    2:{ replace (scan_stops status entry) with true by (clear Hskip IH; symmetry; entry_facts).
        cbn. rewrite app_nil_r. reflexivity. }
    unfold bind. pose proof (isValidPID_static tid w) as Ev.
    destruct (Sanitizer.isValidPID h tid w) as [valid w1]. cbn [fst] in Ev. subst valid.
    destruct ((0 <? tid) && (tid <? 99999)) eqn:Erange.
    2:{ apply Hskip; clear Hskip IH; entry_facts. }
    destruct (status tid) as [alive|e] eqn:Estatus.
    2:{ replace (scan_stops status entry) with true by (clear Hskip IH; symmetry; entry_facts).
        cbn. rewrite app_nil_r. reflexivity. }
    destruct alive.
    + replace (scan_stops status entry) with false by (clear Hskip IH; symmetry; entry_facts).
      cbn [flat_map].
      replace (live_tid status entry) with [tid] by (clear Hskip IH; symmetry; entry_facts).
      rewrite IH, <- app_assoc. reflexivity.
    + apply Hskip; clear Hskip IH; entry_facts.
Qed.
End StaticProc.

(** X9. On a host whose process tree does not change during the scan
    (fs::exists gives each ID the same answer, or throws for it, every
    time), getProcessIDs with an accepted pattern returns, in listing
    order, exactly the IDs of the digit-named directories of /proc that lie
    in (0, 99999), exist, and whose comm line the pattern matches -- but
    only of the entries before the first one that ends the scan: a digit
    name that std::stoi cannot convert (empty, or beyond INT_MAX), or an ID
    in range for which fs::exists throws. *)
Theorem discovery_on_static_host (h : Host) (status : Z -> Res bool)
        (entries : list DirEntry) (comm : string -> option string)
        (pattern : string) (w : World) :
  (forall t pid, proc_exists h t pid = status pid) ->
  (forall t, list_dir h t ProcRoot = entries) ->
  (forall t name, read_comm h t name = comm name) ->
  Sanitizer.isValidPattern pattern = true ->
  regex_valid h pattern = true ->
  fst (ProcessUtils.getProcessIDs h pattern w) =
    Ok (flat_map (matching_pid status comm (regex_search h pattern))
                 (scanned status entries)).
Proof.
  intros Ha Hl Hc Hp Hr. unfold ProcessUtils.getProcessIDs.
  rewrite Hp, Hr. cbn [negb]. unfold bind, ProcessUtils.host_list_dir.
  cbn [emit fst snd]. rewrite Hl.
  pose proof (scan_proc_static h status comm Ha Hc pattern entries []
                (set_trace (trace w ++ [EvList ProcRoot entries]) w)) as E.
  destruct (ProcessUtils.scan_proc h pattern entries []
              (set_trace (trace w ++ [EvList ProcRoot entries]) w)) as [[found exn] w2].
  cbn [fst snd app] in *. subst found.
  destruct exn; reflexivity.
Qed.

(** On the phone, zygote is found; 4242 and the entries behind the name
    that overflows are not. *)
Lemma discovery_on_static_host_witness :
  fst (ProcessUtils.getProcessIDs phone_host "zygote" initial_world) = Ok [612].
Proof.
  apply (discovery_on_static_host phone_host
           (fun pid => Ok ((pid =? 1) || (pid =? 612) || (pid =? 640) || (pid =? 4242)))
           (list_dir phone_host [] ProcRoot) (read_comm phone_host [])
           "zygote" initial_world); reflexivity.
Defined.

(** X10. getThreadIDs returns nothing, without listing anything, for a
    process ID that is out of range or that does not exist; when fs::exists
    throws for the process ID itself, the exception leaves getThreadIDs,
    the check being all that happened.  On a host that does not change
    during the scan, it otherwise returns, in listing order, exactly the
    IDs of the digit-named directories of the task directory that lie in
    (0, 99999) and exist, up to the first entry that ends the scan: a digit
    name that std::stoi cannot convert, or an ID in range for which
    fs::exists throws. *)
Theorem threads_on_static_host (h : Host) (status : Z -> Res bool)
        (entries : list DirEntry) (pid : Z) (w : World) :
  (forall t id, proc_exists h t id = status id) ->
  (forall t, list_dir h t (TaskDir pid) = entries) ->
  let r := ProcessUtils.getThreadIDs h pid w in
  ((0 <? pid) && (pid <? 99999) = false \/ status pid = Ok false ->
   fst r = Ok [] /\
   forall d l, ~ In (EvList d l) (new_events w (snd r))) /\
  (forall e,
     (0 <? pid) && (pid <? 99999) = true -> status pid = Thrown e ->
     fst r = Thrown e /\ new_events w (snd r) = [EvExistsThrew pid e]) /\
  ((0 <? pid) && (pid <? 99999) = true -> status pid = Ok true ->
   fst r = Ok (flat_map (live_tid status) (scanned status entries))).
Proof.
  intros Ha Hl. cbv zeta. unfold ProcessUtils.getThreadIDs, bind_ok, bind.
  destruct (isValidPID_cases h pid w) as [[Hr E]|[Hr [[b [Hb E]]|[e [He E]]]]];
    rewrite E; cbn [fst snd].
  - assert (Er : (0 <? pid) && (pid <? 99999) = false)
      by (apply andb_false_iff; rewrite !Z.ltb_ge; lia).
    cbn [negb ret fst snd]. split; [|split].
    + intros _. split; [reflexivity|]. intros d l Hin.
      rewrite (new_events_app w w []) in Hin by (rewrite app_nil_r; reflexivity).
      contradiction.
    + intros e0 H. congruence.
    + intros H. congruence.
  - rewrite Ha in Hb.
    assert (Er : (0 <? pid) && (pid <? 99999) = true)
      by (apply andb_true_iff; rewrite !Z.ltb_lt; lia).
    destruct b; cbn [negb].
    + split; [|split].
      * intros [H|H]; congruence.
      * intros e0 _ H. congruence.
      * intros _ _. unfold ProcessUtils.host_list_dir. cbn [emit fst snd]. rewrite Hl.
        set (w1 := set_trace (trace w ++ [EvExists pid true]) w).
        pose proof (scan_task_static h status Ha entries []
                      (set_trace (trace w1 ++ [EvList (TaskDir pid) entries]) w1)) as Es.
        destruct (ProcessUtils.scan_task h entries []
                    (set_trace (trace w1 ++ [EvList (TaskDir pid) entries]) w1))
          as [[found exn] w2].
        cbn [fst snd app] in *. subst found.
        destruct exn; reflexivity.
    + cbn [ret fst snd]. split; [|split].
      * intros _. split; [reflexivity|]. intros d l Hin.
        rewrite (new_events_app w _ [EvExists pid false]) in Hin by reflexivity.
        destruct Hin as [Hin|[]]. discriminate.
      * intros e0 _ H. congruence.
      * intros _ H. congruence.
  - rewrite Ha in He. cbn [ret fst snd]. split; [|split].
    + intros [H|H]; [|congruence].
      apply andb_false_iff in H. rewrite !Z.ltb_ge in H. lia.
    + intros e0 _ H. rewrite He in H. inversion H; subst e0.
      split; [reflexivity|]. apply new_events_app. reflexivity.
    + intros _ H. congruence.
Qed.

(** Where the status of thread 640 cannot be read, the scan of zygote's
    task directory ends at that entry and returns 612 alone; asked for the
    threads of 640 itself, getThreadIDs throws. *)
Lemma threads_on_static_host_witness :
  fst (ProcessUtils.getThreadIDs unreadable_thread_host 612 initial_world) = Ok [612] /\
  fst (ProcessUtils.getThreadIDs unreadable_thread_host 640 initial_world) =
    Thrown filesystem_error /\
  new_events initial_world
    (snd (ProcessUtils.getThreadIDs unreadable_thread_host 640 initial_world)) =
    [EvExistsThrew 640 filesystem_error].
Proof.
  set (status := fun pid : Z =>
         if pid =? 640 then Thrown filesystem_error
         else Ok ((pid =? 1) || (pid =? 612) || (pid =? 640) || (pid =? 4242))).
  split.
  - apply (proj2 (proj2 (threads_on_static_host unreadable_thread_host status
                           (list_dir phone_host [] (TaskDir 612)) 612 initial_world
                           (fun _ _ => eq_refl) (fun _ => eq_refl)))); reflexivity.
  - apply (proj1 (proj2 (threads_on_static_host unreadable_thread_host status
                           (list_dir phone_host [] (TaskDir 640)) 640 initial_world
                           (fun _ _ => eq_refl) (fun _ => eq_refl))) filesystem_error);
      reflexivity.
Defined.

(** ** StatsTracker: tallies modulo 2^32 *)

Lemma record_commute (c1 c2 : StatsTracker.Call) (s : StatsTracker.t) :
  StatsTracker.record c1 (StatsTracker.record c2 s) =
  StatsTracker.record c2 (StatsTracker.record c1 s).
Proof. destruct c1, c2; reflexivity. Qed.

Lemma run_permutation (calls calls' : list StatsTracker.Call) :
  Permutation calls calls' ->
  forall s, StatsTracker.run calls s = StatsTracker.run calls' s.
Proof.
  induction 1 as [|c l l' HP IH|c1 c2 l|l l' l'' H1 IH1 H2 IH2]; intros s.
  - reflexivity.
  - rewrite !run_cons. apply IH.
  - rewrite !run_cons. rewrite record_commute. reflexivity.
  - rewrite IH1. apply IH2.
Qed.

(** X11. Starting from zero, the three counters are the numbers of
    recordSuccess calls, of recordFailure calls and of all calls, each
    reduced modulo 2^32 into the int range; so the order of the calls does
    not matter: from any state, two sequences with the same calls in a
    different order leave the same counters. *)
Theorem stats_are_tallies (calls : list StatsTracker.Call) :
  StatsTracker.run calls StatsTracker.init =
    {| StatsTracker.successCount := wrap32 (successes calls);
       StatsTracker.failureCount := wrap32 (failures calls);
       StatsTracker.totalOps := wrap32 (Z.of_nat (List.length calls)) |} /\
  (forall calls' s, Permutation calls calls' ->
                    StatsTracker.run calls s = StatsTracker.run calls' s).
Proof.
  split; [|intros calls' s HP; apply run_permutation, HP].
  induction calls as [|c calls IH] using rev_ind.
  - reflexivity.
  - rewrite run_snoc, IH. unfold successes, failures.
    rewrite !filter_app, !length_app. cbn [filter List.length].
    destruct c; cbn [StatsTracker.record StatsTracker.recordSuccess StatsTracker.recordFailure
                     StatsTracker.successCount StatsTracker.failureCount StatsTracker.totalOps
                     is_success is_failure negb List.length].
    all: unfold StatsTracker.recordSuccess, StatsTracker.recordFailure;
      cbn [StatsTracker.successCount StatsTracker.failureCount StatsTracker.totalOps];
      rewrite !wrap32_succ, ?Nat.add_0_r; f_equal; f_equal; lia.
Qed.

(** ** TaskOptimizer: a pass in which every operation succeeds *)

Lemma run_successes_frame (n : nat) (s : StatsTracker.t) :
  StatsTracker.failureCount (StatsTracker.run (repeat StatsTracker.Success n) s) =
  StatsTracker.failureCount s.
Proof.
  revert s. induction n as [|n IH]; intros s; cbn [repeat]; [reflexivity|].
  rewrite run_cons, IH. reflexivity.
Qed.

Lemma tids_outcomes_all_true optimizer opName tids :
  (forall tid w, fst (optimizer tid w) = Ok true) ->
  forall w, fst (tids_outcomes optimizer opName tids w) =
            (repeat true (List.length tids), Ok tt).
Proof.
  intros Hall. induction tids as [|tid rest IH]; intros w; cbn [tids_outcomes].
  - reflexivity.
  - pose proof (Hall tid w) as E. destruct (optimizer tid w) as [ok w1].
    cbn [fst] in E. subst ok.
    specialize (IH w1). destruct (tids_outcomes optimizer opName rest w1) as [p w3].
    cbn [fst List.length repeat] in *. rewrite IH. reflexivity.
Qed.

Lemma pass_outcomes_all_true h optimizer opName pids :
  (forall tid w, fst (optimizer tid w) = Ok true) ->
  forall w, fst (fst (pass_outcomes h optimizer opName pids w)) =
            repeat true (List.length (fst (fst (pass_outcomes h optimizer opName pids w)))).
Proof.
  intros Hall. induction pids as [|pid rest IH]; intros w; cbn [pass_outcomes].
  - reflexivity.
  - destruct (ProcessUtils.getThreadIDs h pid w) as [[tids|e] w1]; [|reflexivity].
    pose proof (tids_outcomes_all_true optimizer opName tids Hall w1) as E1.
    destruct (tids_outcomes optimizer opName tids w1) as [p w2].
    cbn [fst] in E1. subst p. cbn [fst snd].
    specialize (IH w2). destruct (pass_outcomes h optimizer opName rest w2) as [p' w3].
    cbn [fst] in *. rewrite IH at 1.
    rewrite <- repeat_app, !length_app, !repeat_length. reflexivity.
Qed.

Lemma map_call_of_true (n : nat) :
  map call_of (repeat true n) = repeat StatsTracker.Success n.
Proof. induction n as [|n IH]; cbn; [|rewrite IH]; reflexivity. Qed.

(** X12. With an operation that succeeds on every thread, the inner loop
    of optimizePattern records one success per thread ID it was given and
    nothing else, and a whole pass over the matching processes records only
    successes: failureCount is left as it was. *)
Theorem all_succeeding_pass (h : Host) (optimizer : Z -> M (Res bool)) (opName : string) :
  (forall tid w, fst (optimizer tid w) = Ok true) ->
  (forall tids stats w,
     fst (TaskOptimizer.for_tids optimizer opName tids stats w) =
       (Ok tt, StatsTracker.run (repeat StatsTracker.Success (List.length tids)) stats)) /\
  (forall pids stats w,
     let stats' := snd (fst (TaskOptimizer.for_pids h optimizer opName pids stats w)) in
     StatsTracker.failureCount stats' = StatsTracker.failureCount stats /\
     stats' = StatsTracker.run
                (repeat StatsTracker.Success
                   (List.length (fst (fst (pass_outcomes h optimizer opName pids w))))) stats).
Proof.
  intros Hall. split.
  - intros tids stats w.
    destruct (for_tids_outcomes optimizer opName tids stats w) as [E _]. rewrite E.
    cbn [fst]. rewrite (tids_outcomes_all_true optimizer opName tids Hall w).
    cbn [fst snd]. rewrite map_call_of_true. reflexivity.
  - intros pids stats w. cbv zeta.
    rewrite (for_pids_outcomes h optimizer opName pids stats w). cbn [fst snd].
    pose proof (pass_outcomes_all_true h optimizer opName pids Hall w) as E.
    set (o := fst (fst (pass_outcomes h optimizer opName pids w))) in *.
    replace (map call_of o) with (repeat StatsTracker.Success (List.length o))
      by (rewrite E at 2; symmetry; apply map_call_of_true).
    split; [apply run_successes_frame | reflexivity].
Qed.

(** Two threads, an operation that always succeeds: two successes. *)
Lemma all_succeeding_pass_witness :
  fst (TaskOptimizer.for_tids (fun _ => ret (Ok true)) "noop" [612; 640]
         StatsTracker.init initial_world) =
    (Ok tt, StatsTracker.run (repeat StatsTracker.Success 2) StatsTracker.init).
Proof.
  apply (proj1 (all_succeeding_pass phone_host (fun _ => ret (Ok true)) "noop"
                  (fun _ _ => eq_refl))).
Defined.

(** ** The run as a whole *)

Lemma getProcessIDs_throws h pattern w :
  throws h pattern = true ->
  ProcessUtils.getProcessIDs h pattern w = (Thrown regex_error, w).
Proof.
  unfold throws. intros H. apply andb_true_iff in H. destruct H as [Hv Hr].
  apply negb_true_iff in Hr. unfold ProcessUtils.getProcessIDs. rewrite Hv, Hr. reflexivity.
Qed.

Lemma getProcessIDs_returns h pattern w :
  throws h pattern = false ->
  exists pids, fst (ProcessUtils.getProcessIDs h pattern w) = Ok pids.
Proof.
  unfold throws, ProcessUtils.getProcessIDs. intros H.
  destruct (Sanitizer.isValidPattern pattern); cbn [negb andb] in *.
  - apply negb_false_iff in H. rewrite H. cbn [negb]. unfold bind.
    destruct (ProcessUtils.host_list_dir h ProcRoot w) as [entries w1].
    destruct (ProcessUtils.scan_proc h pattern entries [] w1) as [[found [e|]] w2];
      cbn; eauto.
  - cbn. eauto.
Qed.

Lemma optimizePattern_throws h pattern optimizer opName stats w :
  throws h pattern = true ->
  TaskOptimizer.optimizePattern h pattern optimizer opName stats w =
    ((Thrown regex_error, stats), w).
Proof.
  intros H. unfold TaskOptimizer.optimizePattern, bind.
  rewrite (getProcessIDs_throws h pattern w H). reflexivity.
Qed.

(** Computations that never throw. *)
Lemma returns_ret {A} (a : A) : returns (ret (Ok a)).
Proof. intros w. exists a. reflexivity. Qed.

Lemma returns_bind {A B} (m : M A) (k : A -> M (Res B)) :
  (forall a, returns (k a)) -> returns (bind m k).
Proof. intros Hk w. unfold bind. destruct (m w) as [a w1]. apply Hk. Qed.

Lemma returns_bind_ok {A B} (m : M (Res A)) (k : A -> M (Res B)) :
  returns m -> (forall a, returns (k a)) -> returns (bind_ok m k).
Proof.
  intros Hm Hk w. unfold bind_ok, bind.
  destruct (Hm w) as [a E]. destruct (m w) as [r w1]. cbn [fst] in E. subst r.
  apply Hk.
Qed.

Lemma returns_if {A} (b : bool) (m1 m2 : M (Res A)) :
  returns m1 -> returns m2 -> returns (if b then m1 else m2).
Proof. destruct b; auto. Qed.

Section NoThrow.
(** On a host whose fs::exists always answers, nothing below
    getProcessIDs throws. *)
Variable h : Host.
Hypothesis answers : exists_answers h.

Lemma isValidPID_returns pid : returns (Sanitizer.isValidPID h pid).
Proof.
  intros w. unfold Sanitizer.isValidPID, Sanitizer.exists_proc.
  destruct ((0 <? pid) && (pid <? 99999)); [|cbn; eauto].
  destruct (answers (trace w) pid) as [b Hb]. rewrite Hb. cbn. eauto.
Qed.

Lemma direct_returns k tid arg : returns (SyscallOptimizer.direct h k tid arg).
Proof.
  intros w.
  destruct (direct_events h k tid arg w)
    as [(_ & (res & E & _) & _)
       |(_ & [(_ & (res & E & _) & _)|[(_ & r & e & res & E & _)|(e & He & _)]])];
    eauto.
  destruct (answers (trace w) tid) as [b Hb]. congruence.
Qed.

Lemma retry_loop_returns attempt fuel :
  returns attempt -> forall retry, returns (SyscallOptimizer.retry_loop attempt fuel retry).
Proof.
  intros Ha. induction fuel as [|fuel IH]; intros retry;
    cbn [SyscallOptimizer.retry_loop].
  - apply returns_ret.
  - apply returns_if; [|apply returns_ret].
    apply returns_bind_ok; [exact Ha|]. intros r.
    apply returns_if; [apply returns_ret|].
    apply returns_bind. intros _. apply IH.
Qed.

Lemma apply_returns k tid arg : returns (SyscallOptimizer.apply h k tid arg).
Proof.
  rewrite apply_unfold. unfold SyscallOptimizer.applied.
  apply returns_bind_ok; [apply retry_loop_returns, direct_returns|].
  intros b. apply returns_bind. intros _. apply returns_ret.
Qed.

Lemma and_then_returns (a b : M (Res bool)) :
  returns a -> returns b -> returns (a &&> b).
Proof.
  intros Ha Hb. unfold and_then. apply returns_bind_ok; [exact Ha|].
  intros x. apply returns_if; [exact Hb | apply returns_ret].
Qed.

Lemma tier_returns tier tid : returns (tier_optimizer h tier tid).
Proof.
  destruct tier; cbn [tier_optimizer]; unfold high_prio, rt, low_prio.
  - apply and_then_returns; [apply (apply_returns Nice)|].
    apply returns_bind. intros mask. apply (apply_returns Affinity).
  - apply and_then_returns; [apply (apply_returns RT)|].
    apply returns_bind. intros mask. apply (apply_returns Affinity).
  - apply and_then_returns; [apply and_then_returns|].
    + apply (apply_returns Nice).
    + apply returns_bind. intros mask. apply (apply_returns Affinity).
    + apply (apply_returns IOPrio).
Qed.

Lemma getThreadIDs_returns pid : returns (ProcessUtils.getThreadIDs h pid).
Proof.
  unfold ProcessUtils.getThreadIDs.
  apply returns_bind_ok; [apply isValidPID_returns|]. intros valid.
  apply returns_if; [apply returns_ret|].
  apply returns_bind. intros entries.
  apply returns_bind. intros [found [e|]]; cbn [fst snd].
  - apply returns_bind. intros _. apply returns_ret.
  - apply returns_ret.
Qed.

Lemma visit_returns optimizer opName tid stats w :
  returns (optimizer tid) ->
  fst (fst (TaskOptimizer.visit optimizer opName tid stats w)) = Ok tt.
Proof.
  intros Ho. unfold TaskOptimizer.visit, bind.
  destruct (Ho w) as [b E]. destruct (optimizer tid w) as [r w1].
  cbn [fst] in E. subst r. destruct b; reflexivity.
Qed.

Lemma for_tids_returns optimizer opName tids :
  (forall tid, returns (optimizer tid)) ->
  forall stats w, fst (fst (TaskOptimizer.for_tids optimizer opName tids stats w)) = Ok tt.
Proof.
  intros Ho. induction tids as [|tid rest IH]; intros stats w;
    cbn [TaskOptimizer.for_tids]; unfold bind.
  - reflexivity.
  - pose proof (visit_returns optimizer opName tid stats w (Ho tid)) as E.
    destruct (TaskOptimizer.visit optimizer opName tid stats w) as [[r s1] w1].
    cbn [fst snd] in *. subst r. apply IH.
Qed.

Lemma for_pids_returns optimizer opName pids :
  (forall tid, returns (optimizer tid)) ->
  forall stats w, fst (fst (TaskOptimizer.for_pids h optimizer opName pids stats w)) = Ok tt.
Proof.
  intros Ho. induction pids as [|pid rest IH]; intros stats w;
    cbn [TaskOptimizer.for_pids]; unfold bind.
  - reflexivity.
  - destruct (getThreadIDs_returns pid w) as [tids E].
    destruct (ProcessUtils.getThreadIDs h pid w) as [t w1]. cbn [fst] in E. subst t.
    pose proof (for_tids_returns optimizer opName tids Ho stats w1) as E.
    destruct (TaskOptimizer.for_tids optimizer opName tids stats w1) as [[r s1] w2].
    cbn [fst snd] in *. subst r. apply IH.
Qed.

Lemma optimizePattern_returns pattern optimizer opName stats w :
  throws h pattern = false ->
  (forall tid, returns (optimizer tid)) ->
  fst (fst (TaskOptimizer.optimizePattern h pattern optimizer opName stats w)) = Ok tt.
Proof.
  intros H Ho. unfold TaskOptimizer.optimizePattern, bind.
  destruct (getProcessIDs_returns h pattern w H) as [pids E].
  destruct (ProcessUtils.getProcessIDs h pattern w) as [r w1]. cbn [fst] in E. subst r.
  destruct pids as [|pid pids].
  - reflexivity.
  - apply for_pids_returns, Ho.
Qed.

Lemma for_tasks_result tasks optimizer opName :
  (forall tid, returns (optimizer tid)) ->
  forall stats w,
    fst (fst (for_tasks h tasks optimizer opName stats w)) =
    if existsb (throws h) tasks then Thrown regex_error else Ok tt.
Proof.
  intros Ho. induction tasks as [|task rest IH]; intros stats w; cbn [for_tasks existsb].
  - reflexivity.
  - unfold bind. destruct (throws h task) eqn:Et; cbn [orb].
    + rewrite (optimizePattern_throws h task optimizer opName stats w Et). reflexivity.
    + pose proof (optimizePattern_returns task optimizer opName stats w Et Ho) as E.
      destruct (TaskOptimizer.optimizePattern h task optimizer opName stats w) as [[r s1] w1].
      cbn [fst snd] in *. subst r. apply IH.
Qed.
End NoThrow.

Lemma for_tasks_appends h tasks tier opName stats w :
  exists d, trace (snd (for_tasks h tasks (tier_optimizer h tier) opName stats w)) = trace w ++ d.
Proof.
  assert (Hy : yields (fun _ => True) (for_tasks h tasks (tier_optimizer h tier) opName stats)).
  { apply yields_for_tasks; auto.
    intros tid. apply yields_tier with (ok_arg := fun _ _ => True); auto. }
  destruct (Hy w) as [d [E _]]. eauto.
Qed.

Lemma optimizeSystem_appends h w :
  exists d, trace (snd (optimizeSystem h w)) = trace w ++ d.
Proof.
  assert (Hy : yields (fun _ => True) (optimizeSystem h)).
  { apply yields_optimizeSystem with (ok_arg := fun _ _ => True); auto. }
  destruct (Hy w) as [d [E _]]. eauto.
Qed.

Lemma configured_patterns_valid :
  Forall (fun p => Sanitizer.isValidPattern p = true) configured_patterns.
Proof. repeat constructor. Qed.

Lemma existsb_throws h (patterns : list string) :
  Forall (fun p => Sanitizer.isValidPattern p = true) patterns ->
  existsb (throws h) patterns = negb (forallb (regex_valid h) patterns).
Proof.
  induction 1 as [|p l Hp Hl IH]; cbn [existsb forallb].
  - reflexivity.
  - rewrite IH. unfold throws. rewrite Hp. cbn [andb].
    destruct (regex_valid h p); reflexivity.
Qed.

Lemma configured_throws h :
  existsb (throws h) config.HIGH_PRIO_TASKS = negb (forallb (regex_valid h) config.HIGH_PRIO_TASKS) /\
  existsb (throws h) config.RT_TASKS = negb (forallb (regex_valid h) config.RT_TASKS) /\
  existsb (throws h) config.LOW_PRIO_TASKS = negb (forallb (regex_valid h) config.LOW_PRIO_TASKS).
Proof.
  pose proof configured_patterns_valid as H. unfold configured_patterns in H.
  apply Forall_app in H. destruct H as [H1 H].
  apply Forall_app in H. destruct H as [H2 H3].
  auto using existsb_throws.
Qed.

(** Whether optimizeSystem returns or throws, when fs::exists never
    throws. *)
Lemma optimizeSystem_result h w :
  exists_answers h ->
  fst (optimizeSystem h w) =
  if forallb (regex_valid h) configured_patterns then Ok tt else Thrown regex_error.
Proof.
  intros Hans.
  destruct (configured_throws h) as (T1 & T2 & T3).
  unfold configured_patterns. rewrite !forallb_app.
  unfold optimizeSystem, bind. cbn [Logger.log emit fst snd].
  set (w0 := set_trace _ (set_trace _ w)).
  pose proof (for_tasks_result h Hans config.HIGH_PRIO_TASKS (high_prio h) "high_prio"
                (tier_returns h Hans HighPrio) StatsTracker.init w0) as R1.
  rewrite T1 in R1.
  destruct (for_tasks h config.HIGH_PRIO_TASKS (high_prio h) "high_prio"
              StatsTracker.init w0) as [[r1 s1] w1]. cbn [fst snd] in *.
  destruct (forallb (regex_valid h) config.HIGH_PRIO_TASKS); cbn [negb andb] in *; subst r1;
    [|reflexivity].
  set (w1' := set_trace _ w1).
  pose proof (for_tasks_result h Hans config.RT_TASKS (rt h) "rt"
                (tier_returns h Hans RealTime) s1 w1') as R2.
  rewrite T2 in R2.
  destruct (for_tasks h config.RT_TASKS (rt h) "rt" s1 w1') as [[r2 s2] w2].
  cbn [fst snd] in *.
  destruct (forallb (regex_valid h) config.RT_TASKS); cbn [negb andb] in *; subst r2;
    [|reflexivity].
  set (w2' := set_trace _ w2).
  pose proof (for_tasks_result h Hans config.LOW_PRIO_TASKS (low_prio h) "low_prio"
                (tier_returns h Hans LowPrio) s2 w2') as R3.
  rewrite T3 in R3.
  destruct (for_tasks h config.LOW_PRIO_TASKS (low_prio h) "low_prio" s2 w2') as [[r3 s3] w3].
  cbn [fst snd] in *.
  destruct (forallb (regex_valid h) config.LOW_PRIO_TASKS); cbn [negb andb] in *; subst r3;
    reflexivity.
Qed.

(** X13. Whenever optimizeSystem returns, it has logged the start banner,
    the three tiers in the order high priority, real-time, low priority,
    then the statistics line and the completion banner and nothing after
    them.  On a host whose fs::exists never throws it returns whatever the
    system calls answer, provided the std::regex constructor accepts every
    configured task name; if the constructor refuses one, std::regex_error
    cuts the run short.  (An exception of fs::exists in a set* attempt or
    at the head of getThreadIDs is not caught on the way and cuts it short
    as well; the hypothesis excludes it here.) *)
Theorem optimizeSystem_completes (h : Host) (w : World) :
  let r := optimizeSystem h w in
  (fst r = Ok tt ->
   exists d1 d2 d3 stats,
     new_events w (snd r) =
       [EvLog "=== Starting Advanced System Optimization ===" false;
        EvLog "Optimizing high priority tasks..." false] ++ d1 ++
       [EvLog "Optimizing real-time tasks..." false] ++ d2 ++
       [EvLog "Optimizing low priority tasks..." false] ++ d3 ++
       [EvLog (report_line stats) false;
        EvLog "=== System Optimization Completed ===" false]) /\
  (exists_answers h ->
   (forallb (regex_valid h) configured_patterns = true -> fst r = Ok tt) /\
   (forallb (regex_valid h) configured_patterns = false -> fst r = Thrown regex_error)).
Proof.
  cbv zeta. split.
  - unfold optimizeSystem, bind. cbn [Logger.log emit fst snd].
    set (w0 := set_trace _ (set_trace _ w)).
    destruct (for_tasks_appends h config.HIGH_PRIO_TASKS HighPrio "high_prio"
                StatsTracker.init w0) as [d1 E1].
    cbn [tier_optimizer] in E1.
    destruct (for_tasks h config.HIGH_PRIO_TASKS (high_prio h) "high_prio"
                StatsTracker.init w0) as [[[u1|e1] s1] w1]; cbn [fst snd] in *.
    2:{ discriminate. }
    set (w1' := set_trace _ w1).
    destruct (for_tasks_appends h config.RT_TASKS RealTime "rt" s1 w1') as [d2 E2].
    cbn [tier_optimizer] in E2.
    destruct (for_tasks h config.RT_TASKS (rt h) "rt" s1 w1') as [[[u2|e2] s2] w2];
      cbn [fst snd] in *.
    2:{ discriminate. }
    set (w2' := set_trace _ w2).
    destruct (for_tasks_appends h config.LOW_PRIO_TASKS LowPrio "low_prio" s2 w2') as [d3 E3].
    cbn [tier_optimizer] in E3.
    destruct (for_tasks h config.LOW_PRIO_TASKS (low_prio h) "low_prio" s2 w2')
      as [[[u3|e3] s3] w3]; cbn [fst snd] in *.
    2:{ discriminate. }
    intros _. exists d1, d2, d3, s3.
    apply new_events_app.
    unfold TaskOptimizer.reportStats, StatsTracker.report, Logger.log, emit, ret.
    cbn [fst snd set_trace trace].
    rewrite E3. unfold w2'. cbn [set_trace trace]. rewrite E2.
    unfold w1'. cbn [set_trace trace]. rewrite E1.
    unfold w0. cbn [set_trace trace]. rewrite <- !app_assoc. reflexivity.
  - intros Hans. rewrite (optimizeSystem_result h w Hans).
    split; intros ->; reflexivity.
Qed.

(** On the phone, where SCHED_FIFO is refused for every thread, the run
    still completes. *)
Lemma optimizeSystem_completes_witness :
  fst (optimizeSystem phone_host initial_world) = Ok tt /\
  exists d1 d2 d3 stats,
    new_events initial_world (snd (optimizeSystem phone_host initial_world)) =
      [EvLog "=== Starting Advanced System Optimization ===" false;
       EvLog "Optimizing high priority tasks..." false] ++ d1 ++
      [EvLog "Optimizing real-time tasks..." false] ++ d2 ++
      [EvLog "Optimizing low priority tasks..." false] ++ d3 ++
      [EvLog (report_line stats) false;
       EvLog "=== System Optimization Completed ===" false].
Proof.
  assert (E : fst (optimizeSystem phone_host initial_world) = Ok tt).
  { apply (proj2 (optimizeSystem_completes phone_host initial_world)).
    - intros t pid. eexists. reflexivity.
    - reflexivity. }
  split; [exact E|].
  apply (proj1 (optimizeSystem_completes phone_host initial_world)). exact E.
Defined.

(** X14. main exits with 1, having attempted nothing, when the log
    directory cannot be created (the message goes to std::cerr).
    Otherwise it writes nothing to std::cerr; it exits with 0 exactly when
    optimizeSystem returns, and when optimizeSystem throws -- the regex
    constructor refusing a name, or fs::exists failing where no function
    on the way catches it -- it logs "Critical error: " followed by the
    exception's what() as its last line and exits with 1.  On a host whose
    fs::exists never throws, the exit code is 0 exactly when the regex
    constructor accepts every configured task name, however many
    individual operations failed. *)
Theorem main_exit_code (h : Host) (create_directories : Trace -> option string)
        (w : World) :
  (forall message, create_directories (trace w) = Some message ->
     main h create_directories w =
       ((1, [("Failed to create log directory: " ++ message)%string]), w)) /\
  (create_directories (trace w) = None ->
     let r := main h create_directories w in
     snd (fst r) = [] /\
     (fst (optimizeSystem h w) = Ok tt ->
        fst (fst r) = 0 /\ snd r = snd (optimizeSystem h w)) /\
     (forall e, fst (optimizeSystem h w) = Thrown e ->
        fst (fst r) = 1 /\
        new_events w (snd r) =
          new_events w (snd (optimizeSystem h w))
            ++ [EvLog ("Critical error: " ++ what h e)%string true]) /\
     (exists_answers h ->
        (forallb (regex_valid h) configured_patterns = true -> fst (fst r) = 0) /\
        (forallb (regex_valid h) configured_patterns = false ->
           fst (fst r) = 1 /\
           exists d, new_events w (snd r) =
                       d ++ [EvLog ("Critical error: " ++ what h regex_error)%string true]))).
Proof.
  unfold main. split.
  - intros message ->. reflexivity.
  - intros ->. cbv zeta.
    pose proof (optimizeSystem_result h w) as Hr.
    destruct (optimizeSystem_appends h w) as [d E].
    destruct (optimizeSystem h w) as [r w1]. cbn [fst snd] in *.
    assert (Elog : forall e,
              new_events w (set_trace (trace w1 ++
                              [EvLog ("Critical error: " ++ what h e)%string true]) w1) =
              new_events w w1 ++ [EvLog ("Critical error: " ++ what h e)%string true]).
    { intros e. rewrite (new_events_app w w1 d E).
      apply new_events_app. cbn [set_trace trace]. rewrite E, app_assoc. reflexivity. }
    destruct r as [[]|e0]; cbn [Logger.log emit fst snd].
    + split; [reflexivity|]. split; [auto|]. split; [discriminate|].
      intros Hans. specialize (Hr Hans).
      destruct (forallb (regex_valid h) configured_patterns); [|discriminate].
      split; [reflexivity | discriminate].
    + split; [reflexivity|]. split; [discriminate|]. split.
      * intros e H. inversion H; subst e. split; [reflexivity | apply Elog].
      * intros Hans. specialize (Hr Hans).
        destruct (forallb (regex_valid h) configured_patterns); [discriminate|].
        inversion Hr; subst e0. split; [discriminate|]. intros _.
        split; [reflexivity|]. eexists. apply Elog.
Qed.

(** On the phone, with the log directory in place, the exit code is 0. *)
Lemma main_exit_code_witness :
  fst (fst (main phone_host (fun _ => None) initial_world)) = 0.
Proof.
  apply (proj2 (proj2 (proj2 (proj2 (main_exit_code phone_host (fun _ => None) initial_world)
                                eq_refl)))).
  - intros t pid. eexists. reflexivity.
  - reflexivity.
Defined.

(** On the flaky phone the exception of fs::exists reaches main: the run
    stops at zygote's first thread, the last line logged is the critical
    error, and the exit code is 1. *)
Lemma critical_error_on_flaky_host :
  let r := main flaky_host (fun _ => None) initial_world in
  fst r = (1, []) /\
  fst (optimizeSystem flaky_host initial_world) = Thrown filesystem_error /\
  last (new_events initial_world (snd r)) (EvSleep 0) =
    EvLog "Critical error: filesystem error" true.
Proof. cbv zeta. vm_compute. auto. Qed.

(** ** Logger on files *)

Lemma length_append (a b : string) :
  String.length (a ++ b) = (String.length a + String.length b)%nat.
Proof. induction a as [|c a IH]; cbn; [|rewrite IH]; reflexivity. Qed.

Lemma old_suffix_differs (path : string) : (path ++ ".old")%string <> path.
Proof.
  intros E. apply (f_equal String.length) in E. rewrite length_append in E.
  cbn in E. lia.
Qed.

Lemma rotateLog_frame disk files logFile p :
  p <> logFile -> p <> (logFile ++ ".old")%string ->
  LogFile.rotateLog disk files logFile p = files p.
Proof.
  intros H1 H2. unfold LogFile.rotateLog, LogFile.file_size.
  destruct (files logFile); [|reflexivity].
  destruct (LogFile.MAX_LOG_SIZE <? _); [|reflexivity].
  destruct (LogFile.rename_ok disk files logFile); [|reflexivity].
  unfold LogFile.rename.
  rewrite (proj2 (String.eqb_neq _ _) H2), (proj2 (String.eqb_neq _ _) H1). reflexivity.
Qed.

(** X15. A log call touches only the file chosen by isError, error.log
    or main.log, and that file's .old companion: every other path keeps its
    content; in particular an error line never reaches main.log and an
    informational line never reaches error.log. *)
Theorem log_routing (disk : LogFile.Disk) (stamp : string) (files : LogFile.Files)
        (message : string) (isError : bool) :
  let logFile := if isError then LogFile.ERROR_LOG else LogFile.MAIN_LOG in
  let other := if isError then LogFile.MAIN_LOG else LogFile.ERROR_LOG in
  (forall p, p <> logFile -> p <> (logFile ++ ".old")%string ->
             LogFile.log disk stamp files message isError p = files p) /\
  LogFile.log disk stamp files message isError other = files other /\
  LogFile.log disk stamp files message isError (other ++ ".old")%string =
    files (other ++ ".old")%string.
Proof.
  cbv zeta.
  assert (Hframe : forall p,
            p <> (if isError then LogFile.ERROR_LOG else LogFile.MAIN_LOG) ->
            p <> ((if isError then LogFile.ERROR_LOG else LogFile.MAIN_LOG) ++ ".old")%string ->
            LogFile.log disk stamp files message isError p = files p).
  { intros p H1 H2. unfold LogFile.log.
    destruct (LogFile.open_ok disk _ _).
    - unfold LogFile.append_to. rewrite (proj2 (String.eqb_neq _ _) H1).
      apply rotateLog_frame; assumption.
    - apply rotateLog_frame; assumption. }
  split; [exact Hframe|].
  split; apply Hframe; destruct isError; discriminate.
Qed.

(** X16. When the rename and the open go through, a log call leaves the
    chosen file ending in the new line and never longer than MAX_LOG_SIZE
    plus that line: a file that was missing now holds the line alone; a file
    of at most MAX_LOG_SIZE bytes has the line appended and its .old
    companion untouched; a larger file has been moved to .old, whole, and
    the log starts afresh with the line. *)
Theorem log_rotation (disk : LogFile.Disk) (stamp : string) (files : LogFile.Files)
        (message : string) (isError : bool) :
  let logFile := if isError then LogFile.ERROR_LOG else LogFile.MAIN_LOG in
  let old := (logFile ++ ".old")%string in
  let text := LogFile.line stamp message in
  let files' := LogFile.log disk stamp files message isError in
  LogFile.rename_ok disk files logFile = true ->
  LogFile.open_ok disk (LogFile.rotateLog disk files logFile) logFile = true ->
  exists content',
    files' logFile = Some content' /\
    Z.of_nat (String.length content') <=
      LogFile.MAX_LOG_SIZE + Z.of_nat (String.length text) /\
    match files logFile with
    | None => content' = text /\ files' old = files old
    | Some content =>
        (Z.of_nat (String.length content) <= LogFile.MAX_LOG_SIZE /\
         content' = (content ++ text)%string /\ files' old = files old)
        \/
        (LogFile.MAX_LOG_SIZE < Z.of_nat (String.length content) /\
         content' = text /\ files' old = Some content)
    end.
Proof.
  cbv zeta. intros Hren Hopen. unfold LogFile.log. rewrite Hopen.
  set (logFile := if isError then LogFile.ERROR_LOG else LogFile.MAIN_LOG) in *.
  pose proof (old_suffix_differs logFile) as Hold.
  unfold LogFile.append_to. rewrite String.eqb_refl.
  rewrite (proj2 (String.eqb_neq _ _) Hold).
  unfold LogFile.rotateLog, LogFile.file_size.
  destruct (files logFile) as [content|] eqn:Ef.
  - destruct (Z.ltb_spec LogFile.MAX_LOG_SIZE (Z.of_nat (String.length content))) as [Hbig|Hsmall].
    + rewrite Hren. unfold LogFile.rename.
      rewrite String.eqb_refl.
      rewrite (proj2 (String.eqb_neq logFile (logFile ++ ".old")%string))
        by (intros E; apply Hold; symmetry; exact E).
      rewrite String.eqb_refl.
      eexists. split; [reflexivity|]. split; [unfold LogFile.MAX_LOG_SIZE; lia|].
      right. rewrite Ef. auto.
    + rewrite Ef. eexists. split; [reflexivity|]. split.
      * rewrite length_append. lia.
      * left. auto.
  - rewrite Ef. eexists. split; [reflexivity|]. split; [unfold LogFile.MAX_LOG_SIZE; lia | auto].
Qed.

(** A second line is appended to a short main.log; nothing rotates. *)
Lemma log_rotation_witness :
  exists content',
    LogFile.log good_disk "2026-01-01 00:00:01" short_main_log "again" false
      LogFile.MAIN_LOG = Some content' /\
    Z.of_nat (String.length content') <=
      LogFile.MAX_LOG_SIZE +
      Z.of_nat (String.length (LogFile.line "2026-01-01 00:00:01" "again")) /\
    match short_main_log LogFile.MAIN_LOG with
    | None =>
        content' = LogFile.line "2026-01-01 00:00:01" "again" /\
        LogFile.log good_disk "2026-01-01 00:00:01" short_main_log "again" false
          (LogFile.MAIN_LOG ++ ".old")%string =
          short_main_log (LogFile.MAIN_LOG ++ ".old")%string
    | Some content =>
        (Z.of_nat (String.length content) <= LogFile.MAX_LOG_SIZE /\
         content' = (content ++ LogFile.line "2026-01-01 00:00:01" "again")%string /\
         LogFile.log good_disk "2026-01-01 00:00:01" short_main_log "again" false
           (LogFile.MAIN_LOG ++ ".old")%string =
           short_main_log (LogFile.MAIN_LOG ++ ".old")%string)
        \/
        (LogFile.MAX_LOG_SIZE < Z.of_nat (String.length content) /\
         content' = LogFile.line "2026-01-01 00:00:01" "again" /\
         LogFile.log good_disk "2026-01-01 00:00:01" short_main_log "again" false
           (LogFile.MAIN_LOG ++ ".old")%string = Some content)
    end.
Proof.
  apply (log_rotation good_disk "2026-01-01 00:00:01" short_main_log "again" false);
    reflexivity.
Defined.
